(** * Streaming adapters of the chat client

  A shallow embedding of the three provider adapters
  ([openAIAdapter.js], [anthropicAdapter.js], [geminiAdapter.js], latest
  revisions) and of the router [chatClient.js], together with the
  properties of the streaming core: frame decoding, event ordering,
  completion and error paths.

  Conventions of the embedding.
  - Text is a [string]; one [ascii] stands for one code unit of the text
    produced by the [TextDecoder] (the SSE framing and the JSON syntax
    are ASCII).
  - A value obtained from [JSON.parse] is a [JsVal]; property access,
    truthiness and string conversion follow ECMAScript.
  - The callbacks supplied by the caller are observers: an invocation is
    recorded in the session's list of [calls] and returns normally.
  - The transport is a script: what [fetch] answers and what each
    [reader.read()] yields.

  Around the streaming core, the development also covers the provider
  catalogue ([config/providers.js]), the requests that the adapters
  send, the formatting of messages ([utils/messageFormatters.js]), the
  capabilities of models ([utils/modelHelpers.js]) and the
  classification of errors ([utils/errorHandlers.js]). *)

From Stdlib Require Import String Ascii List Bool Arith NArith Lia.
From Stdlib Require Import DecimalString.
Import ListNotations.
Open Scope string_scope.
Open Scope list_scope.

Set Implicit Arguments.
Set Warnings "-register-all".


(* ===================================================================== *)
(** * Text operations used by the adapters *)
(* ===================================================================== *)

Module Text.

Definition newline : ascii := "010"%char.

(** [s.split('\n')]: always at least one piece. *)
Fixpoint split_newline (s : string) : list string :=
  match s with
  | EmptyString => [EmptyString]
  | String c rest =>
      if Ascii.eqb c newline then EmptyString :: split_newline rest
      else match split_newline rest with
           | [] => [String c EmptyString]
           | l :: ls => String c l :: ls
           end
  end.

(** White space and line terminators stripped by [String.prototype.trim]
    (code units below 256: TAB, LF, VT, FF, CR, SP, NBSP). *)
Definition is_space (c : ascii) : bool :=
  let n := nat_of_ascii c in
  Nat.eqb n 9 || Nat.eqb n 10 || Nat.eqb n 11 || Nat.eqb n 12 || Nat.eqb n 13
  || Nat.eqb n 32 || Nat.eqb n 160.

Fixpoint trim_start (s : string) : string :=
  match s with
  | EmptyString => EmptyString
  | String c rest => if is_space c then trim_start rest else s
  end.

Fixpoint trim_end (s : string) : string :=
  match s with
  | EmptyString => EmptyString
  | String c rest =>
      match trim_end rest with
      | EmptyString => if is_space c then EmptyString else String c EmptyString
      | kept => String c kept
      end
  end.

(** [s.trim()] *)
Definition trim (s : string) : string := trim_end (trim_start s).

(** [s.startsWith(p)] *)
Definition startsWith (s p : string) : bool := String.prefix p s.

(** [s.substring(n)] *)
Fixpoint substring_from (n : nat) (s : string) : string :=
  match n, s with
  | O, _ => s
  | S _, EmptyString => EmptyString
  | S m, String _ rest => substring_from m rest
  end.

(** [s.includes(p)] *)
Definition includes (s p : string) : bool :=
  match String.index 0 p s with Some _ => true | None => false end.

(** Decimal rendering of a non-negative integer inside a template
    literal. *)
Definition decimal (n : N) : string := NilEmpty.string_of_uint (N.to_uint n).

(** [! s] for a string. *)
Definition is_empty (s : string) : bool :=
  match s with EmptyString => true | _ => false end.

(** Regular expression replacement [s.replace(/\/+$/, '')]. *)
Fixpoint strip_trailing_slashes (s : string) : string :=
  match s with
  | EmptyString => EmptyString
  | String c rest =>
      match strip_trailing_slashes rest with
      | EmptyString => if Ascii.eqb c "/"%char then EmptyString else String c EmptyString
      | kept => String c kept
      end
  end.

(** [s.replace(/<suffix>$/, '')] for a literal, non-empty suffix. *)
Fixpoint strip_suffix (suffix s : string) : string :=
  if String.eqb s suffix then EmptyString
  else match s with
       | EmptyString => EmptyString
       | String c rest => String c (strip_suffix suffix rest)
       end.

(** [s.toLowerCase()] on code units below 256: the letters A-Z and the
    capital letters of Latin-1 (U+00C0 to U+00DE, the multiplication
    sign U+00D7 apart) move 32 code units up. *)
Definition lower (c : ascii) : ascii :=
  let n := nat_of_ascii c in
  if (Nat.leb 65 n && Nat.leb n 90)
     || (Nat.leb 192 n && Nat.leb n 222 && negb (Nat.eqb n 215))
  then ascii_of_nat (n + 32) else c.

Fixpoint toLowerCase (s : string) : string :=
  match s with
  | EmptyString => EmptyString
  | String c rest => String (lower c) (toLowerCase rest)
  end.

End Text.

(* ===================================================================== *)
(** * Frame decoder: the buffer-and-split loop *)
(* ===================================================================== *)

Module Decoder.
Import Text.

(** One iteration of the read loop on the decoder's side:
<<
    buffer += decoder.decode(value, { stream: true })
    const lines = buffer.split('\n')
    buffer = lines.pop() || ''
>>
    returns the complete lines and the new buffer. *)
Definition decode_chunk (buffer value : string) : list string * string :=
  let lines := split_newline (buffer ++ value) in
  (removelast lines, last lines EmptyString).

(** The loop over successive chunks, keeping only what the decoder does:
    all complete lines in order, and the fragment left in the buffer. *)
Fixpoint feed (buffer : string) (chunks : list string) : list string * string :=
  match chunks with
  | [] => ([], buffer)
  | value :: rest =>
      let '(lines, buffer') := decode_chunk buffer value in
      let '(more, final) := feed buffer' rest in
      (lines ++ more, final)
  end.

(** The payload of a complete line, as the adapters extract it: the line
    is trimmed, and a line starting with [data: ] gives what follows the
    prefix. *)
Definition data_payload (line : string) : option string :=
  let trimmedLine := trim line in
  if startsWith trimmedLine "data: " then Some (substring_from 6 trimmedLine)
  else None.

Definition payloads (lines : list string) : list string :=
  flat_map (fun l => match data_payload l with Some d => [d] | None => [] end) lines.

End Decoder.

(* ===================================================================== *)
(** * Values, as the adapters see what [JSON.parse] returns *)
(* ===================================================================== *)

Module Js.
Import Text.

(** A number is known to the adapters through three observations only:
    whether it is greater than zero, whether it is truthy (neither zero
    nor NaN), and its rendering as a string. *)
Record JsNumber := {
  num_positive : bool;
  num_truthy : bool;
  num_text : string
}.

Inductive JsVal :=
| JUndefined
| JNull
| JBool (b : bool)
| JNum (n : JsNumber)
| JStr (s : string)
| JArr (items : list JsVal)
| JObj (fields : list (string * JsVal)).

(** An exception value: [error.name] and [error.message]. *)
Record JsError := { err_name : string; err_message : string }.

(** What the JavaScript engine provides and the repository does not
    define: [JSON.parse] ([None] when it throws a SyntaxError; an object
    lists each key once) and the comparison [s > 0] of a string converted
    to a number. *)
Class Engine := {
  JSON_parse : string -> option JsVal;
  string_gt_zero : string -> bool
}.

Definition lookup (k : string) (fields : list (string * JsVal)) : JsVal :=
  match find (fun kv => String.eqb (fst kv) k) fields with
  | Some kv => snd kv
  | None => JUndefined
  end.

(** [v?.k] for a key that no prototype defines: [undefined] on
    [null]/[undefined], on primitives and on arrays. *)
Definition opt_prop (v : JsVal) (k : string) : JsVal :=
  match v with
  | JObj fields => lookup k fields
  | _ => JUndefined
  end.

(** [v.k]: as [v?.k], except that reading a property of [null] or
    [undefined] throws a TypeError. *)
Definition TypeError_reading (v : JsVal) (k : string) : JsError :=
  {| err_name := "TypeError";
     err_message := ("Cannot read properties of "
                     ++ (match v with JNull => "null" | _ => "undefined" end)
                     ++ " (reading '" ++ k ++ "')")%string |}.

Definition prop (v : JsVal) (k : string) : JsVal + JsError :=
  match v with
  | JUndefined | JNull => inr (TypeError_reading v k)
  | _ => inl (opt_prop v k)
  end.

(** [v?.[0]] *)
Definition opt_index0 (v : JsVal) : JsVal :=
  match v with
  | JArr (x :: _) => x
  | JStr (String c _) => JStr (String c EmptyString)
  | JObj fields => lookup "0" fields
  | _ => JUndefined
  end.

(** Truthiness. *)
Definition truthy (v : JsVal) : bool :=
  match v with
  | JUndefined | JNull => false
  | JBool b => b
  | JNum n => num_truthy n
  | JStr s => negb (is_empty s)
  | JArr _ | JObj _ => true
  end.

(** [a || b] *)
Definition or_else (a b : JsVal) : JsVal := if truthy a then a else b.

(** [v === 'literal'] *)
Definition is_string (v : JsVal) (literal : string) : bool :=
  match v with
  | JStr s => String.eqb s literal
  | _ => false
  end.

(** String conversion, as performed by [+=] on a string and by template
    literals. *)
Fixpoint ToString (v : JsVal) : string :=
  match v with
  | JUndefined => "undefined"
  | JNull => "null"
  | JBool true => "true"
  | JBool false => "false"
  | JNum n => num_text n
  | JStr s => s
  | JArr items =>
      (fix join (l : list JsVal) : string :=
         match l with
         | [] => EmptyString
         | x :: rest =>
             let shown := match x with
                          | JUndefined | JNull => EmptyString
                          | _ => ToString x
                          end in
             match rest with
             | [] => shown
             | _ => (shown ++ "," ++ join rest)%string
             end
         end) items
  | JObj _ => "[object Object]"
  end.

(** [v > 0] *)
Definition gt_zero `{Engine} (v : JsVal) : bool :=
  match v with
  | JUndefined | JNull | JObj _ => false
  | JBool b => b
  | JNum n => num_positive n
  | JStr s => string_gt_zero s
  | JArr _ => string_gt_zero (ToString v)
  end.

(** [v.length > 0] for a truthy [v]. *)
Definition length_gt_zero `{Engine} (v : JsVal) : bool :=
  match v with
  | JArr items => match items with [] => false | _ => true end
  | JStr s => negb (is_empty s)
  | JObj fields => gt_zero (lookup "length" fields)
  | _ => false
  end.

Definition TypeError_not_iterable : JsError :=
  {| err_name := "TypeError"; err_message := "object is not iterable" |}.

(** The values visited by [for (const x of v)]. *)
Definition iterate (v : JsVal) : list JsVal + JsError :=
  match v with
  | JArr items => inl items
  | JStr s => inl (map (fun c => JStr (String c EmptyString)) (list_ascii_of_string s))
  | _ => inr TypeError_not_iterable
  end.

End Js.

(* ===================================================================== *)
(** * Session state, callbacks and the monad of the function bodies *)
(* ===================================================================== *)

Module Session.
Import Text Js.

(** An invocation of a callback, with its arguments. *)
Inductive Event :=
| OnChunk (chunk : JsVal) (accumulatedText : string)
| OnReasoningChunk (chunk : JsVal) (accumulatedReasoning : string)
| OnReasoningComplete
| OnComplete (finalText : string)
| OnError (message : string).

(** [onChunk], [onComplete] and [onError] are always supplied; the two
    reasoning callbacks are optional and tested before use. *)
Record Callbacks := {
  onReasoningChunk : bool;
  onReasoningComplete : bool
}.

(** The variables declared at the top of [sendStreamingMessage]
    ([currentBlockType] exists in the Anthropic adapter only), and the
    callback invocations so far. *)
Record State := {
  fullContent : string;
  fullReasoning : string;
  reasoningDone : bool;
  completeCalled : bool;
  currentBlockType : JsVal;
  calls : list Event
}.

Definition initial : State :=
  {| fullContent := ""; fullReasoning := ""; reasoningDone := false;
     completeCalled := false; currentBlockType := JNull; calls := [] |}.

(** A computation either returns or throws, and leaves a state. *)
Definition M (A : Type) : Type := State -> (A + JsError) * State.

Definition ret {A} (a : A) : M A := fun st => (inl a, st).
Definition throw {A} (e : JsError) : M A := fun st => (inr e, st).
Definition bind {A B} (m : M A) (k : A -> M B) : M B :=
  fun st => match m st with
            | (inl a, st') => k a st'
            | (inr e, st') => (inr e, st')
            end.
Definition lift {A} (r : A + JsError) : M A := fun st => (r, st).

Definition when (b : bool) (m : M unit) : M unit := if b then m else ret tt.

Declare Scope js_scope.
Delimit Scope js_scope with js.
Notation "x <- m ;; k" := (bind m (fun x => k))
  (at level 61, m at next level, right associativity) : js_scope.
Notation "m ;; k" := (bind m (fun _ => k))
  (at level 61, right associativity) : js_scope.
Open Scope js_scope.

Fixpoint for_each {A} (l : list A) (body : A -> M unit) : M unit :=
  match l with
  | [] => ret tt
  | x :: rest => bind (body x) (fun _ => for_each rest body)
  end.

(** Invoking a callback. *)
Definition call (e : Event) : M unit :=
  fun st => (inl tt,
             {| fullContent := fullContent st; fullReasoning := fullReasoning st;
                reasoningDone := reasoningDone st; completeCalled := completeCalled st;
                currentBlockType := currentBlockType st; calls := calls st ++ [e] |}).

Definition get {A} (f : State -> A) : M A := fun st => (inl (f st), st).

(** [fullContent += v] *)
Definition append_content (v : JsVal) : M unit :=
  fun st => (inl tt,
             {| fullContent := (fullContent st ++ ToString v)%string; fullReasoning := fullReasoning st;
                reasoningDone := reasoningDone st; completeCalled := completeCalled st;
                currentBlockType := currentBlockType st; calls := calls st |}).

(** [fullReasoning += v] *)
Definition append_reasoning (v : JsVal) : M unit :=
  fun st => (inl tt,
             {| fullContent := fullContent st; fullReasoning := (fullReasoning st ++ ToString v)%string;
                reasoningDone := reasoningDone st; completeCalled := completeCalled st;
                currentBlockType := currentBlockType st; calls := calls st |}).

Definition set_reasoningDone (b : bool) : M unit :=
  fun st => (inl tt,
             {| fullContent := fullContent st; fullReasoning := fullReasoning st;
                reasoningDone := b; completeCalled := completeCalled st;
                currentBlockType := currentBlockType st; calls := calls st |}).

Definition set_completeCalled (b : bool) : M unit :=
  fun st => (inl tt,
             {| fullContent := fullContent st; fullReasoning := fullReasoning st;
                reasoningDone := reasoningDone st; completeCalled := b;
                currentBlockType := currentBlockType st; calls := calls st |}).

Definition set_currentBlockType (v : JsVal) : M unit :=
  fun st => (inl tt,
             {| fullContent := fullContent st; fullReasoning := fullReasoning st;
                reasoningDone := reasoningDone st; completeCalled := completeCalled st;
                currentBlockType := v; calls := calls st |}).

(** How the processing of one line leaves the [for] loop over the lines
    of a chunk: go on with the next line, [break], or [return] from
    [sendStreamingMessage]. *)
Inductive Signal := Next | Break | Return.

(** [try { body } catch (parseError) { console.warn(...) }] around the
    handling of one payload: whatever was done before the exception
    stays done, and the loop goes on with the next line. *)
Definition try_frame (body : M Signal) : State -> Signal * State :=
  fun st => match body st with
            | (inl sg, st') => (sg, st')
            | (inr _, st') => (Next, st')
            end.

(** Steps shared by the three adapters. *)

(** [fullContent += v; onChunk(v, fullContent)] *)
Definition deliver_content (v : JsVal) : M unit :=
  append_content v ;;
  acc <- get fullContent ;;
  call (OnChunk v acc).

(** [fullReasoning += v; onReasoningChunk(v, fullReasoning)] *)
Definition deliver_reasoning (v : JsVal) : M unit :=
  append_reasoning v ;;
  acc <- get fullReasoning ;;
  call (OnReasoningChunk v acc).

(** [fullReasoning && !reasoningDone && onReasoningComplete] *)
Definition reasoning_pending (cb : Callbacks) (st : State) : bool :=
  negb (is_empty (fullReasoning st)) && negb (reasoningDone st) && onReasoningComplete cb.

(** [if (fullReasoning && !reasoningDone && onReasoningComplete)
       { onReasoningComplete(); reasoningDone = true }] *)
Definition close_reasoning (cb : Callbacks) : M unit :=
  pending <- get (reasoning_pending cb) ;;
  when pending (call OnReasoningComplete ;; set_reasoningDone true).

End Session.

(* ===================================================================== *)
(** * OpenAI-compatible adapter (openAIAdapter.js) *)
(* ===================================================================== *)

Module OpenAI.
Import Text Js Session.
Open Scope js_scope.

Section Adapter.
Context `{Engine}.

(** [details.filter(part => part.type === 'reasoning.text' && part.text)
           .map(part => part.text)] *)
Fixpoint reasoning_parts (details : list JsVal) : list JsVal + JsError :=
  match details with
  | [] => inl []
  | part :: rest =>
      match prop part "type" with
      | inr e => inr e
      | inl ty =>
          let keep := is_string ty "reasoning.text" && truthy (opt_prop part "text") in
          match reasoning_parts rest with
          | inr e => inr e
          | inl kept => inl (if keep then opt_prop part "text" :: kept else kept)
          end
      end
  end.

(** [parts.join('')] *)
Definition join_text (parts : list JsVal) : string :=
  String.concat EmptyString
    (map (fun x => match x with JUndefined | JNull => EmptyString | _ => ToString x end) parts).

(** The reasoning text of a delta: [delta.reasoning], or else the
    concatenated [reasoning.text] parts of [delta.reasoning_details]. *)
Definition reasoning_text (delta : JsVal) : M JsVal :=
  if truthy (opt_prop delta "reasoning") then ret (opt_prop delta "reasoning")
  else if truthy (opt_prop delta "reasoning_details") then
    match opt_prop delta "reasoning_details" with
    | JArr details =>
        reasoningParts <- lift (reasoning_parts details) ;;
        match reasoningParts with
        | [] => ret JNull
        | _ => ret (JStr (join_text reasoningParts))
        end
    | _ => ret JNull
    end
  else ret JNull.

Definition nl : string := String newline EmptyString.

Definition image_markdown (url : JsVal) : string :=
  (nl ++ "![Generated Image](" ++ ToString url ++ ")" ++ nl)%string.

Definition image_marker (imageUrl : JsVal) : string :=
  (nl ++ "[GENERATED_IMAGE:" ++ ToString imageUrl ++ ":END_IMAGE]" ++ nl)%string.

(** [if (Array.isArray(delta?.content)) for (const part of delta.content) ...] *)
Definition content_images (content : JsVal) : M unit :=
  match content with
  | JArr parts =>
      for_each parts (fun part =>
        ty <- lift (prop part "type") ;;
        let url := opt_prop (opt_prop part "image_url") "url" in
        when (is_string ty "image_url" && truthy url)
             (deliver_content (JStr (image_markdown url))))
  | _ => ret tt
  end.

(** [if (x?.images && Array.isArray(x.images)) for (const image of x.images) ...] *)
Definition generated_images (images : JsVal) : M unit :=
  match images with
  | JArr items =>
      for_each items (fun image =>
        image_url <- lift (prop image "image_url") ;;
        let imageUrl := or_else (opt_prop image_url "url") (opt_prop image "url") in
        when (truthy imageUrl) (deliver_content (JStr (image_marker imageUrl))))
  | _ => ret tt
  end.

(** The body of the [try] block, after [JSON.parse]. *)
Definition handle_frame (cb : Callbacks) (parsed : JsVal) : M Signal :=
  choices <- lift (prop parsed "choices") ;;
  let choice := opt_index0 choices in
  let delta := opt_prop choice "delta" in
  reasoningText <- reasoning_text delta ;;
  when (truthy reasoningText && onReasoningChunk cb) (deliver_reasoning reasoningText) ;;
  when (truthy (opt_prop delta "content")) (close_reasoning cb) ;;
  when (truthy (opt_prop delta "content")) (deliver_content (opt_prop delta "content")) ;;
  content_images (opt_prop delta "content") ;;
  generated_images (opt_prop delta "images") ;;
  let message := opt_prop choice "message" in
  generated_images (opt_prop message "images") ;;
  if truthy (opt_prop choice "finish_reason") then ret Break else ret Next.

Definition SyntaxError : JsError :=
  {| err_name := "SyntaxError"; err_message := "Unexpected token in JSON" |}.

(** [JSON.parse(data)] followed by the handling of the frame, inside the
    [try]. *)
Definition parse_and_handle (cb : Callbacks) (data : string) : M Signal :=
  match JSON_parse data with
  | None => throw SyntaxError
  | Some parsed => handle_frame cb parsed
  end.

(** The body of [for (const line of lines)]. *)
Definition process_line (cb : Callbacks) (line : string) (st : State) : Signal * State :=
  let trimmedLine := trim line in
  if is_empty trimmedLine || startsWith trimmedLine ":" then (Next, st)
  else if startsWith trimmedLine "data: " then
    let data := substring_from 6 trimmedLine in
    if String.eqb data "[DONE]" then (Next, st)
    else try_frame (parse_and_handle cb data) st
  else (Next, st).

End Adapter.
End OpenAI.

(* ===================================================================== *)
(** * Anthropic adapter (anthropicAdapter.js) *)
(* ===================================================================== *)

Module Anthropic.
Import Text Js Session.
Open Scope js_scope.

Section Adapter.
Context `{Engine}.

(** [case 'content_block_delta'] *)
Definition content_block_delta (cb : Callbacks) (parsed : JsVal) : M unit :=
  let delta := opt_prop parsed "delta" in
  when (is_string (opt_prop delta "type") "text_delta" && truthy (opt_prop delta "text"))
    (blockType <- get currentBlockType ;;
     if is_string blockType "thinking" && onReasoningChunk cb
     then deliver_reasoning (opt_prop delta "text")
     else close_reasoning cb ;; deliver_content (opt_prop delta "text")).

(** [case 'content_block_stop'] *)
Definition content_block_stop (cb : Callbacks) : M unit :=
  blockType <- get currentBlockType ;;
  when (is_string blockType "thinking") (close_reasoning cb) ;;
  set_currentBlockType JNull.

(** [switch (parsed.type)] *)
Definition handle_frame (cb : Callbacks) (parsed : JsVal) : M Signal :=
  ty <- lift (prop parsed "type") ;;
  if is_string ty "message_start" then ret Next
  else if is_string ty "content_block_start" then
    set_currentBlockType (opt_prop (opt_prop parsed "content_block") "type") ;; ret Next
  else if is_string ty "content_block_delta" then
    content_block_delta cb parsed ;; ret Next
  else if is_string ty "content_block_stop" then
    content_block_stop cb ;; ret Next
  else if is_string ty "message_delta" then ret Next
  else if is_string ty "message_stop" then ret Next
  else if is_string ty "ping" then ret Next
  else if is_string ty "error" then
    call (OnError (ToString (or_else (opt_prop (opt_prop parsed "error") "message")
                                     (JStr "Unknown error from Claude API")))) ;;
    ret Return
  else ret Next.

Definition parse_and_handle (cb : Callbacks) (data : string) : M Signal :=
  match JSON_parse data with
  | None => throw OpenAI.SyntaxError
  | Some parsed => handle_frame cb parsed
  end.

(** The body of [for (const line of lines)]. *)
Definition process_line (cb : Callbacks) (line : string) (st : State) : Signal * State :=
  let trimmedLine := trim line in
  if is_empty trimmedLine || startsWith trimmedLine ":" then (Next, st)
  else if startsWith trimmedLine "event: " then (Next, st)
  else if startsWith trimmedLine "data: " then
    let data := substring_from 6 trimmedLine in
    try_frame (parse_and_handle cb data) st
  else (Next, st).

End Adapter.
End Anthropic.

(* ===================================================================== *)
(** * Gemini adapter (geminiAdapter.js) *)
(* ===================================================================== *)

Module Gemini.
Import Text Js Session.
Open Scope js_scope.

Section Adapter.
Context `{Engine}.

(** The body of [for (const part of content.parts)]. *)
Definition handle_part (cb : Callbacks) (part : JsVal) : M unit :=
  thought <- lift (prop part "thought") ;;
  if truthy thought && onReasoningChunk cb then deliver_reasoning thought
  else if truthy (opt_prop part "text") then
    close_reasoning cb ;; deliver_content (opt_prop part "text")
  else ret tt.

(** [if (candidates && candidates.length > 0) { ... }] *)
Definition handle_candidates (cb : Callbacks) (candidates : JsVal) : M unit :=
  when (truthy candidates && length_gt_zero candidates)
    (let candidate := opt_index0 candidates in
     content <- lift (prop candidate "content") ;;
     when (truthy content && truthy (opt_prop content "parts"))
       (parts <- lift (iterate (opt_prop content "parts")) ;;
        for_each parts (handle_part cb))).

Definition reported_error (parsed : JsVal) : JsError :=
  {| err_name := "Error";
     err_message := ToString (or_else (opt_prop (opt_prop parsed "error") "message")
                                      (JStr "Unknown error from Gemini")) |}.

(** The body of the [try] block, after [JSON.parse]. *)
Definition handle_frame (cb : Callbacks) (parsed : JsVal) : M Signal :=
  candidates <- lift (prop parsed "candidates") ;;
  handle_candidates cb candidates ;;
  if truthy (opt_prop parsed "error") then throw (reported_error parsed)
  else ret Next.

Definition parse_and_handle (cb : Callbacks) (data : string) : M Signal :=
  match JSON_parse data with
  | None => throw OpenAI.SyntaxError
  | Some parsed => handle_frame cb parsed
  end.

(** The body of [for (const line of lines)]. *)
Definition process_line (cb : Callbacks) (line : string) (st : State) : Signal * State :=
  let trimmedLine := trim line in
  if is_empty trimmedLine then (Next, st)
  else if startsWith trimmedLine "data: " then
    let data := substring_from 6 trimmedLine in
    try_frame (parse_and_handle cb data) st
  else (Next, st).

End Adapter.
End Gemini.

(* ===================================================================== *)
(** * The session controller: the body of [sendStreamingMessage] *)
(* ===================================================================== *)

(** The three adapters are the same function around their line handler:
  validation, [fetch], the mapping of a non-2xx status to a message, the
  read loop, the completion, and the [catch] block.  They differ in the
  line handler, in whether a base URL is checked, and in two messages of
  the [catch] block; [Adapter] records these. *)
Module Controller.
Import Text Js Session Decoder.
Open Scope js_scope.

Record Message := { role : string; content : string }.

Record Request := {
  apiKey : string;
  baseUrl : string;
  model : string;
  messages : list Message
}.

(** What the transport does at one turn of the read loop: a chunk is
    read (here already decoded to text), the read is rejected, or the
    abort flag is found set at the check made before the read (which is
    also the check made after the previous chunk: nothing runs in
    between).  The end of the script is [{ done: true }]. *)
Inductive Step :=
| ReadChunk (text : string)
| ReadRejects (e : JsError)
| Aborted.

Record Response := {
  status : N;
  statusText : string;
  retry_after : option string;   (* response.headers.get('retry-after') *)
  json : option JsVal;           (* response.json(), None if it rejects *)
  body : option (list Step)      (* response.body, None if null *)
}.

Inductive Fetch :=
| FetchRejects (e : JsError)
| FetchResolves (response : Response).

Definition AbortError : JsError :=
  {| err_name := "AbortError"; err_message := "The user aborted a request." |}.

(** [response.ok] *)
Definition ok (r : Response) : bool := N.leb 200 (status r) && N.leb (status r) 299.

Record Adapter := {
  process_line : Callbacks -> string -> State -> Signal * State;
  checks_baseUrl : bool;
  network_error : string;
  invalid_response : string
}.

Definition Error (message : string) : JsError :=
  {| err_name := "Error"; err_message := message |}.

(** The validation at the top of the [try] block. *)
Definition validate (a : Adapter) (req : Request) : M unit :=
  if is_empty (apiKey req) then throw (Error "Invalid API key")
  else if is_empty (model req) then throw (Error "Invalid model")
  else if match messages req with [] => true | _ => false end
       then throw (Error "Messages must be a non-empty array")
  else if checks_baseUrl a && is_empty (baseUrl req) then throw (Error "Invalid base URL")
  else ret tt.

(** The message built in the [if (!response.ok)] block. *)
Definition http_error_default (r : Response) : string :=
  if N.eqb (status r) 401 then "Invalid API key or unauthorized access."
  else if N.eqb (status r) 403 then "Access forbidden. Check your API key permissions."
  else if N.eqb (status r) 404 then "Model or endpoint not found."
  else if N.leb 500 (status r)
       then ("Server error (" ++ decimal (status r) ++ "). Please try again later.")%string
  else ("HTTP " ++ decimal (status r) ++ ": " ++ statusText r)%string.

Definition http_error_message (r : Response) : M string :=
  let errorData := match json r with Some v => v | None => JObj [] end in
  if N.eqb (status r) 429 then
    let waitTime := match retry_after r with
                    | Some retryAfter =>
                        if is_empty retryAfter then EmptyString
                        else (" Please wait " ++ retryAfter ++ " seconds.")%string
                    | None => EmptyString
                    end in
    ret ("Rate limit exceeded." ++ waitTime)%string
  else
    error <- lift (prop errorData "error") ;;
    ret (ToString (or_else (opt_prop error "message") (JStr (http_error_default r)))).

Section Loop.
Variable a : Adapter.
Variable cb : Callbacks.

(** [for (const line of lines) { ... }]: [true] when the function
    returned from inside the loop. *)
Fixpoint process_lines (lines : list string) (st : State) : bool * State :=
  match lines with
  | [] => (false, st)
  | line :: rest =>
      match process_line a cb line st with
      | (Next, st') => process_lines rest st'
      | (Break, st') => (false, st')
      | (Return, st') => (true, st')
      end
  end.

Inductive LoopExit := Finished | Returned.

(** [while (true) { ... }] *)
Fixpoint read_loop (steps : list Step) (buffer : string) : M LoopExit :=
  match steps with
  | [] => ret Finished
  | Aborted :: _ => ret Finished
  | ReadRejects e :: _ => throw e
  | ReadChunk value :: rest =>
      fun st =>
        let '(lines, buffer') := decode_chunk buffer value in
        match process_lines lines st with
        | (true, st') => (inl Returned, st')
        | (false, st') => read_loop rest buffer' st'
        end
  end.

(** [if (!completeCalled) { completeCalled = true; onComplete(fullContent) }] *)
Definition complete : M unit :=
  called <- get completeCalled ;;
  when (negb called)
    (set_completeCalled true ;;
     text <- get fullContent ;;
     call (OnComplete text)).

(** After the loop: [if (fullReasoning && !reasoningDone &&
    onReasoningComplete) onReasoningComplete()], then the completion. *)
Definition finish : M unit :=
  pending <- get (reasoning_pending cb) ;;
  when pending (call OnReasoningComplete) ;;
  complete.

Definition TypeError_no_body : JsError :=
  {| err_name := "TypeError";
     err_message := "Cannot read properties of null (reading 'getReader')" |}.

(** The [try] block. *)
Definition try_block (req : Request) (net : Fetch) : M unit :=
  validate a req ;;
  match net with
  | FetchRejects e => throw e
  | FetchResolves response =>
      if negb (ok response) then
        errorMessage <- http_error_message response ;;
        call (OnError errorMessage)
      else
        match body response with
        | None => throw TypeError_no_body
        | Some steps =>
            exit <- read_loop steps EmptyString ;;
            match exit with
            | Returned => ret tt
            | Finished => finish
            end
        end
  end.

(** [if (fullReasoning.length > 0 && !reasoningDone) { ... }] of the
    abort branch. *)
Definition save_reasoning_on_abort : M unit :=
  reasoning <- get fullReasoning ;;
  done <- get reasoningDone ;;
  when (negb (is_empty reasoning) && negb done)
    (when (onReasoningChunk cb) (call (OnReasoningChunk (JStr EmptyString) reasoning)) ;;
     when (onReasoningComplete cb) (call OnReasoningComplete)).

(** The [catch (error)] block. *)
Definition catch_block (error : JsError) : M unit :=
  if String.eqb (err_name error) "AbortError" then
    save_reasoning_on_abort ;;
    complete
  else
    let errorMessage :=
      if String.eqb (err_name error) "TypeError" && includes (err_message error) "fetch"
      then network_error a
      else if String.eqb (err_name error) "SyntaxError" then invalid_response a
      else if is_empty (err_message error)
           then "An unexpected error occurred. Please try again."
      else err_message error in
    call (OnError errorMessage).

(** [try { ... } catch (error) { ... }] *)
Definition try_catch (block : M unit) (handler : JsError -> M unit) : M unit :=
  fun st => match block st with
            | (inl r, st') => (inl r, st')
            | (inr e, st') => handler e st'
            end.

(** The whole function, from the initial values of its variables: how
    the call ends (normally, or with an exception leaving it) and the
    final state, which holds the callback invocations in order. *)
Definition sendStreamingMessage (req : Request) (net : Fetch) : (unit + JsError) * State :=
  try_catch (try_block req net) catch_block initial.

End Loop.

(** The callback invocations of a session. *)
Definition trace (a : Adapter) (cb : Callbacks) (req : Request) (net : Fetch) : list Event :=
  calls (snd (sendStreamingMessage a cb req net)).

Section Adapters.
Context `{Engine}.

Definition openai : Adapter :=
  {| process_line := OpenAI.process_line;
     checks_baseUrl := true;
     network_error :=
       "Network error: Unable to connect to the API. Please check your internet connection.";
     invalid_response := "Invalid response from API. Please try again." |}.

Definition anthropic : Adapter :=
  {| process_line := Anthropic.process_line;
     checks_baseUrl := false;
     network_error :=
       "Network error: Unable to connect to the Anthropic API. Please check your internet connection.";
     invalid_response := "Invalid response from Anthropic API. Please try again." |}.

Definition gemini : Adapter :=
  {| process_line := Gemini.process_line;
     checks_baseUrl := false;
     network_error :=
       "Network error: Unable to connect to Gemini API. Please check your internet connection.";
     invalid_response := "Invalid response from Gemini API. Please try again." |}.

(** The provider families of the streaming core. *)
Inductive ProviderKind := OpenAICompatible | AnthropicKind | GeminiKind.

Definition adapter_of (p : ProviderKind) : Adapter :=
  match p with
  | OpenAICompatible => openai
  | AnthropicKind => anthropic
  | GeminiKind => gemini
  end.

End Adapters.
End Controller.

(* ===================================================================== *)
(** * The router (chatClient.js) *)
(* ===================================================================== *)

Module Router.
Import Text Js Session Controller.
Open Scope js_scope.

(** The fields of a provider configuration that the router reads. *)
Record ProviderConfig := { apiBaseUrl : string }.

Section Router.
Context `{Engine}.

(** [getProviderById] of the provider catalogue ('@/config/providers'),
    imported by the router. *)
Variable getProviderById : string -> option ProviderConfig.

(** [apiBaseUrl.trim()] with trailing slashes and an included
    [/chat/completions] removed. *)
Definition clean_base_url (apiBaseUrl : string) : string :=
  strip_suffix "/chat/completions" (strip_trailing_slashes (trim apiBaseUrl)).

Definition with_baseUrl (req : Request) (url : string) : Request :=
  {| apiKey := apiKey req; baseUrl := url; model := model req; messages := messages req |}.

(** The callbacks passed on to the Gemini adapter:
    [{ apiKey, model, messages, onChunk, onComplete, onError, abortSignal }]. *)
Definition gemini_callbacks : Callbacks :=
  {| onReasoningChunk := false; onReasoningComplete := false |}.

(** [switch (providerId)], each case awaiting its adapter. *)
Definition dispatch (providerId : string) (providerConfig : option ProviderConfig)
           (cb : Callbacks) (req : Request) (net : Fetch) : M unit :=
  fun _ =>
  if String.eqb providerId "openai" then
    Controller.sendStreamingMessage openai cb (with_baseUrl req "https://api.openai.com/v1") net
  else if String.eqb providerId "openrouter" then
    Controller.sendStreamingMessage openai cb (with_baseUrl req "https://openrouter.ai/api/v1") net
  else if String.eqb providerId "gemini" then
    Controller.sendStreamingMessage gemini gemini_callbacks req net
  else if String.eqb providerId "anthropic" then
    Controller.sendStreamingMessage anthropic cb req net
  else
    let custom := match providerConfig with
                  | Some config => if is_empty (apiBaseUrl config) then None else Some config
                  | None => None
                  end in
    let builtin := match getProviderById providerId with
                   | Some provider => if is_empty (apiBaseUrl provider) then None else Some provider
                   | None => None
                   end in
    match custom, builtin with
    | Some config, _ | None, Some config =>
        Controller.sendStreamingMessage openai cb
          (with_baseUrl req (clean_base_url (apiBaseUrl config))) net
    | None, None =>
        call (OnError ("Unknown provider: " ++ providerId
                       ++ ". Please check your provider configuration.")%string) initial
    end.

(** The router's [catch (error)] block. *)
Definition catch_block (error : JsError) : M unit :=
  let errorMessage :=
    if String.eqb (err_name error) "TypeError"
    then ("Configuration error: " ++ err_message error
          ++ ". Please check your provider settings.")%string
    else if is_empty (err_message error)
         then "An unexpected error occurred while sending the message. Please try again."
    else err_message error in
  call (OnError errorMessage).

(** The exported [sendStreamingMessage] of the chat client. *)
Definition sendStreamingMessage (providerId : string) (providerConfig : option ProviderConfig)
           (cb : Callbacks) (req : Request) (net : Fetch) : (unit + JsError) * State :=
  if is_empty (apiKey req) then call (OnError "API key is required") initial
  else if is_empty (model req) then call (OnError "Model is required") initial
  else if match messages req with [] => true | _ => false end
       then call (OnError "Messages are required") initial
  else try_catch (dispatch providerId providerConfig cb req net) catch_block initial.

End Router.
End Router.

(* ===================================================================== *)
(** * The provider catalogue (config/providers.js) *)
(* ===================================================================== *)

Module Providers.
Import Text Js.

(** An entry of [fallbackModels] (its description is not read by the
    functions below). *)
Record Model := {
  model_id : string;
  model_name : string;
  contextWindow : string
}.

(** The fields of a catalogue entry that the functions below and the
    router read.  No entry of the catalogue has a [models] field. *)
Record Provider := {
  id : string;
  name : string;
  apiBaseUrl : string;
  models : option (list Model);
  fallbackModels : option (list Model)
}.

Definition PROVIDERS : list Provider :=
  [ {| id := "openrouter"; name := "OpenRouter";
       apiBaseUrl := "https://openrouter.ai/api/v1";
       models := None;
       fallbackModels := Some
         [ {| model_id := "anthropic/claude-3.5-sonnet"; model_name := "Claude 3.5 Sonnet";
              contextWindow := "200k" |};
           {| model_id := "openai/gpt-4-turbo"; model_name := "GPT-4 Turbo";
              contextWindow := "128k" |} ] |};
    {| id := "openai"; name := "OpenAI";
       apiBaseUrl := "https://api.openai.com/v1";
       models := None;
       fallbackModels := Some
         [ {| model_id := "gpt-4o"; model_name := "GPT-4o"; contextWindow := "128k" |};
           {| model_id := "gpt-4o-mini"; model_name := "GPT-4o Mini"; contextWindow := "128k" |};
           {| model_id := "o3-mini"; model_name := "o3-mini"; contextWindow := "128k" |};
           {| model_id := "gpt-4-turbo"; model_name := "GPT-4 Turbo";
              contextWindow := "128k" |} ] |};
    {| id := "gemini"; name := "Google Gemini";
       apiBaseUrl := "https://generativelanguage.googleapis.com/v1beta";
       models := None;
       fallbackModels := Some
         [ {| model_id := "gemini-2.5-pro"; model_name := "Gemini 2.5 Pro";
              contextWindow := "1M" |};
           {| model_id := "gemini-2.5-flash"; model_name := "Gemini 2.5 Flash";
              contextWindow := "1M" |};
           {| model_id := "gemini-2.5-flash-lite"; model_name := "Gemini 2.5 Flash Lite";
              contextWindow := "1M" |};
           {| model_id := "gemini-2.0-flash"; model_name := "Gemini 2.0 Flash";
              contextWindow := "1M" |} ] |} ].

(** [PROVIDERS.find(p => p.id === providerId)] *)
Definition getProviderById (providerId : string) : option Provider :=
  find (fun p => String.eqb (id p) providerId) PROVIDERS.

(** [getModelById]: [None] stands for its [null] and for the
    [undefined] of a search that finds nothing. *)
Definition getModelById (providerId modelId : string) : option Model :=
  match getProviderById providerId with
  | None => None
  | Some provider =>
      match models provider with
      | Some ms => find (fun m => String.eqb (model_id m) modelId) ms
      | None =>
          match fallbackModels provider with
          | Some ms => find (fun m => String.eqb (model_id m) modelId) ms
          | None => None
          end
      end
  end.

Definition getAllModels (providerId : string) : list Model :=
  match getProviderById providerId with
  | None => []
  | Some provider =>
      match models provider with
      | Some ms => ms
      | None => match fallbackModels provider with Some ms => ms | None => [] end
      end
  end.

Definition getFallbackModels (providerId : string) : list Model :=
  match getProviderById providerId with
  | None => []
  | Some provider =>
      match models provider with
      | Some ms => ms
      | None => match fallbackModels provider with Some ms => ms | None => [] end
      end
  end.

(** What the router reads of the entry found. *)
Definition config_of (provider : Provider) : Router.ProviderConfig :=
  {| Router.apiBaseUrl := apiBaseUrl provider |}.

Definition config_by_id (providerId : string) : option Router.ProviderConfig :=
  option_map config_of (getProviderById providerId).

End Providers.

(** The chat client as shipped: the router over the catalogue. *)
Module ChatClient.
Import Js Session Controller.

Definition sendStreamingMessage `{Engine} :=
  Router.sendStreamingMessage Providers.config_by_id.

End ChatClient.

(* ===================================================================== *)
(** * What the adapters send (the arguments of [fetch]) *)
(* ===================================================================== *)

Module Requests.
Import Text Js.

(** A message as the adapters receive it: [{ role, content }], the
    content being a text or the parts of a multimodal message. *)
Record ApiMessage := { role : JsVal; content : JsVal }.

Definition message_object (m : ApiMessage) : JsVal :=
  JObj [("role", role m); ("content", content m)].

(** A positive number, by its rendering. *)
Definition number (text : string) : JsVal :=
  JNum {| num_positive := true; num_truthy := true; num_text := text |}.

(** [v !== null] *)
Definition not_null (v : JsVal) : bool :=
  match v with JNull => false | _ => true end.

(** [m.role === 'system'] *)
Definition is_system (m : ApiMessage) : bool := is_string (role m) "system".

(** The arguments of [fetch]: the URL, the headers, and the object given
    to [JSON.stringify] for the body (the method is POST). *)
Record FetchCall := {
  url : string;
  headers : list (string * string);
  body : JsVal
}.

(** ** OpenAI-compatible adapter *)
Module OpenAI.

(** The optional parameters, with their defaults. *)
Record Options := {
  modalities : JsVal;
  reasoning : JsVal;
  temperature : JsVal;
  maxTokens : JsVal;
  topP : JsVal;
  frequencyPenalty : JsVal;
  presencePenalty : JsVal
}.

Definition defaults : Options :=
  {| modalities := JNull; reasoning := JNull; temperature := number "0.7";
     maxTokens := JNull; topP := JNull; frequencyPenalty := JNull;
     presencePenalty := JNull |}.

Definition isArray (v : JsVal) : bool :=
  match v with JArr _ => true | _ => false end.

Definition requestBody (model : string) (messages : list ApiMessage) (o : Options)
  : list (string * JsVal) :=
  [("model", JStr model); ("messages", JArr (map message_object messages));
   ("stream", JBool true); ("temperature", temperature o)]
  ++ (if truthy (maxTokens o) then [("max_tokens", maxTokens o)] else [])
  ++ (if not_null (topP o) then [("top_p", topP o)] else [])
  ++ (if not_null (frequencyPenalty o) then [("frequency_penalty", frequencyPenalty o)] else [])
  ++ (if not_null (presencePenalty o) then [("presence_penalty", presencePenalty o)] else [])
  ++ (if truthy (modalities o) && isArray (modalities o)
      then [("modalities", modalities o)] else [])
  ++ (if truthy (reasoning o) then [("reasoning", reasoning o)] else []).

Definition endpoint (baseUrl : string) : string := (baseUrl ++ "/chat/completions")%string.

Definition fetch_call (apiKey baseUrl model : string) (messages : list ApiMessage)
           (o : Options) : FetchCall :=
  {| url := endpoint baseUrl;
     headers := [("Content-Type", "application/json");
                 ("Authorization", ("Bearer " ++ apiKey)%string)];
     body := JObj (requestBody model messages o) |}.

End OpenAI.

(** ** Anthropic adapter *)
Module Anthropic.

Record Options := {
  temperature : JsVal;
  maxTokens : JsVal;
  topP : JsVal;
  topK : JsVal
}.

Definition defaults : Options :=
  {| temperature := number "1"; maxTokens := number "8192"; topP := JNull; topK := JNull |}.

(** The body of [for (const msg of messages)], on the pair
    [(systemMessage, anthropicMessages)]. *)
Definition convert_step (acc : JsVal * list ApiMessage) (msg : ApiMessage)
  : JsVal * list ApiMessage :=
  if is_system msg then (content msg, snd acc)
  else (fst acc, snd acc ++ [ {| role := role msg; content := content msg |} ]).

(** The loop, from [systemMessage = null] and [anthropicMessages = []]. *)
Definition convert (messages : list ApiMessage) : JsVal * list ApiMessage :=
  fold_left convert_step messages (JNull, []).

Definition requestBody (model : string) (messages : list ApiMessage) (o : Options)
  : list (string * JsVal) :=
  let systemMessage := fst (convert messages) in
  let anthropicMessages := snd (convert messages) in
  [("model", JStr model); ("max_tokens", maxTokens o);
   ("messages", JArr (map message_object anthropicMessages));
   ("stream", JBool true); ("temperature", temperature o)]
  ++ (if not_null (topP o) then [("top_p", topP o)] else [])
  ++ (if not_null (topK o) then [("top_k", topK o)] else [])
  ++ (if truthy systemMessage then [("system", systemMessage)] else []).

Definition fetch_call (apiKey model : string) (messages : list ApiMessage) (o : Options)
  : FetchCall :=
  {| url := "https://api.anthropic.com/v1/messages";
     headers := [("Content-Type", "application/json"); ("x-api-key", apiKey);
                 ("anthropic-version", "2023-06-01")];
     body := JObj (requestBody model messages o) |}.

End Anthropic.

(** ** Gemini adapter *)
Module Gemini.

Record Options := {
  temperature : JsVal;
  maxTokens : JsVal;
  topP : JsVal;
  topK : JsVal
}.

Definition defaults : Options :=
  {| temperature := number "0.7"; maxTokens := number "8192"; topP := JNull; topK := JNull |}.

(** An element of [contents]: [{ role, parts: [{ text }] }]. *)
Record Content := { content_role : string; text : JsVal }.

Definition content_object (c : Content) : JsVal :=
  JObj [("role", JStr (content_role c)); ("parts", JArr [JObj [("text", text c)]])].

(** [messages.filter(m => m.role !== 'system').map(m => ...)] *)
Definition converted (messages : list ApiMessage) : list Content :=
  map (fun m => {| content_role := if is_string (role m) "assistant" then "model" else "user";
                   text := content m |})
      (filter (fun m => negb (is_system m)) messages).

Definition separator : string := String newline (String newline EmptyString).

(** [contents], after the system message has been put in front of the
    text of the first element when that element is a user message. *)
Definition contents (messages : list ApiMessage) : list Content :=
  match find is_system messages, converted messages with
  | Some systemMessage, first :: rest =>
      if String.eqb (content_role first) "user"
      then {| content_role := content_role first;
              text := JStr (ToString (content systemMessage) ++ separator
                            ++ ToString (text first)) |} :: rest
      else first :: rest
  | _, other => other
  end.

Definition generationConfig (o : Options) : list (string * JsVal) :=
  [("temperature", temperature o); ("maxOutputTokens", maxTokens o)]
  ++ (if not_null (topP o) then [("topP", topP o)] else [])
  ++ (if not_null (topK o) then [("topK", topK o)] else []).

Definition requestBody (messages : list ApiMessage) (o : Options) : list (string * JsVal) :=
  [("contents", JArr (map content_object (contents messages)));
   ("generationConfig", JObj (generationConfig o))].

(** [model.startsWith('models/') ? model : `models/${model}`] *)
Definition modelName (model : string) : string :=
  if startsWith model "models/" then model else ("models/" ++ model)%string.

Definition fetch_call (apiKey model : string) (messages : list ApiMessage) (o : Options)
  : FetchCall :=
  {| url := ("https://generativelanguage.googleapis.com/v1beta/" ++ modelName model
             ++ ":streamGenerateContent?key=" ++ apiKey ++ "&alt=sse")%string;
     headers := [("Content-Type", "application/json")];
     body := JObj (requestBody messages o) |}.

End Gemini.

End Requests.

(* ===================================================================== *)
(** * Message formatting (utils/messageFormatters.js) *)
(* ===================================================================== *)

Module MessageFormatters.
Import Text Js Requests.

(** [x.toFixed(1)] for the quotient [x = n / d] of two whole numbers:
    the number of tenths nearest to [x], the larger one in a tie. *)
Definition toFixed1 (n d : N) : string :=
  let tenths := ((20 * n + d) / (2 * d))%N in
  (decimal (tenths / 10) ++ "." ++ decimal (tenths mod 10))%string.

(** [formatFileSize(bytes)], for a whole number of bytes (below 2^53,
    where the division by a power of two is exact). *)
Definition formatFileSize (bytes : N) : string :=
  if N.ltb bytes 1024 then (decimal bytes ++ " B")%string
  else if N.ltb bytes (1024 * 1024) then (toFixed1 bytes 1024 ++ " KB")%string
  else (toFixed1 bytes (1024 * 1024) ++ " MB")%string.

Record Attachment := {
  isImage : bool;
  data : string;
  attachment_name : string;
  attachment_type : string;
  size : N
}.

(** A message of the conversation, as stored. *)
Record StoredMessage := {
  stored_role : JsVal;
  stored_content : string;
  attachments : option (list Attachment)
}.

(** The part pushed for one attachment. *)
Definition attachment_part (attachment : Attachment) : JsVal :=
  if isImage attachment then
    JObj [("type", JStr "image_url");
          ("image_url", JObj [("url", JStr (data attachment)); ("detail", JStr "auto")])]
  else
    JObj [("type", JStr "text");
          ("text", JStr ("[Attached file: " ++ attachment_name attachment ++ " ("
                         ++ attachment_type attachment ++ ", "
                         ++ formatFileSize (size attachment) ++ ")]"))].

(** [formatMessageForAPI(message, attachments)] *)
Definition formatMessageForAPI (message_role : JsVal) (message_content : string)
           (atts : list Attachment) : ApiMessage :=
  match atts with
  | [] => {| role := or_else message_role (JStr "user"); content := JStr message_content |}
  | _ =>
      let contentParts :=
        (if negb (is_empty message_content) && negb (is_empty (trim message_content))
         then [JObj [("type", JStr "text"); ("text", JStr message_content)]] else [])
        ++ map attachment_part atts in
      {| role := or_else message_role (JStr "user"); content := JArr contentParts |}
  end.

(** [formatMessagesForAPI(messages)] *)
Definition formatMessagesForAPI (messages : list StoredMessage) : list ApiMessage :=
  map (fun m =>
         match attachments m with
         | Some (x :: rest) => formatMessageForAPI (stored_role m) (stored_content m) (x :: rest)
         | _ => {| role := stored_role m; content := JStr (stored_content m) |}
         end) messages.

End MessageFormatters.

(* ===================================================================== *)
(** * Model capabilities (utils/modelHelpers.js) *)
(* ===================================================================== *)

(** The revision that reads the capabilities of a model in the list of
    models fetched from the provider. *)

Module ModelHelpers.
Import Text Js.

(** The fields of a fetched model that the helpers read. *)
Record ModelData := {
  id : string;
  supportsReasoning : bool;
  outputModalities : option (list string)
}.

(** [availableModels.find(m => m.id === modelId)] *)
Definition modelData (modelId : string) (availableModels : list ModelData) : option ModelData :=
  find (fun m => String.eqb (id m) modelId) availableModels.

(** [modelData?.outputModalities?.includes('image')] *)
Definition outputs_image (found : option ModelData) : bool :=
  match found with
  | Some m => match outputModalities m with
              | Some l => existsb (String.eqb "image") l
              | None => false
              end
  | None => false
  end.

Definition isThinkingModel (modelId : string) (availableModels : list ModelData) : bool :=
  if is_empty modelId then false
  else match modelData modelId availableModels with
       | Some m => supportsReasoning m
       | None => false
       end.

Definition isImageGenerationModel (modelId : string) (availableModels : list ModelData) : bool :=
  if is_empty modelId then false
  else outputs_image (modelData modelId availableModels).

Definition getModalitiesForModel (modelId : string) (availableModels : list ModelData)
  : option (list string) :=
  if outputs_image (modelData modelId availableModels) then Some ["image"; "text"] else None.

(** [isThinkingModel(modelId) ? { effort: 'high' } : null]: the list of
    models is not passed, and defaults to the empty list. *)
Definition getReasoningConfig (modelId : string) : option JsVal :=
  if isThinkingModel modelId [] then Some (JObj [("effort", JStr "high")]) else None.

End ModelHelpers.

(* ===================================================================== *)
(** * Error classification (utils/errorHandlers.js) *)
(* ===================================================================== *)

Module ErrorHandlers.
Import Text Js.

Inductive ErrorType := RATE_LIMIT | INVALID_API_KEY | MISSING_API_KEY | NETWORK | OTHER.

(** [String(error)] for an Error object. *)
Definition error_to_string (error : JsError) : string :=
  if is_empty (err_name error) then err_message error
  else if is_empty (err_message error) then err_name error
  else (err_name error ++ ": " ++ err_message error)%string.

Definition detectErrorType (error : JsError) : ErrorType :=
  let message := if is_empty (err_message error) then error_to_string error
                 else err_message error in
  if includes message "429" || includes (toLowerCase message) "rate limit" then RATE_LIMIT
  else if includes message "401" || includes (toLowerCase message) "invalid api key"
       then INVALID_API_KEY
  else if includes (toLowerCase message) "api key not configured" then MISSING_API_KEY
  else OTHER.

(** The alert raised; the handlers that open the settings take as last
    argument the action that opens them. *)
Inductive Alert :=
| showFetchErrorAlert (providerName message : string)
| showInvalidApiKeyAlert (providerName message : string)
| showMissingApiKeyAlert (providerName : string).

Definition handleStreamingError (error : JsError) (providerName : string) : Alert :=
  match detectErrorType error with
  | RATE_LIMIT =>
      showFetchErrorAlert providerName "Rate limit exceeded. Please wait a moment and try again."
  | INVALID_API_KEY => showInvalidApiKeyAlert providerName (err_message error)
  | MISSING_API_KEY => showMissingApiKeyAlert providerName
  | _ => showFetchErrorAlert providerName (err_message error)
  end.

End ErrorHandlers.

(* ===================================================================== *)
(** * A reference engine for concrete runs *)
(* ===================================================================== *)

(** The theorems hold for every [Engine].  Concrete runs need one: this
  [JSON.parse] reads objects, arrays, strings (with the escapes
  backslash-quote, backslash-backslash, backslash-slash, and the letters
  b f n r t), integer literals up to 2^53 and the three literals; it
  answers [None] on anything else. *)
Module Reference.
Import Text Js.

Definition is_ws (c : ascii) : bool :=
  let n := nat_of_ascii c in
  Nat.eqb n 32 || Nat.eqb n 9 || Nat.eqb n 10 || Nat.eqb n 13.

Fixpoint skip_ws (s : list ascii) : list ascii :=
  match s with
  | c :: rest => if is_ws c then skip_ws rest else s
  | [] => []
  end.

Definition digit (c : ascii) : option N :=
  let n := nat_of_ascii c in
  if Nat.leb 48 n && Nat.leb n 57 then Some (N.of_nat (n - 48)) else None.

Fixpoint parse_digits (acc : N) (s : list ascii) : N * list ascii :=
  match s with
  | c :: rest =>
      match digit c with
      | Some d => parse_digits (acc * 10 + d)%N rest
      | None => (acc, s)
      end
  | [] => (acc, [])
  end.

Definition integer (negative : bool) (n : N) : JsVal :=
  JNum {| num_positive := negb negative && negb (N.eqb n 0);
          num_truthy := negb (N.eqb n 0);
          num_text := ((if negative && negb (N.eqb n 0) then "-" else "") ++ decimal n)%string |}.

(** An integer literal: no leading zero, no fraction, no exponent. *)
Definition parse_number (s : list ascii) : option (JsVal * list ascii) :=
  let '(negative, s1) := match s with
                         | "-"%char :: r => (true, r)
                         | _ => (false, s)
                         end in
  match s1 with
  | c :: r =>
      match digit c with
      | None => None
      | Some d =>
          let '(n, rest) := if N.eqb d 0 then (0%N, r) else parse_digits d r in
          match rest with
          | "."%char :: _ | "e"%char :: _ | "E"%char :: _ => None
          | _ => if N.leb n 9007199254740992 then Some (integer negative n, rest) else None
          end
      end
  | [] => None
  end.

(** The characters of a string literal after its opening quote. *)
Fixpoint parse_string (s : list ascii) : option (string * list ascii) :=
  match s with
  | [] => None
  | "034"%char :: rest => Some (EmptyString, rest)
  | "\"%char :: e :: rest =>
      let unescaped :=
        if Ascii.eqb e "034" then Some "034"%char
        else if Ascii.eqb e "\" then Some "\"%char
        else if Ascii.eqb e "/" then Some "/"%char
        else if Ascii.eqb e "b" then Some "008"%char
        else if Ascii.eqb e "f" then Some "012"%char
        else if Ascii.eqb e "n" then Some "010"%char
        else if Ascii.eqb e "r" then Some "013"%char
        else if Ascii.eqb e "t" then Some "009"%char
        else None in
      match unescaped, parse_string rest with
      | Some c, Some (str, rest') => Some (String c str, rest')
      | _, _ => None
      end
  | c :: rest =>
      if Nat.ltb (nat_of_ascii c) 32 then None
      else match parse_string rest with
           | Some (str, rest') => Some (String c str, rest')
           | None => None
           end
  end.

(** A later occurrence of a key replaces the earlier one. *)
Fixpoint set_field (k : string) (v : JsVal) (fields : list (string * JsVal))
  : list (string * JsVal) :=
  match fields with
  | [] => [(k, v)]
  | (k', v') :: rest =>
      if String.eqb k' k then (k, v) :: rest else (k', v') :: set_field k v rest
  end.

Definition literal (word : string) (v : JsVal) (s : list ascii) : option (JsVal * list ascii) :=
  let w := list_ascii_of_string word in
  if String.eqb (string_of_list_ascii (firstn (List.length w) s)) word
  then Some (v, skipn (List.length w) s)
  else None.

Fixpoint parse_value (fuel : nat) (s : list ascii) {struct fuel}
  : option (JsVal * list ascii) :=
  match fuel with
  | O => None
  | S fuel' =>
      match skip_ws s with
      | "{"%char :: rest =>
          match skip_ws rest with
          | "}"%char :: rest' => Some (JObj [], rest')
          | _ => match parse_members fuel' [] rest with
                 | Some (fields, rest') => Some (JObj fields, rest')
                 | None => None
                 end
          end
      | "["%char :: rest =>
          match skip_ws rest with
          | "]"%char :: rest' => Some (JArr [], rest')
          | _ => match parse_elements fuel' rest with
                 | Some (items, rest') => Some (JArr items, rest')
                 | None => None
                 end
          end
      | "034"%char :: rest =>
          match parse_string rest with
          | Some (str, rest') => Some (JStr str, rest')
          | None => None
          end
      | "t"%char :: _ => literal "true" (JBool true) (skip_ws s)
      | "f"%char :: _ => literal "false" (JBool false) (skip_ws s)
      | "n"%char :: _ => literal "null" JNull (skip_ws s)
      | other => parse_number other
      end
  end
with parse_elements (fuel : nat) (s : list ascii) {struct fuel}
  : option (list JsVal * list ascii) :=
  match fuel with
  | O => None
  | S fuel' =>
      match parse_value fuel' s with
      | None => None
      | Some (v, rest) =>
          match skip_ws rest with
          | "]"%char :: rest' => Some ([v], rest')
          | ","%char :: rest' =>
              match parse_elements fuel' rest' with
              | Some (vs, rest'') => Some (v :: vs, rest'')
              | None => None
              end
          | _ => None
          end
      end
  end
with parse_members (fuel : nat) (seen : list (string * JsVal)) (s : list ascii) {struct fuel}
  : option (list (string * JsVal) * list ascii) :=
  match fuel with
  | O => None
  | S fuel' =>
      match skip_ws s with
      | "034"%char :: rest =>
          match parse_string rest with
          | None => None
          | Some (key, rest1) =>
              match skip_ws rest1 with
              | ":"%char :: rest2 =>
                  match parse_value fuel' rest2 with
                  | None => None
                  | Some (v, rest3) =>
                      match skip_ws rest3 with
                      | "}"%char :: rest' => Some (set_field key v seen, rest')
                      | ","%char :: rest' => parse_members fuel' (set_field key v seen) rest'
                      | _ => None
                      end
                  end
              | _ => None
              end
          end
      | _ => None
      end
  end.

Definition parse (text : string) : option JsVal :=
  let s := list_ascii_of_string text in
  match parse_value (2 * List.length s + 2) s with
  | Some (v, rest) => match skip_ws rest with [] => Some v | _ => None end
  | None => None
  end.

(** [s > 0] for a string of decimal digits; [false] otherwise. *)
Definition digits_gt_zero (s : string) : bool :=
  let l := list_ascii_of_string s in
  match l with
  | [] => false
  | _ => forallb (fun c => match digit c with Some _ => true | None => false end) l
         && existsb (fun c => match digit c with Some d => negb (N.eqb d 0) | None => false end) l
  end.

#[export] Instance engine : Engine :=
  {| JSON_parse := parse; string_gt_zero := digits_gt_zero |}.

End Reference.


(* ===================================================================== *)
(** * Synthetic streams *)
(* ===================================================================== *)

(** The frames of the streams the properties are stated on, per provider,
    with the payload shapes of the protocol descriptions. *)
Module Frames.
Import Text Js Session Controller Decoder.

(** A delta of the stream: reasoning text or content text. *)
Inductive Frame :=
| Reasoning (text : string)
| Content (text : string).

Definition openai_delta (delta : JsVal) : JsVal :=
  JObj [("choices", JArr [JObj [("delta", delta)]])].

Definition gemini_part (part : JsVal) : JsVal :=
  JObj [("candidates", JArr [JObj [("content", JObj [("parts", JArr [part])])]])].

Definition anthropic_text_delta (text : string) : JsVal :=
  JObj [("type", JStr "content_block_delta");
        ("delta", JObj [("type", JStr "text_delta"); ("text", JStr text)])].

Definition anthropic_block_start (blockType : string) : JsVal :=
  JObj [("type", JStr "content_block_start");
        ("content_block", JObj [("type", JStr blockType)])].

Definition anthropic_block_stop : JsVal :=
  JObj [("type", JStr "content_block_stop")].

Definition anthropic_error (message : string) : JsVal :=
  JObj [("type", JStr "error"); ("error", JObj [("message", JStr message)])].

Definition gemini_error (message : string) : JsVal :=
  JObj [("error", JObj [("message", JStr message)])].

(** A frame carrying one content delta. *)
Definition content_frame (p : ProviderKind) (text : string) : JsVal :=
  match p with
  | OpenAICompatible => openai_delta (JObj [("content", JStr text)])
  | AnthropicKind => anthropic_text_delta text
  | GeminiKind => gemini_part (JObj [("text", JStr text)])
  end.

(** A frame carrying one reasoning delta (for Anthropic, a text delta; it
    is reasoning when it arrives inside a thinking block). *)
Definition reasoning_frame (p : ProviderKind) (text : string) : JsVal :=
  match p with
  | OpenAICompatible => openai_delta (JObj [("reasoning", JStr text)])
  | AnthropicKind => anthropic_text_delta text
  | GeminiKind => gemini_part (JObj [("thought", JStr text)])
  end.

(** The frame that ends a stream. *)
Definition finish_frame (p : ProviderKind) : JsVal :=
  match p with
  | OpenAICompatible =>
      JObj [("choices", JArr [JObj [("delta", JObj []); ("finish_reason", JStr "stop")]])]
  | AnthropicKind => JObj [("type", JStr "message_stop")]
  | GeminiKind => JObj [("candidates", JArr [JObj [("finishReason", JStr "STOP")]])]
  end.

Definition encode (p : ProviderKind) (f : Frame) : JsVal :=
  match f with
  | Reasoning text => reasoning_frame p text
  | Content text => content_frame p text
  end.

Definition block_type (f : Frame) : string :=
  match f with
  | Reasoning _ => "thinking"
  | Content _ => "text"
  end.

(** An Anthropic stream carries its deltas inside content blocks: a block
    is opened before the first delta of a run of deltas of one kind and
    stopped after the last; [open] is the type of the block left open. *)
Fixpoint anthropic_stream (open : option string) (frames : list Frame) : list JsVal :=
  match frames with
  | [] => match open with Some _ => [anthropic_block_stop] | None => [] end
  | f :: rest =>
      let delta := encode AnthropicKind f :: anthropic_stream (Some (block_type f)) rest in
      match open with
      | Some blockType =>
          if String.eqb blockType (block_type f) then delta
          else anthropic_block_stop :: anthropic_block_start (block_type f) :: delta
      | None => anthropic_block_start (block_type f) :: delta
      end
  end.

(** The frames of a stream that carries the given deltas. *)
Definition encode_stream (p : ProviderKind) (frames : list Frame) : list JsVal :=
  match p with
  | AnthropicKind => anthropic_stream None frames
  | _ => map (encode p) frames
  end.

Section Decoding.
Context `{Engine}.

(** The parsed frame that the adapter of [p] handles for a line, if any:
    the line must carry a [data: ] payload, other than the end marker of
    the OpenAI protocol, that [JSON.parse] accepts. *)
Definition frame_of (p : ProviderKind) (line : string) : option JsVal :=
  match data_payload line with
  | None => None
  | Some data =>
      match p with
      | OpenAICompatible => if String.eqb data "[DONE]" then None else JSON_parse data
      | _ => JSON_parse data
      end
  end.

Definition frames_of (p : ProviderKind) (lines : list string) : list JsVal :=
  flat_map (fun line => match frame_of p line with Some j => [j] | None => [] end) lines.

(** The frames handled during a session whose transport delivers
    [chunks]. *)
Definition stream_frames (p : ProviderKind) (chunks : list string) : list JsVal :=
  frames_of p (fst (feed EmptyString chunks)).

(** The handling of a parsed frame by the adapter of [p]. *)
Definition handle (p : ProviderKind) (cb : Callbacks) (parsed : JsVal) : State -> Signal * State :=
  try_frame (match p with
             | OpenAICompatible => OpenAI.handle_frame cb parsed
             | AnthropicKind => Anthropic.handle_frame cb parsed
             | GeminiKind => Gemini.handle_frame cb parsed
             end).

End Decoding.

(** The [onChunk] invocations for a run of content deltas arriving when
    the content buffer holds [acc]. *)
Fixpoint chunk_calls (acc : string) (texts : list string) : list Event :=
  match texts with
  | [] => []
  | text :: rest =>
      OnChunk (JStr text) (acc ++ text) :: chunk_calls (acc ++ text)%string rest
  end.

(** A transport that answers 200 and delivers the given chunks, then
    what [after] says (nothing: the stream ends). *)
Definition streaming (chunks : list string) (after : list Step) : Fetch :=
  FetchResolves {| status := 200; statusText := "OK"; retry_after := None;
                   json := None; body := Some (map ReadChunk chunks ++ after) |}.

(** A request that passes the validation. *)
Definition valid (a : Adapter) (req : Request) : Prop :=
  is_empty (apiKey req) = false /\ is_empty (model req) = false /\ messages req <> []
  /\ (checks_baseUrl a = true -> is_empty (baseUrl req) = false).

(** Which events are of which callback. *)
Definition is_complete (e : Event) : bool :=
  match e with OnComplete _ => true | _ => false end.
Definition is_error (e : Event) : bool :=
  match e with OnError _ => true | _ => false end.
Definition is_chunk (e : Event) : bool :=
  match e with OnChunk _ _ => true | _ => false end.
Definition is_reasoning_chunk (e : Event) : bool :=
  match e with OnReasoningChunk _ _ => true | _ => false end.
Definition is_reasoning_complete (e : Event) : bool :=
  match e with OnReasoningComplete => true | _ => false end.

(** The number of invocations of one callback in a trace. *)
Definition count (which : Event -> bool) (trace : list Event) : nat :=
  List.length (filter which trace).

(** Text with single quotes standing for double quotes, to write JSON
    payloads. *)
Fixpoint dq (s : string) : string :=
  match s with
  | EmptyString => EmptyString
  | String c rest => String (if Ascii.eqb c "'"%char then "034"%char else c) (dq rest)
  end.

(** A line of an SSE stream: the text and its newline. *)
Definition line (s : string) : string := (dq s ++ String newline EmptyString)%string.

End Frames.

(* ===================================================================== *)
(** * Concrete sessions *)
(* ===================================================================== *)

(** Inputs of the concrete runs: a request that passes the validation,
    the callbacks, and streams written as the providers send them. *)
Module Examples.
Import Text Js Session Controller Decoder Frames.

Definition request : Request :=
  {| apiKey := "sk-test"; baseUrl := "https://api.example.com/v1"; model := "model-1";
     messages := [ {| role := "user"; content := "Hi" |} ] |}.

Definition all_callbacks : Callbacks :=
  {| onReasoningChunk := true; onReasoningComplete := true |}.

Definition no_reasoning_callbacks : Callbacks :=
  {| onReasoningChunk := false; onReasoningComplete := false |}.

(** The OpenAI-compatible scenario of the specification, cut in the
    middle of its second frame. *)
Definition hi_there : list string :=
  [ (line "data: {'choices':[{'delta':{'content':'Hi'}}]}" ++ line ""
     ++ dq "data: {'choices':[{'del")%string;
    (line "ta':{'content':' there'}}]}" ++ line ""
     ++ line "data: [DONE]" ++ line "")%string ].

(** Two content frames around a payload that is not JSON, in a stream
    framed as the providers send it: an empty line after each event, the
    finish frame and the end marker, cut into chunks in the middle of
    lines. *)
Definition corrupt_line_framed : list string :=
  [ (line "data: {'choices':[{'delta':{'content':'Hi'}}]}" ++ line ""
     ++ dq "data: {'choices':[{'del")%string;
    (line "ta':" ++ line ""
     ++ line "data: {'choices':[{'delta':{'content':' there'}}]}" ++ line ""
     ++ dq "data: {'choices':[{'delta':{},'finish_")%string;
    (line "reason':'stop'}]}" ++ line ""
     ++ line "data: [DONE]" ++ line "")%string ].

(** A line after the end marker. *)
Definition late_frame : list string :=
  [ (line "data: [DONE]"
     ++ line "data: {'choices':[{'delta':{'content':'late'}}]}")%string ].

Definition done_only : list string := [ line "data: [DONE]" ].


(** Reasoning, then an image, then content. *)
Definition reasoning_image_content : list string :=
  [ line "data: {'choices':[{'delta':{'reasoning':'Let me think'}}]}";
    line "data: {'choices':[{'delta':{'images':[{'image_url':{'url':'https://example.com/cat.png'}}]}}]}";
    line "data: {'choices':[{'delta':{'content':'Answer'}}]}";
    line "data: [DONE]" ].

(** Reasoning, then content. *)
Definition reasoning_first : list string :=
  [ line "data: {'choices':[{'delta':{'reasoning':'Let me think'}}]}";
    line "data: {'choices':[{'delta':{'content':'Answer'}}]}";
    line "data: [DONE]" ].

(** One reasoning frame, after which the session is cancelled. *)
Definition reasoning_only : list string :=
  [ line "data: {'choices':[{'delta':{'reasoning':'Let me think'}}]}" ].

(** The Anthropic thinking scenario of the specification. *)
Definition anthropic_thinking : list string :=
  [ line "event: content_block_start";
    line "data: {'type':'content_block_start','content_block':{'type':'thinking'}}";
    line "data: {'type':'content_block_delta','delta':{'type':'text_delta','text':'Let me think'}}";
    line "data: {'type':'content_block_stop'}";
    line "data: {'type':'content_block_start','content_block':{'type':'text'}}";
    line "data: {'type':'content_block_delta','delta':{'type':'text_delta','text':'Answer'}}";
    line "data: {'type':'content_block_stop'}";
    line "data: {'type':'message_stop'}" ].

(** A finish frame followed by a content frame, in one chunk and in two. *)
Definition after_finish_one_chunk : list string :=
  [ (line "data: {'choices':[{'delta':{},'finish_reason':'stop'}]}"
     ++ line "data: {'choices':[{'delta':{'content':'more'}}]}")%string ].

Definition after_finish_two_chunks : list string :=
  [ line "data: {'choices':[{'delta':{},'finish_reason':'stop'}]}";
    line "data: {'choices':[{'delta':{'content':'more'}}]}" ].

(** A Gemini stream that reports an error in band. *)
Definition gemini_error_stream : list string :=
  [ line "data: {'error':{'message':'quota exceeded'}}" ].

(** An Anthropic stream that reports an error in band. *)
Definition anthropic_error_stream : list string :=
  [ line "data: {'type':'error','error':{'message':'Overloaded'}}" ].

(** A Gemini stream with a thought part, then a text part. *)
Definition gemini_thought_stream : list string :=
  [ line "data: {'candidates':[{'content':{'parts':[{'thought':'Let me think'}]}}]}";
    line "data: {'candidates':[{'content':{'parts':[{'text':'Answer'}]}}]}" ].

End Examples.

(* ===================================================================== *)
(** * Properties of the frame decoder *)
(* ===================================================================== *)

Module DecoderFacts.
Import Text Decoder.

Lemma split_newline_nonempty s : split_newline s <> [].
Proof.
  destruct s as [|c s]; simpl; [discriminate|].
  destruct (Ascii.eqb c newline); [discriminate|].
  destruct (split_newline s); discriminate.
Qed.

(** Splitting a concatenation: the complete lines of the first part, then
    the split of its trailing fragment followed by the second part. *)
Lemma split_newline_app a b :
  split_newline (a ++ b) =
  removelast (split_newline a) ++ split_newline (last (split_newline a) EmptyString ++ b).
Proof.
  induction a as [|c a IH]; simpl; [reflexivity|].
  destruct (Ascii.eqb c newline) eqn:Hc.
  - rewrite IH.
    pose proof (split_newline_nonempty a) as Hne.
    destruct (split_newline a) as [|x xs]; [congruence|]. reflexivity.
  - rewrite IH.
    pose proof (split_newline_nonempty a) as Hne.
    destruct (split_newline a) as [|x xs]; [congruence|].
    destruct xs as [|y ys]; simpl.
    + rewrite Hc. reflexivity.
    + reflexivity.
Qed.

Lemma removelast_app_nonempty (A : Type) (l l' : list A) :
  l' <> [] -> removelast (l ++ l') = l ++ removelast l'.
Proof. intros H. apply removelast_app. exact H. Qed.

Lemma last_app_nonempty (A : Type) (l l' : list A) d :
  l' <> [] -> last (l ++ l') d = last l' d.
Proof.
  intros H. induction l as [|x l IH]; simpl; [reflexivity|].
  destruct (l ++ l') eqn:E.
  - destruct l; simpl in E; [contradiction | discriminate].
  - exact IH.
Qed.

Lemma string_app_assoc (a b c : string) : ((a ++ b) ++ c)%string = (a ++ (b ++ c))%string.
Proof. induction a; simpl; congruence. Qed.

Lemma string_app_nil_r (a : string) : (a ++ "")%string = a.
Proof. induction a; simpl; congruence. Qed.

(** The fragment kept in the buffer contains no newline. *)
Lemma split_newline_last t :
  split_newline (last (split_newline t) EmptyString) = [last (split_newline t) EmptyString].
Proof.
  induction t as [|c t IH]; simpl; [reflexivity|].
  pose proof (split_newline_nonempty t) as Hne.
  destruct (Ascii.eqb c newline) eqn:Hc.
  - destruct (split_newline t) as [|x xs]; [congruence|]. exact IH.
  - destruct (split_newline t) as [|x xs]; [congruence|].
    destruct xs as [|y ys]; [|exact IH].
    simpl in *. rewrite Hc, IH. reflexivity.
Qed.

Lemma concat_cons v rest :
  String.concat EmptyString (v :: rest) = (v ++ String.concat EmptyString rest)%string.
Proof. destruct rest; simpl; [now rewrite string_app_nil_r | reflexivity]. Qed.

(** Feeding chunks from a buffer [b] that holds a fragment is decoding
    the text [b ++ chunks] in one piece. *)
Lemma feed_from_buffer chunks : forall b,
  split_newline b = [b] ->
  feed b chunks = decode_chunk EmptyString (b ++ String.concat EmptyString chunks).
Proof.
  induction chunks as [|v rest IH]; intros b Hb.
  - simpl. unfold decode_chunk. simpl. rewrite string_app_nil_r, Hb. reflexivity.
  - simpl feed. unfold decode_chunk at 1.
    rewrite (IH _ (split_newline_last (b ++ v))).
    rewrite concat_cons, <- (string_app_assoc b v).
    unfold decode_chunk. simpl.
    rewrite (split_newline_app (b ++ v)).
    rewrite removelast_app_nonempty by apply split_newline_nonempty.
    rewrite last_app_nonempty by apply split_newline_nonempty.
    reflexivity.
Qed.

(** The decoder's output for a list of chunks is its output for their
    concatenation. *)
Lemma feed_concat chunks :
  feed EmptyString chunks = decode_chunk EmptyString (String.concat EmptyString chunks).
Proof. apply feed_from_buffer. reflexivity. Qed.

(** C8. Chunk-boundary invariance of the frame decoder: however the text
    of a stream is cut into chunks, feeding the chunks one after the other
    through the buffer-and-split loop gives the same complete lines, in
    the same order, and leaves the same fragment in the buffer, as feeding
    the whole text as one chunk; hence the same data payloads. *)
Theorem C8_chunk_boundary_invariance (chunks : list string) :
  feed EmptyString chunks = feed EmptyString [String.concat EmptyString chunks]
  /\ payloads (fst (feed EmptyString chunks))
     = payloads (fst (feed EmptyString [String.concat EmptyString chunks])).
Proof.
  assert (E : feed EmptyString chunks
              = feed EmptyString [String.concat EmptyString chunks]).
  { rewrite feed_concat. cbn [feed].
    destruct (decode_chunk EmptyString (String.concat EmptyString chunks)) as [lines b].
    rewrite app_nil_r. reflexivity. }
  split; [exact E | rewrite E; reflexivity].
Qed.

End DecoderFacts.

(* ===================================================================== *)
(** * Terminal callbacks *)
(* ===================================================================== *)

Module Terminal.
Import Text Js Session Controller Decoder Frames.
Open Scope js_scope.

(** The state after a step has the completion flag and the numbers of
    [onComplete] and [onError] invocations of the state before. *)
Definition same_terminals (st st' : State) : Prop :=
  completeCalled st' = completeCalled st
  /\ count is_complete (calls st') = count is_complete (calls st)
  /\ count is_error (calls st') = count is_error (calls st).

(** A computation that invokes no terminal callback. *)
Definition quiet {A} (m : M A) : Prop :=
  forall st, same_terminals st (snd (m st)).

(** A computation whose only terminal callback is one [onError], invoked
    exactly when it asks to return from the function. *)
Definition returns_on_error (A : Type) (is_return : A -> bool) (r : A + JsError) : nat :=
  match r with
  | inl a => if is_return a then 1 else 0
  | inr _ => 0
  end.

Definition errors_once {A} (is_return : A -> bool) (m : M A) : Prop :=
  forall st,
    completeCalled (snd (m st)) = completeCalled st
    /\ count is_complete (calls (snd (m st))) = count is_complete (calls st)
    /\ count is_error (calls (snd (m st)))
       = count is_error (calls st) + returns_on_error is_return (fst (m st)).

Definition is_Return (sg : Signal) : bool :=
  match sg with Return => true | _ => false end.

Definition is_Returned (x : LoopExit) : bool :=
  match x with Returned => true | Finished => false end.

Definition line_ok (f : State -> Signal * State) : Prop :=
  forall st,
    completeCalled (snd (f st)) = completeCalled st
    /\ count is_complete (calls (snd (f st))) = count is_complete (calls st)
    /\ count is_error (calls (snd (f st)))
       = count is_error (calls st) + (if is_Return (fst (f st)) then 1 else 0).

Lemma count_app which l l' : count which (l ++ l') = count which l + count which l'.
Proof. unfold count. rewrite filter_app, length_app. reflexivity. Qed.

Lemma same_terminals_refl st : same_terminals st st.
Proof. repeat split. Qed.

Lemma same_terminals_trans st1 st2 st3 :
  same_terminals st1 st2 -> same_terminals st2 st3 -> same_terminals st1 st3.
Proof. unfold same_terminals. intuition congruence. Qed.

Lemma quiet_ret A (a : A) : quiet (ret a).
Proof. intros st. apply same_terminals_refl. Qed.

Lemma quiet_throw A e : quiet (@throw A e).
Proof. intros st. apply same_terminals_refl. Qed.

Lemma quiet_lift A (r : A + JsError) : quiet (lift r).
Proof. intros st. apply same_terminals_refl. Qed.

Lemma quiet_get A (f : State -> A) : quiet (get f).
Proof. intros st. apply same_terminals_refl. Qed.

Lemma quiet_bind A B (m : M A) (k : A -> M B) :
  quiet m -> (forall a, quiet (k a)) -> quiet (bind m k).
Proof.
  intros Hm Hk st. unfold bind. specialize (Hm st).
  destruct (m st) as [[a|e] st1]; simpl in *; [|exact Hm].
  eapply same_terminals_trans; [exact Hm | apply Hk].
Qed.

Lemma quiet_when b m : quiet m -> quiet (when b m).
Proof. intros Hm. destruct b; simpl; [exact Hm | apply quiet_ret]. Qed.

Lemma quiet_for_each A (l : list A) body :
  (forall x, quiet (body x)) -> quiet (for_each l body).
Proof.
  intros Hb. induction l as [|x l IH]; simpl; [apply quiet_ret|].
  apply quiet_bind; [apply Hb | intros _; exact IH].
Qed.

Lemma count_single which e : count which [e] = if which e then 1 else 0.
Proof. unfold count. simpl. destruct (which e); reflexivity. Qed.

Lemma quiet_call e : is_complete e = false -> is_error e = false -> quiet (call e).
Proof.
  intros Hc He st. unfold same_terminals. simpl.
  rewrite !count_app, !count_single, Hc, He. repeat split; lia.
Qed.

Lemma quiet_append_content v : quiet (append_content v).
Proof. intros st. repeat split. Qed.

Lemma quiet_append_reasoning v : quiet (append_reasoning v).
Proof. intros st. repeat split. Qed.

Lemma quiet_set_reasoningDone b : quiet (set_reasoningDone b).
Proof. intros st. repeat split. Qed.

Lemma quiet_set_currentBlockType v : quiet (set_currentBlockType v).
Proof. intros st. repeat split. Qed.

(** Applies the rules above along the structure of a computation. *)
Ltac quiet_steps :=
  repeat first
    [ apply quiet_bind; [| intros ?]
    | apply quiet_ret | apply quiet_throw | apply quiet_lift | apply quiet_get
    | apply quiet_when | apply quiet_for_each; intros ?
    | apply quiet_call; reflexivity
    | apply quiet_append_content | apply quiet_append_reasoning
    | apply quiet_set_reasoningDone | apply quiet_set_currentBlockType
    | match goal with
      | |- quiet (if ?b then _ else _) => destruct b
      | |- quiet (match ?x with _ => _ end) => destruct x
      end ].

Lemma quiet_deliver_content v : quiet (deliver_content v).
Proof. unfold deliver_content. quiet_steps. Qed.

Lemma quiet_deliver_reasoning v : quiet (deliver_reasoning v).
Proof. unfold deliver_reasoning. quiet_steps. Qed.

Lemma quiet_close_reasoning cb : quiet (close_reasoning cb).
Proof. unfold close_reasoning. quiet_steps. Qed.

Lemma errors_once_bind A B (is_return : B -> bool) (m : M A) (k : A -> M B) :
  quiet m -> (forall a, errors_once is_return (k a)) -> errors_once is_return (bind m k).
Proof.
  intros Hm Hk st. unfold bind. destruct (Hm st) as (H1 & H2 & H3).
  destruct (m st) as [[a|e] st1]; simpl in *.
  - destruct (Hk a st1) as (K1 & K2 & K3). repeat split; congruence.
  - repeat split; try assumption. lia.
Qed.

Lemma errors_once_ret A (is_return : A -> bool) a :
  is_return a = false -> errors_once is_return (ret a).
Proof. intros Ha st. simpl. rewrite Ha. repeat split. lia. Qed.

Lemma errors_once_throw A (is_return : A -> bool) e : errors_once is_return (@throw A e).
Proof. intros st. simpl. repeat split. lia. Qed.

Lemma errors_once_report message :
  errors_once is_Return (call (OnError message) ;; ret Return).
Proof.
  intros st. unfold bind, call, ret. simpl.
  rewrite !count_app, !count_single. simpl. repeat split; lia.
Qed.

Ltac frame_steps :=
  repeat first
    [ apply errors_once_report
    | apply errors_once_ret; reflexivity
    | apply errors_once_throw
    | apply errors_once_bind; [| intros ?]
    | match goal with
      | |- errors_once _ (if ?b then _ else _) => destruct b
      | |- errors_once _ (match ?x with _ => _ end) => destruct x
      end ].

Lemma line_ok_skip : line_ok (fun st => (Next, st)).
Proof. intros st. simpl. repeat split. lia. Qed.

Lemma line_ok_try_frame m : errors_once is_Return m -> line_ok (try_frame m).
Proof.
  intros Hm st. unfold try_frame. destruct (Hm st) as (H1 & H2 & H3).
  destruct (m st) as [[sg|e] st1]; simpl in *; repeat split; assumption.
Qed.

Section AdapterLines.
Context `{Engine}.

Lemma quiet_reasoning_text delta : quiet (OpenAI.reasoning_text delta).
Proof. unfold OpenAI.reasoning_text. quiet_steps. Qed.

Lemma quiet_content_images content : quiet (OpenAI.content_images content).
Proof. unfold OpenAI.content_images. quiet_steps. Qed.

Lemma quiet_generated_images images : quiet (OpenAI.generated_images images).
Proof. unfold OpenAI.generated_images. quiet_steps. Qed.

Lemma openai_frame_ok cb parsed : errors_once is_Return (OpenAI.handle_frame cb parsed).
Proof.
  unfold OpenAI.handle_frame. frame_steps;
    first [ apply quiet_reasoning_text | apply quiet_content_images
          | apply quiet_generated_images | quiet_steps ].
Qed.

Lemma anthropic_frame_ok cb parsed : errors_once is_Return (Anthropic.handle_frame cb parsed).
Proof.
  unfold Anthropic.handle_frame. frame_steps;
    first [ progress (unfold Anthropic.content_block_delta); quiet_steps
          | progress (unfold Anthropic.content_block_stop); quiet_steps
          | quiet_steps ].
Qed.

Lemma quiet_handle_part cb part : quiet (Gemini.handle_part cb part).
Proof. unfold Gemini.handle_part. quiet_steps. Qed.

Lemma gemini_frame_ok cb parsed : errors_once is_Return (Gemini.handle_frame cb parsed).
Proof.
  unfold Gemini.handle_frame. frame_steps;
    first [ progress (unfold Gemini.handle_candidates); quiet_steps;
            apply quiet_handle_part
          | quiet_steps ].
Qed.

Lemma data_line_shape t :
  startsWith t "data: " = true ->
  is_empty t = false /\ startsWith t ":" = false /\ startsWith t "event: " = false.
Proof.
  unfold startsWith. destruct t as [|c t]; [discriminate|].
  cbn [String.prefix].
  destruct (ascii_dec "d"%char c) as [E|E]; [subst c | discriminate].
  intros _. repeat split.
Qed.

(** The handling of a line is the handling of the frame it carries, and
    a line that carries none is skipped. *)
Lemma process_line_frame p cb line st :
  process_line (adapter_of p) cb line st =
  match frame_of p line with
  | Some parsed => handle p cb parsed st
  | None => (Next, st)
  end.
Proof.
  unfold frame_of, data_payload, handle.
  destruct p; simpl;
    [unfold OpenAI.process_line, OpenAI.parse_and_handle
    |unfold Anthropic.process_line, Anthropic.parse_and_handle
    |unfold Gemini.process_line, Gemini.parse_and_handle];
    destruct (startsWith (trim line) "data: ") eqn:Hd.
  - destruct (data_line_shape _ Hd) as (-> & -> & _). simpl.
    destruct (String.eqb _ "[DONE]"); [reflexivity|].
    destruct (JSON_parse _); reflexivity.
  - destruct (is_empty (trim line) || startsWith (trim line) ":"); reflexivity.
  - destruct (data_line_shape _ Hd) as (-> & -> & ->). simpl.
    destruct (JSON_parse _); reflexivity.
  - destruct (is_empty (trim line) || startsWith (trim line) ":"); [reflexivity|].
    destruct (startsWith (trim line) "event: "); reflexivity.
  - destruct (data_line_shape _ Hd) as (-> & _ & _).
    destruct (JSON_parse _); reflexivity.
  - destruct (is_empty (trim line)); reflexivity.
Qed.

Lemma handle_ok p cb parsed : line_ok (handle p cb parsed).
Proof.
  unfold handle. apply line_ok_try_frame.
  destruct p; [apply openai_frame_ok | apply anthropic_frame_ok | apply gemini_frame_ok].
Qed.

Lemma process_line_ok p cb line : line_ok (process_line (adapter_of p) cb line).
Proof.
  intros st. rewrite process_line_frame.
  destruct (frame_of p line); [apply handle_ok | apply line_ok_skip].
Qed.

End AdapterLines.

End Terminal.

(* ===================================================================== *)
(** * Completion: exactly one terminal callback *)
(* ===================================================================== *)

Module Completion.
Import Text Js Session Controller Decoder Frames Terminal.
Open Scope js_scope.

Section Generic.
Variable a : Adapter.
Variable cb : Callbacks.

(** The events of the abort branch of the [catch] block. *)
Definition abort_calls (st : State) : list Event :=
  (if negb (is_empty (fullReasoning st)) && negb (reasoningDone st)
   then (if onReasoningChunk cb then [OnReasoningChunk (JStr EmptyString) (fullReasoning st)]
         else [])
        ++ (if onReasoningComplete cb then [OnReasoningComplete] else [])
   else [])
  ++ [OnComplete (fullContent st)].

Hypothesis lines_ok : forall line, line_ok (process_line a cb line).

Lemma process_lines_ok lines : forall st,
  completeCalled (snd (process_lines a cb lines st)) = completeCalled st
  /\ count is_complete (calls (snd (process_lines a cb lines st))) = count is_complete (calls st)
  /\ count is_error (calls (snd (process_lines a cb lines st)))
     = count is_error (calls st) + (if fst (process_lines a cb lines st) then 1 else 0).
Proof.
  induction lines as [|l lines IH]; intros st; simpl.
  - repeat split. lia.
  - destruct (lines_ok l st) as (H1 & H2 & H3).
    destruct (process_line a cb l st) as [[| |] st1]; simpl in *.
    + destruct (IH st1) as (K1 & K2 & K3). repeat split; [congruence | congruence | lia].
    + repeat split; [congruence | congruence | lia].
    + repeat split; [congruence | congruence | lia].
Qed.

Lemma read_loop_ok steps : forall buffer,
  errors_once is_Returned (read_loop a cb steps buffer).
Proof.
  induction steps as [|s steps IH]; intros buffer st.
  - simpl. repeat split. lia.
  - destruct s as [value|e|]; simpl.
    + destruct (process_lines_ok (removelast (split_newline (buffer ++ value))) st)
        as (H1 & H2 & H3).
      destruct (process_lines a cb _ st) as [[|] st1]; simpl in *.
      * repeat split; assumption.
      * destruct (IH (last (split_newline (buffer ++ value)) EmptyString) st1)
          as (K1 & K2 & K3).
        repeat split; [congruence | congruence | lia].
    + repeat split. lia.
    + repeat split. lia.
Qed.

(** The completion, when it has not been called yet. *)
Lemma complete_run st :
  completeCalled st = false ->
  fst (complete st) = inl tt
  /\ calls (snd (complete st)) = calls st ++ [OnComplete (fullContent st)]
  /\ completeCalled (snd (complete st)) = true.
Proof.
  intros Hc. unfold complete, bind, get, when. simpl. rewrite Hc. simpl. repeat split.
Qed.

Lemma finish_run st :
  completeCalled st = false ->
  fst (finish cb st) = inl tt
  /\ calls (snd (finish cb st))
     = calls st ++ (if reasoning_pending cb st then [OnReasoningComplete] else [])
       ++ [OnComplete (fullContent st)].
Proof.
  intros Hc. unfold finish, complete, bind, get, when. simpl.
  destruct (reasoning_pending cb st); simpl; rewrite Hc; simpl.
  - rewrite <- app_assoc. split; reflexivity.
  - split; reflexivity.
Qed.

Lemma catch_abort_run e st :
  err_name e = "AbortError" ->
  completeCalled st = false ->
  fst (catch_block a cb e st) = inl tt
  /\ calls (snd (catch_block a cb e st)) = calls st ++ abort_calls st.
Proof.
  intros Hn Hc. unfold catch_block, abort_calls. rewrite Hn. simpl.
  unfold save_reasoning_on_abort, complete, bind, get, when. simpl.
  destruct (negb (is_empty (fullReasoning st)) && negb (reasoningDone st)); simpl;
    [destruct (onReasoningChunk cb); destruct (onReasoningComplete cb); simpl|];
    rewrite Hc; simpl; rewrite <- ?app_assoc; split; reflexivity.
Qed.

Lemma catch_error_run e st :
  String.eqb (err_name e) "AbortError" = false ->
  exists message,
    catch_block a cb e st = call (OnError message) st.
Proof.
  intros Hn. unfold catch_block. rewrite Hn. eexists. reflexivity.
Qed.

Lemma catch_block_terminal e st :
  completeCalled st = false ->
  fst (catch_block a cb e st) = inl tt
  /\ ((count is_complete (calls (snd (catch_block a cb e st))) = S (count is_complete (calls st))
       /\ count is_error (calls (snd (catch_block a cb e st))) = count is_error (calls st))
      \/ (count is_complete (calls (snd (catch_block a cb e st))) = count is_complete (calls st)
          /\ count is_error (calls (snd (catch_block a cb e st))) = S (count is_error (calls st)))).
Proof.
  intros Hc. destruct (String.eqb (err_name e) "AbortError") eqn:Hn.
  - apply String.eqb_eq in Hn.
    destruct (catch_abort_run e st Hn Hc) as [H1 H2].
    split; [exact H1 | left]. rewrite H2, !count_app. unfold abort_calls.
    rewrite !count_app, !count_single. simpl.
    destruct (negb (is_empty (fullReasoning st)) && negb (reasoningDone st));
      destruct (onReasoningChunk cb); destruct (onReasoningComplete cb);
      simpl; split; lia.
  - destruct (catch_error_run e st Hn) as [message ->].
    split; [reflexivity | right]. simpl. rewrite !count_app, !count_single. simpl.
    split; lia.
Qed.

Lemma validate_quiet req : quiet (validate a req).
Proof. unfold validate. quiet_steps. Qed.

Lemma validate_state req st : snd (validate a req st) = st.
Proof.
  unfold validate.
  repeat match goal with |- context [if ?b then _ else _] => destruct b end; reflexivity.
Qed.

Lemma http_error_message_state r st : snd (http_error_message r st) = st.
Proof.
  unfold http_error_message. destruct (N.eqb (status r) 429); [reflexivity|].
  unfold bind, lift. destruct (prop _ "error"); reflexivity.
Qed.

(** Every session invokes exactly one terminal callback, and no
    exception leaves the function. *)
Lemma session_terminal req net :
  fst (sendStreamingMessage a cb req net) = inl tt
  /\ ((count is_complete (trace a cb req net) = 1 /\ count is_error (trace a cb req net) = 0)
      \/ (count is_complete (trace a cb req net) = 0 /\ count is_error (trace a cb req net) = 1)).
Proof.
  unfold trace, sendStreamingMessage, try_catch.
  assert (Hcatch : forall e st,
             completeCalled st = false ->
             count is_complete (calls st) = 0 -> count is_error (calls st) = 0 ->
             fst (catch_block a cb e st) = inl tt
             /\ ((count is_complete (calls (snd (catch_block a cb e st))) = 1
                  /\ count is_error (calls (snd (catch_block a cb e st))) = 0)
                 \/ (count is_complete (calls (snd (catch_block a cb e st))) = 0
                     /\ count is_error (calls (snd (catch_block a cb e st))) = 1))).
  { intros e st Hc H0 H1. destruct (catch_block_terminal e st Hc) as [Hf Hcount].
    split; [exact Hf|]. rewrite H0, H1 in Hcount. exact Hcount. }
  unfold try_block, bind.
  pose proof (validate_state req initial) as Hv.
  destruct (validate a req initial) as [[[]|e] st0]; simpl in Hv; subst st0;
    [| apply Hcatch; reflexivity].
  destruct net as [e|response]; [apply Hcatch; reflexivity|].
  destruct (ok response).
  - simpl. destruct (body response) as [steps|]; [| apply Hcatch; reflexivity].
    destruct (read_loop_ok steps EmptyString initial) as (H1 & H2 & H3).
    change (calls initial) with (@nil Event) in H2, H3.
    change (count is_complete []) with 0 in H2. change (count is_error []) with 0 in H3.
    destruct (read_loop a cb steps EmptyString initial) as [[[|]|e] st1]; simpl in *.
    + destruct (finish_run st1 H1) as [Hf Hcalls].
      destruct (finish cb st1) as [r st2]; simpl in *. subst r. simpl.
      split; [reflexivity | left]. rewrite Hcalls, !count_app, !count_single.
      destruct (reasoning_pending cb st1); simpl; split; lia.
    + split; [reflexivity | right]. split; lia.
    + apply Hcatch; [exact H1 | lia | lia].
  - simpl. pose proof (http_error_message_state response initial) as Hs.
    destruct (http_error_message response initial) as [[message|e] st0]; simpl in Hs; subst st0.
    + simpl. split; [reflexivity | right]. split; reflexivity.
    + apply Hcatch; reflexivity.
Qed.

End Generic.


End Completion.

(* ===================================================================== *)
(** * Running a session on the frames of its stream *)
(* ===================================================================== *)

Module Run.
Import Text Js Session Controller Decoder Frames Terminal DecoderFacts.
Open Scope js_scope.

Section Frames.
Context `{Engine}.
Variable p : ProviderKind.
Variable cb : Callbacks.

(** The loop over the lines of a chunk, seen on the frames they carry. *)
Fixpoint process_frames (frames : list JsVal) (st : State) : bool * State :=
  match frames with
  | [] => (false, st)
  | parsed :: rest =>
      match handle p cb parsed st with
      | (Next, st') => process_frames rest st'
      | (Break, st') => (false, st')
      | (Return, st') => (true, st')
      end
  end.

(** All the frames handled in order. *)
Definition run_frames (frames : list JsVal) (st : State) : State :=
  fold_left (fun st parsed => snd (handle p cb parsed st)) frames st.

(** A frame after which the loop always goes on with the next line. *)
Definition flows (parsed : JsVal) : Prop :=
  forall st, fst (handle p cb parsed st) = Next.

(** A frame that changes nothing and does not end the session. *)
Definition inert (parsed : JsVal) : Prop :=
  forall st, handle p cb parsed st = (Next, st) \/ handle p cb parsed st = (Break, st).

(** A stream in which a frame that may leave the loop over the lines of
    its chunk is followed by inert frames only. *)
Fixpoint benign (frames : list JsVal) : Prop :=
  match frames with
  | [] => True
  | parsed :: rest => (flows parsed \/ (inert parsed /\ Forall inert rest)) /\ benign rest
  end.

Lemma process_lines_frames lines : forall st,
  process_lines (adapter_of p) cb lines st = process_frames (frames_of p lines) st.
Proof.
  induction lines as [|l lines IH]; intros st; [reflexivity|].
  cbn [process_lines]. rewrite process_line_frame.
  unfold frames_of. cbn [flat_map]. fold (frames_of p lines).
  destruct (frame_of p l) as [parsed|]; cbn [app process_frames].
  - destruct (handle p cb parsed st) as [[| |] st']; [apply IH | reflexivity | reflexivity].
  - apply IH.
Qed.

Lemma frames_of_app l1 l2 : frames_of p (l1 ++ l2) = frames_of p l1 ++ frames_of p l2.
Proof. unfold frames_of. apply flat_map_app. Qed.

Lemma run_frames_app f1 f2 st : run_frames (f1 ++ f2) st = run_frames f2 (run_frames f1 st).
Proof. unfold run_frames. apply fold_left_app. Qed.

Lemma run_inert frames : Forall inert frames -> forall st, run_frames frames st = st.
Proof.
  induction 1 as [|parsed rest Hi _ IH]; intros st; [reflexivity|].
  cbn [run_frames fold_left]. fold (run_frames rest).
  destruct (Hi st) as [-> | ->]; apply IH.
Qed.

Lemma benign_app f1 f2 : benign (f1 ++ f2) -> benign f2.
Proof. induction f1 as [|x f1 IH]; simpl; [auto | intros [_ Hb]; auto]. Qed.

Lemma process_frames_benign frames : forall more st,
  benign (frames ++ more) ->
  process_frames frames st = (false, run_frames frames st).
Proof.
  induction frames as [|parsed rest IH]; intros more st Hb; [reflexivity|].
  cbn [process_frames run_frames fold_left]. fold (run_frames rest).
  destruct Hb as [[Hf | [Hi Hrest]] Hb].
  - specialize (Hf st). destruct (handle p cb parsed st) as [sg st']; simpl in *.
    subst sg. eapply IH; eauto.
  - destruct (Hi st) as [-> | ->]; simpl.
    + eapply IH; eauto.
    + rewrite run_inert; [reflexivity|].
      apply Forall_app in Hrest. tauto.
Qed.

(** The read loop over chunks of a benign stream handles every frame of
    the stream in order, whatever the chunk boundaries, and goes on with
    the rest of the transport script. *)
Lemma read_loop_frames chunks : forall after buffer st,
  benign (frames_of p (fst (feed buffer chunks))) ->
  read_loop (adapter_of p) cb (map ReadChunk chunks ++ after) buffer st
  = read_loop (adapter_of p) cb after (snd (feed buffer chunks))
      (run_frames (frames_of p (fst (feed buffer chunks))) st).
Proof.
  induction chunks as [|v rest IH]; intros after buffer st Hb; [reflexivity|].
  cbn [map app read_loop feed] in *.
  destruct (decode_chunk buffer v) as [lines b'].
  destruct (feed b' rest) as [more final] eqn:Ef. cbn [fst snd] in *.
  rewrite frames_of_app in Hb. rewrite frames_of_app, run_frames_app.
  rewrite process_lines_frames, (process_frames_benign _ _ st Hb).
  specialize (IH after b' (run_frames (frames_of p lines) st)).
  rewrite Ef in IH. cbn [fst snd] in IH. apply IH.
  eapply benign_app; eauto.
Qed.

Lemma finish_safe st : exists st', finish cb st = (inl tt, st').
Proof.
  unfold finish, complete, bind, get, when.
  destruct (reasoning_pending cb st); destruct (completeCalled st) eqn:E;
    simpl; rewrite ?E; simpl; eexists; reflexivity.
Qed.

(** The trace of a session on a benign stream that ends normally. *)
Lemma trace_of_stream req chunks :
  valid (adapter_of p) req ->
  benign (stream_frames p chunks) ->
  sendStreamingMessage (adapter_of p) cb req (streaming chunks [])
  = finish cb (run_frames (stream_frames p chunks) initial).
Proof.
  intros (Hk & Hm & Hmsg & Hu) Hb.
  unfold sendStreamingMessage, try_catch, try_block, bind, validate.
  rewrite Hk, Hm. destruct (messages req) as [|m ms] eqn:Em; [congruence|].
  assert (Hbase : checks_baseUrl (adapter_of p) && is_empty (baseUrl req) = false).
  { destruct (checks_baseUrl (adapter_of p)); [rewrite Hu; reflexivity | reflexivity]. }
  rewrite Hbase. simpl.
  rewrite (read_loop_frames chunks [] EmptyString initial Hb). simpl.
  destruct (finish_safe (run_frames (frames_of p (fst (feed EmptyString chunks))) initial))
    as [st' E].
  unfold stream_frames. rewrite E. reflexivity.
Qed.

End Frames.
End Run.

(* ===================================================================== *)
(** * What the frames of a synthetic stream do *)
(* ===================================================================== *)

Module Acts.
Import Text Js Session Controller Decoder Frames Terminal DecoderFacts Run.
Open Scope js_scope.

(** The effect of a frame on the buffers and on the callbacks: a delta
    is delivered, or (Anthropic, at the stop of a thinking block) the
    reasoning is closed. *)
Inductive Act :=
| Emit (f : Frame)
| Close.

Definition act_step (cb : Callbacks) (a : Act) (st : State) : State :=
  match a with
  | Emit (Reasoning text) =>
      if is_empty text then st else snd (deliver_reasoning (JStr text) st)
  | Emit (Content text) =>
      if is_empty text then st
      else snd ((close_reasoning cb ;; deliver_content (JStr text)) st)
  | Close => snd (close_reasoning cb st)
  end.

Definition run_acts (cb : Callbacks) (acts : list Act) (st : State) : State :=
  fold_left (fun st a => act_step cb a st) acts st.

(** OpenAI and Gemini: a reasoning delta is delivered when the caller
    supplied [onReasoningChunk] and dropped otherwise. *)
Definition plain_acts (cb : Callbacks) (frames : list Frame) : list Act :=
  flat_map (fun f => match f with
                     | Reasoning _ => if onReasoningChunk cb then [Emit f] else []
                     | Content _ => [Emit f]
                     end) frames.

(** Anthropic: the stop of a thinking block closes the reasoning, and
    without [onReasoningChunk] a delta of a thinking block is content. *)
Definition closes (open : option string) : list Act :=
  match open with
  | Some blockType => if String.eqb blockType "thinking" then [Close] else []
  | None => []
  end.

Definition anthropic_act (cb : Callbacks) (f : Frame) : Act :=
  match f with
  | Reasoning text => if onReasoningChunk cb then Emit f else Emit (Content text)
  | Content _ => Emit f
  end.

Fixpoint anthropic_acts (cb : Callbacks) (open : option string) (frames : list Frame)
  : list Act :=
  match frames with
  | [] => closes open
  | f :: rest =>
      (match open with
       | Some blockType => if String.eqb blockType (block_type f) then [] else closes open
       | None => []
       end)
      ++ anthropic_act cb f :: anthropic_acts cb (Some (block_type f)) rest
  end.

Definition acts (p : ProviderKind) (cb : Callbacks) (frames : list Frame) : list Act :=
  match p with
  | AnthropicKind => anthropic_acts cb None frames
  | _ => plain_acts cb frames
  end.

(** [currentBlockType = v] *)
Definition with_block (v : JsVal) (st : State) : State := snd (set_currentBlockType v st).

Definition block_value (open : option string) : JsVal :=
  match open with Some blockType => JStr blockType | None => JNull end.

(** Evaluates the handling of a frame of known shape, by cases on what
    the handler tests: the callbacks supplied, the reasoning buffer and
    flag, the type of the open block. *)
Ltac evaluate_frame cb st :=
  destruct st as [content reasoning done called blockType invoked];
  destruct cb as [hasChunk hasComplete];
  unfold handle, try_frame, act_step;
  destruct hasChunk; destruct hasComplete; destruct done; destruct reasoning;
  try reflexivity;
  destruct blockType as [ | | | | b | | ]; try reflexivity;
  let E := fresh "E" in
  destruct (String.eqb b "thinking") eqn:E;
  unfold Anthropic.handle_frame, Anthropic.content_block_delta,
    Anthropic.content_block_stop, close_reasoning, deliver_content,
    deliver_reasoning, bind, get, when, lift, ret;
  simpl; rewrite ?E; simpl; reflexivity.

Section Handling.
Context `{Engine}.

Lemma handle_openai_content cb text st :
  handle OpenAICompatible cb (content_frame OpenAICompatible text) st
  = (Next, act_step cb (Emit (Content text)) st).
Proof. destruct text; evaluate_frame cb st. Qed.

Lemma handle_openai_reasoning cb text st :
  handle OpenAICompatible cb (reasoning_frame OpenAICompatible text) st
  = (Next, if onReasoningChunk cb then act_step cb (Emit (Reasoning text)) st else st).
Proof. destruct text; evaluate_frame cb st. Qed.

Lemma handle_openai_finish cb st :
  handle OpenAICompatible cb (finish_frame OpenAICompatible) st = (Break, st).
Proof. reflexivity. Qed.

Lemma handle_gemini_content cb text st :
  handle GeminiKind cb (content_frame GeminiKind text) st
  = (Next, act_step cb (Emit (Content text)) st).
Proof. destruct text; evaluate_frame cb st. Qed.

Lemma handle_gemini_reasoning cb text st :
  handle GeminiKind cb (reasoning_frame GeminiKind text) st
  = (Next, if onReasoningChunk cb then act_step cb (Emit (Reasoning text)) st else st).
Proof. destruct text; evaluate_frame cb st. Qed.

Lemma handle_gemini_finish cb st :
  handle GeminiKind cb (finish_frame GeminiKind) st = (Next, st).
Proof. reflexivity. Qed.

Lemma handle_anthropic_delta cb text st :
  handle AnthropicKind cb (anthropic_text_delta text) st
  = (Next, if is_string (currentBlockType st) "thinking" && onReasoningChunk cb
           then act_step cb (Emit (Reasoning text)) st
           else act_step cb (Emit (Content text)) st).
Proof. destruct text; evaluate_frame cb st. Qed.

Lemma handle_anthropic_start cb blockType st :
  handle AnthropicKind cb (anthropic_block_start blockType) st
  = (Next, with_block (JStr blockType) st).
Proof. reflexivity. Qed.

Lemma handle_anthropic_stop cb st :
  handle AnthropicKind cb anthropic_block_stop st
  = (Next, with_block JNull (if is_string (currentBlockType st) "thinking"
                             then act_step cb Close st else st)).
Proof. evaluate_frame cb st. Qed.

Lemma handle_anthropic_finish cb st :
  handle AnthropicKind cb (finish_frame AnthropicKind) st = (Next, st).
Proof. reflexivity. Qed.

End Handling.


Section Streams.
Context `{Engine}.
Variable cb : Callbacks.

Lemma run_acts_cons a acts st :
  run_acts cb (a :: acts) st = run_acts cb acts (act_step cb a st).
Proof. reflexivity. Qed.

Lemma run_frames_cons p parsed frames st :
  run_frames p cb (parsed :: frames) st = run_frames p cb frames (snd (handle p cb parsed st)).
Proof. reflexivity. Qed.

Lemma with_block_twice v w st : with_block v (with_block w st) = with_block v st.
Proof. reflexivity. Qed.

Lemma with_block_same st : with_block (currentBlockType st) st = st.
Proof. destruct st; reflexivity. Qed.

Lemma act_step_with_block a v st :
  act_step cb a (with_block v st) = with_block v (act_step cb a st).
Proof.
  destruct a as [[text|text]|]; simpl.
  - destruct (is_empty text); reflexivity.
  - destruct (is_empty text); [reflexivity|].
    unfold close_reasoning, bind, get, when. simpl.
    change (reasoning_pending cb (with_block v st)) with (reasoning_pending cb st).
    destruct (reasoning_pending cb st); reflexivity.
  - unfold close_reasoning, bind, get, when. simpl.
    change (reasoning_pending cb (with_block v st)) with (reasoning_pending cb st).
    destruct (reasoning_pending cb st); reflexivity.
Qed.

Lemma run_acts_with_block acts : forall v st,
  run_acts cb acts (with_block v st) = with_block v (run_acts cb acts st).
Proof.
  induction acts as [|a acts IH]; intros v st; [reflexivity|].
  rewrite !run_acts_cons, act_step_with_block. apply IH.
Qed.

Lemma run_acts_app l1 l2 st : run_acts cb (l1 ++ l2) st = run_acts cb l2 (run_acts cb l1 st).
Proof. unfold run_acts. apply fold_left_app. Qed.

Lemma act_step_block a st : currentBlockType (act_step cb a st) = currentBlockType st.
Proof.
  destruct a as [[text|text]|]; simpl.
  - destruct (is_empty text); reflexivity.
  - destruct (is_empty text); [reflexivity|].
    unfold close_reasoning, bind, get, when. simpl.
    destruct (reasoning_pending cb st); reflexivity.
  - unfold close_reasoning, bind, get, when. simpl.
    destruct (reasoning_pending cb st); reflexivity.
Qed.

Lemma run_acts_block acts : forall st,
  currentBlockType (run_acts cb acts st) = currentBlockType st.
Proof.
  induction acts as [|a acts IH]; intros st; [reflexivity|].
  rewrite run_acts_cons, IH. apply act_step_block.
Qed.

(** OpenAI and Gemini: each frame of the stream is one act. *)
Lemma run_plain p frames : forall st,
  p <> AnthropicKind ->
  run_frames p cb (map (encode p) frames) st = run_acts cb (plain_acts cb frames) st.
Proof.
  induction frames as [|f frames IH]; intros st Hp; [reflexivity|].
  cbn [map]. rewrite run_frames_cons.
  unfold plain_acts. cbn [flat_map]. fold (plain_acts cb frames).
  rewrite run_acts_app, <- IH by exact Hp. f_equal.
  destruct p; [| congruence |]; destruct f as [text|text]; cbn [encode];
    rewrite ?handle_openai_content, ?handle_openai_reasoning,
            ?handle_gemini_content, ?handle_gemini_reasoning;
    cbn [snd]; destruct (onReasoningChunk cb); reflexivity.
Qed.

Lemma closes_run open st :
  currentBlockType st = block_value open ->
  (if is_string (currentBlockType st) "thinking" then act_step cb Close st else st)
  = run_acts cb (closes open) st.
Proof.
  intros ->. destruct open as [blockType|]; simpl; [|reflexivity].
  destruct (String.eqb blockType "thinking"); reflexivity.
Qed.

Lemma delta_run f st :
  currentBlockType st = JStr (block_type f) ->
  snd (handle AnthropicKind cb (encode AnthropicKind f) st)
  = act_step cb (anthropic_act cb f) st.
Proof.
  intros Hb. destruct f as [text|text]; cbn [encode reasoning_frame content_frame];
    rewrite handle_anthropic_delta, Hb; cbn [snd block_type is_string];
    simpl String.eqb; cbn [andb anthropic_act];
    destruct (onReasoningChunk cb); reflexivity.
Qed.

(** Anthropic: the deltas act inside their blocks, and the stop of a
    thinking block closes the reasoning. *)
Lemma run_anthropic frames : forall open st,
  currentBlockType st = block_value open ->
  run_frames AnthropicKind cb (anthropic_stream open frames) st
  = with_block JNull (run_acts cb (anthropic_acts cb open frames) st).
Proof.
  induction frames as [|f frames IH]; intros open st Hb.
  - destruct open as [blockType|]; cbn [anthropic_stream anthropic_acts].
    + rewrite run_frames_cons, handle_anthropic_stop. cbn [snd].
      rewrite (closes_run (Some blockType)) by exact Hb. reflexivity.
    + simpl. simpl in Hb. rewrite <- Hb. symmetry. apply with_block_same.
  - cbn [anthropic_stream anthropic_acts].
    assert (Hdelta : forall st1,
               currentBlockType st1 = JStr (block_type f) ->
               run_frames AnthropicKind cb
                 (encode AnthropicKind f :: anthropic_stream (Some (block_type f)) frames) st1
               = with_block JNull
                   (run_acts cb (anthropic_act cb f
                                 :: anthropic_acts cb (Some (block_type f)) frames) st1)).
    { intros st1 H1. rewrite run_frames_cons, run_acts_cons.
      rewrite delta_run by exact H1. apply IH.
      rewrite act_step_block. exact H1. }
    destruct open as [blockType|].
    + destruct (String.eqb blockType (block_type f)) eqn:Eb.
      * apply String.eqb_eq in Eb. subst blockType. apply Hdelta. exact Hb.
      * rewrite run_frames_cons, handle_anthropic_stop. cbn [snd].
        rewrite (closes_run (Some blockType)) by exact Hb.
        rewrite run_frames_cons, handle_anthropic_start. cbn [snd].
        rewrite with_block_twice, Hdelta by reflexivity.
        rewrite run_acts_app, !run_acts_with_block. reflexivity.
    + cbn [app]. rewrite run_frames_cons, handle_anthropic_start. cbn [snd].
      rewrite Hdelta by reflexivity.
      rewrite !run_acts_with_block. reflexivity.
Qed.

(** The frames of a synthetic stream, handled from a state with no open
    block, do what the acts of the stream do. *)
Lemma run_stream p frames st :
  currentBlockType st = JNull ->
  run_frames p cb (encode_stream p frames) st = run_acts cb (acts p cb frames) st.
Proof.
  intros Hb. destruct p; cbn [encode_stream acts].
  - apply run_plain. discriminate.
  - rewrite (run_anthropic frames None st Hb).
    rewrite <- Hb at 1. rewrite <- (run_acts_block (anthropic_acts cb None frames) st).
    apply with_block_same.
  - apply run_plain. discriminate.
Qed.

End Streams.
End Acts.

(* ===================================================================== *)
(** * Streams of content deltas *)
(* ===================================================================== *)

Module ContentStreams.
Import Text Js Session Controller Decoder Frames Terminal DecoderFacts Run Acts.
Open Scope js_scope.

(** The concatenation of the texts of a run of deltas. *)
Fixpoint join (texts : list string) : string :=
  match texts with
  | [] => EmptyString
  | text :: rest => (text ++ join rest)%string
  end.

(** The non-empty content texts delivered by a list of acts. *)
Definition content_texts (acts : list Act) : list string :=
  flat_map (fun a => match a with
                     | Emit (Content text) => if is_empty text then [] else [text]
                     | _ => []
                     end) acts.

(** No act delivers reasoning text. *)
Definition reasoning_free (acts : list Act) : Prop :=
  Forall (fun a => match a with
                   | Emit (Reasoning text) => text = EmptyString
                   | _ => True
                   end) acts.

(** The text of a delta. *)
Definition text_of (f : Frame) : string :=
  match f with Reasoning text | Content text => text end.

(** The non-empty texts of a list of deltas. *)
Definition delta_texts (frames : list Frame) : list string :=
  flat_map (fun f => if is_empty (text_of f) then [] else [text_of f]) frames.

(** How a stream may end: with nothing more, or with the finish frame. *)
Definition ending (p : ProviderKind) (fin : list JsVal) : Prop :=
  fin = [] \/ fin = [finish_frame p].

Section Content.
Context `{Engine}.
Variable cb : Callbacks.

(** Deltas that all act as content: the caller supplied no
    [onReasoningChunk] (Anthropic), or the deltas are content deltas. *)
Definition all_content (p : ProviderKind) (frames : list Frame) : Prop :=
  (p = AnthropicKind /\ onReasoningChunk cb = false)
  \/ Forall (fun f => match f with Content _ => True | Reasoning _ => False end) frames.


Lemma pending_no_reasoning st : fullReasoning st = EmptyString -> reasoning_pending cb st = false.
Proof. intros E. unfold reasoning_pending. rewrite E. reflexivity. Qed.

(** Acts that deliver no reasoning, from a state with an empty reasoning
    buffer: the content texts are appended and delivered one by one. *)
Lemma run_content acts : forall st,
  reasoning_free acts ->
  fullReasoning st = EmptyString ->
  run_acts cb acts st
  = {| fullContent := fullContent st ++ join (content_texts acts);
       fullReasoning := EmptyString;
       reasoningDone := reasoningDone st;
       completeCalled := completeCalled st;
       currentBlockType := currentBlockType st;
       calls := calls st ++ chunk_calls (fullContent st) (content_texts acts) |}.
Proof.
  induction acts as [|a acts IH]; intros st Hfree Hr.
  - simpl. rewrite string_app_nil_r, app_nil_r. destruct st; simpl in *. subst. reflexivity.
  - inversion Hfree as [|? ? Ha Hrest]; subst.
    rewrite run_acts_cons.
    assert (Hskip : run_acts cb acts st
                    = {| fullContent := fullContent st
                                        ++ join (content_texts acts);
                         fullReasoning := EmptyString;
                         reasoningDone := reasoningDone st;
                         completeCalled := completeCalled st;
                         currentBlockType := currentBlockType st;
                         calls := calls st ++ chunk_calls (fullContent st) (content_texts acts) |})
      by (apply IH; assumption).
    destruct a as [[text|text]|].
    + subst text. exact Hskip.
    + unfold content_texts. cbn [flat_map act_step]. fold (content_texts acts).
      destruct (is_empty text) eqn:Et; [exact Hskip|].
      unfold close_reasoning, bind, get, when. cbn [fst snd].
      rewrite (pending_no_reasoning st Hr). cbn.
      rewrite IH by (assumption || reflexivity). cbn.
      rewrite string_app_assoc, <- app_assoc. reflexivity.
    + cbn [act_step]. unfold close_reasoning, bind, get, when. cbn [fst snd].
      rewrite (pending_no_reasoning st Hr). exact Hskip.
Qed.

(** The session on such a stream: the [onChunk] invocations, then one
    [onComplete] with the whole content. *)
Lemma finish_content acts :
  reasoning_free acts ->
  finish cb (run_acts cb acts initial)
  = (inl tt,
     {| fullContent := join (content_texts acts);
        fullReasoning := EmptyString;
        reasoningDone := false;
        completeCalled := true;
        currentBlockType := JNull;
        calls := chunk_calls EmptyString (content_texts acts)
                 ++ [OnComplete (join (content_texts acts))] |}).
Proof.
  intros Hfree. rewrite (@run_content acts initial Hfree eq_refl).
  unfold finish, complete, bind, get, when, reasoning_pending. reflexivity.
Qed.

(** Frames that carry content only. *)
Lemma content_acts_free texts : reasoning_free (map (fun t => Emit (Content t)) texts).
Proof. induction texts; constructor; auto. Qed.

Lemma content_acts_texts texts :
  Forall (fun t => t <> EmptyString) texts ->
  content_texts (map (fun t => Emit (Content t)) texts) = texts.
Proof.
  induction 1 as [|t texts Ht _ IH]; [reflexivity|].
  unfold content_texts in *. cbn [map flat_map]. rewrite IH.
  destruct t; [congruence | reflexivity].
Qed.

(** Content frames arriving outside a thinking block. *)
Lemma run_bare p texts : forall st,
  is_string (currentBlockType st) "thinking" = false ->
  run_frames p cb (map (content_frame p) texts) st
  = run_acts cb (map (fun t => Emit (Content t)) texts) st.
Proof.
  induction texts as [|t texts IH]; intros st Hb; [reflexivity|].
  cbn [map]. rewrite run_frames_cons, run_acts_cons.
  assert (Hstep : snd (handle p cb (content_frame p t) st)
                  = act_step cb (Emit (Content t)) st).
  { destruct p.
    - rewrite handle_openai_content. reflexivity.
    - change (content_frame AnthropicKind t) with (anthropic_text_delta t).
      rewrite handle_anthropic_delta, Hb. reflexivity.
    - rewrite handle_gemini_content. reflexivity. }
  rewrite Hstep. apply IH. rewrite act_step_block. exact Hb.
Qed.

Lemma flows_encode p f : flows p cb (encode p f).
Proof.
  intros st. destruct p; destruct f as [text|text]; cbn [encode];
    try change (reasoning_frame AnthropicKind text) with (anthropic_text_delta text);
    try change (content_frame AnthropicKind text) with (anthropic_text_delta text);
    rewrite ?handle_openai_content, ?handle_anthropic_delta, ?handle_gemini_content,
            ?handle_openai_reasoning, ?handle_gemini_reasoning;
    reflexivity.
Qed.

Lemma flows_content p text : flows p cb (content_frame p text).
Proof. exact (flows_encode p (Content text)). Qed.

Lemma flows_anthropic_stream frames : forall open,
  Forall (flows AnthropicKind cb) (anthropic_stream open frames).
Proof.
  assert (Hstop : flows AnthropicKind cb anthropic_block_stop)
    by (intros st; rewrite handle_anthropic_stop; reflexivity).
  assert (Hstart : forall b, flows AnthropicKind cb (anthropic_block_start b))
    by (intros b st; reflexivity).
  induction frames as [|f frames IH]; intros open; cbn [anthropic_stream].
  - destruct open; repeat constructor; assumption.
  - assert (Hf := flows_encode AnthropicKind f).
    destruct open as [b|]; [destruct (String.eqb b (block_type f))|];
      repeat (constructor; auto).
Qed.

Lemma flows_stream p frames : Forall (flows p cb) (encode_stream p frames).
Proof.
  destruct p; cbn [encode_stream];
    [| apply flows_anthropic_stream |];
    (induction frames; constructor; [apply flows_encode | assumption]).
Qed.

Lemma inert_finish p : inert p cb (finish_frame p).
Proof. intros st. destruct p; [right | left | left]; reflexivity. Qed.

Lemma inert_ending p fin : ending p fin -> Forall (inert p cb) fin.
Proof.
  intros [-> | ->]; [constructor | constructor; [apply inert_finish | constructor]].
Qed.

Lemma benign_inert p frames : Forall (inert p cb) frames -> benign p cb frames.
Proof.
  induction 1 as [|x rest Hx Hrest IH]; simpl; [exact I|].
  split; [right; split; assumption | exact IH].
Qed.

Lemma benign_flows p frames fin :
  Forall (flows p cb) frames -> Forall (inert p cb) fin -> benign p cb (frames ++ fin).
Proof.
  intros Hf Hi. induction Hf as [|x rest Hx _ IH]; simpl.
  - apply benign_inert. exact Hi.
  - split; [left; exact Hx | exact IH].
Qed.

(** A session on a stream of flowing frames followed by an ending. *)
Lemma session_of_stream p req chunks frames fin :
  valid (adapter_of p) req ->
  Forall (flows p cb) frames ->
  ending p fin ->
  stream_frames p chunks = frames ++ fin ->
  sendStreamingMessage (adapter_of p) cb req (streaming chunks [])
  = finish cb (run_frames p cb frames initial).
Proof.
  intros Hv Hf Hfin Hs.
  rewrite trace_of_stream
    by first [ exact Hv
             | rewrite Hs; apply benign_flows; [exact Hf | apply inert_ending; exact Hfin] ].
  rewrite Hs, run_frames_app, (run_inert (inert_ending Hfin)). reflexivity.
Qed.

Lemma delta_texts_content texts :
  Forall (fun t => t <> EmptyString) texts -> delta_texts (map Content texts) = texts.
Proof.
  induction 1 as [|t texts Ht _ IH]; [reflexivity|].
  unfold delta_texts in *. cbn [map flat_map text_of]. rewrite IH.
  destruct t; [congruence | reflexivity].
Qed.

Lemma content_texts_app l1 l2 : content_texts (l1 ++ l2) = content_texts l1 ++ content_texts l2.
Proof. unfold content_texts. apply flat_map_app. Qed.

Lemma closes_content open : reasoning_free (closes open) /\ content_texts (closes open) = [].
Proof.
  destruct open as [b|]; simpl; [destruct (String.eqb b "thinking")|];
    split; repeat constructor.
Qed.

Lemma anthropic_acts_content frames : forall open,
  all_content AnthropicKind frames ->
  reasoning_free (anthropic_acts cb open frames)
  /\ content_texts (anthropic_acts cb open frames) = delta_texts frames.
Proof.
  induction frames as [|f frames IH]; intros open Hall; cbn [anthropic_acts].
  - apply closes_content.
  - assert (Hrest : all_content AnthropicKind frames).
    { destruct Hall as [Hn | Hc]; [left; exact Hn | right; inversion Hc; assumption]. }
    destruct (IH (Some (block_type f)) Hrest) as [Hfree Htexts].
    assert (Hact : anthropic_act cb f = Emit (Content (text_of f))).
    { destruct f as [text|text]; [|reflexivity]. simpl.
      destruct Hall as [[_ ->] | Hc]; [reflexivity | inversion Hc; contradiction]. }
    assert (Hpre : reasoning_free
                     (match open with
                      | Some blockType =>
                          if String.eqb blockType (block_type f) then [] else closes open
                      | None => []
                      end)
                   /\ content_texts
                        (match open with
                         | Some blockType =>
                             if String.eqb blockType (block_type f) then [] else closes open
                         | None => []
                         end) = []).
    { destruct open as [b|]; [destruct (String.eqb b (block_type f))|];
        try apply closes_content; split; constructor. }
    destruct Hpre as [Hp1 Hp2]. split.
    + apply Forall_app. split; [exact Hp1|]. constructor; [rewrite Hact; exact I | exact Hfree].
    + rewrite content_texts_app, Hp2, Hact. unfold content_texts at 1. cbn [flat_map app].
      fold (content_texts (anthropic_acts cb (Some (block_type f)) frames)).
      rewrite Htexts. reflexivity.
Qed.

Lemma plain_acts_content frames :
  Forall (fun f => match f with Content _ => True | Reasoning _ => False end) frames ->
  reasoning_free (plain_acts cb frames)
  /\ content_texts (plain_acts cb frames) = delta_texts frames.
Proof.
  induction 1 as [|f frames Hf _ [IH1 IH2]]; [split; constructor|].
  destruct f as [text|text]; [contradiction|].
  unfold plain_acts. cbn [flat_map app]. fold (plain_acts cb frames). split.
  - constructor; [exact I | exact IH1].
  - unfold content_texts. cbn [flat_map]. fold (content_texts (plain_acts cb frames)).
    rewrite IH2. reflexivity.
Qed.

Lemma acts_content p frames :
  all_content p frames ->
  reasoning_free (acts p cb frames) /\ content_texts (acts p cb frames) = delta_texts frames.
Proof.
  intros Hall. destruct p; cbn [acts].
  - destruct Hall as [[Hp _] | Hc]; [discriminate | apply plain_acts_content; exact Hc].
  - apply anthropic_acts_content. exact Hall.
  - destruct Hall as [[Hp _] | Hc]; [discriminate | apply plain_acts_content; exact Hc].
Qed.

(** The session on a synthetic stream whose deltas all act as content. *)
Lemma content_session p req chunks frames fin :
  valid (adapter_of p) req ->
  all_content p frames ->
  ending p fin ->
  stream_frames p chunks = encode_stream p frames ++ fin ->
  fst (sendStreamingMessage (adapter_of p) cb req (streaming chunks [])) = inl tt
  /\ trace (adapter_of p) cb req (streaming chunks [])
     = chunk_calls EmptyString (delta_texts frames) ++ [OnComplete (join (delta_texts frames))].
Proof.
  intros Hv Hall Hfin Hs. unfold trace.
  rewrite (@session_of_stream p req chunks _ fin Hv (flows_stream p frames) Hfin Hs).
  rewrite run_stream by reflexivity.
  destruct (@acts_content p frames Hall) as [Hfree Htexts].
  rewrite (@finish_content _ Hfree), Htexts. split; reflexivity.
Qed.

(** The session on a stream of bare content frames. *)
Lemma bare_content_session p req chunks texts fin :
  valid (adapter_of p) req ->
  Forall (fun text => text <> EmptyString) texts ->
  ending p fin ->
  stream_frames p chunks = map (content_frame p) texts ++ fin ->
  fst (sendStreamingMessage (adapter_of p) cb req (streaming chunks [])) = inl tt
  /\ trace (adapter_of p) cb req (streaming chunks [])
     = chunk_calls EmptyString texts ++ [OnComplete (join texts)].
Proof.
  intros Hv Hne Hfin Hs. unfold trace.
  assert (Hflows : Forall (flows p cb) (map (content_frame p) texts)).
  { clear. induction texts; constructor; [apply flows_content | assumption]. }
  rewrite (@session_of_stream p req chunks _ fin Hv Hflows Hfin Hs).
  rewrite run_bare by reflexivity.
  rewrite (@finish_content _ (content_acts_free texts)), content_acts_texts by exact Hne.
  split; reflexivity.
Qed.

End Content.

(** C3. Content deltas and completion.  For every provider adapter and
    every way the transport cuts the stream into chunks: when the frames
    decoded from the stream are N frames each carrying one non-empty
    content delta (for Anthropic, bare or inside a text block), followed
    by the finish frame or by nothing, the session invokes [onChunk]
    exactly N times, each time with the delta text and the previous
    accumulated text extended by it, and then [onComplete] exactly once
    with the last accumulated text; it invokes nothing else. *)
Theorem C3_content_deltas_then_completion `{Engine}
  (p : ProviderKind) (cb : Callbacks) (req : Request)
  (chunks : list string) (texts : list string) (fin : list JsVal) :
  valid (adapter_of p) req ->
  Forall (fun text => text <> EmptyString) texts ->
  ending p fin ->
  (stream_frames p chunks = map (content_frame p) texts ++ fin
   \/ stream_frames p chunks = encode_stream p (map Content texts) ++ fin) ->
  trace (adapter_of p) cb req (streaming chunks [])
  = chunk_calls EmptyString texts ++ [OnComplete (join texts)]
  /\ count is_chunk (trace (adapter_of p) cb req (streaming chunks [])) = List.length texts
  /\ count is_complete (trace (adapter_of p) cb req (streaming chunks [])) = 1.
Proof.
  intros Hv Hne Hfin Hs.
  assert (Ht : trace (adapter_of p) cb req (streaming chunks [])
               = chunk_calls EmptyString texts ++ [OnComplete (join texts)]).
  { destruct Hs as [Hs | Hs].
    - apply (@bare_content_session _ cb p req chunks texts fin Hv Hne Hfin Hs).
    - assert (Hall : all_content cb p (map Content texts))
        by (right; clear; induction texts; constructor; auto).
      destruct (@content_session _ cb p req chunks (map Content texts) fin Hv Hall Hfin Hs)
        as [_ Hc].
      rewrite (@delta_texts_content texts Hne) in Hc. exact Hc. }
  split; [exact Ht|]. rewrite Ht, !count_app, !count_single. simpl.
  assert (Hc : forall acc, count is_chunk (chunk_calls acc texts) = List.length texts
                           /\ count is_complete (chunk_calls acc texts) = 0).
  { clear. induction texts as [|t texts IH]; intros acc; [split; reflexivity|].
    destruct (IH (acc ++ t)%string) as [IH1 IH2].
    cbn [chunk_calls]. change (OnChunk (JStr t) (acc ++ t) :: chunk_calls (acc ++ t) texts)
      with ([OnChunk (JStr t) (acc ++ t)] ++ chunk_calls (acc ++ t) texts).
    rewrite !count_app, !count_single, IH1, IH2. split; reflexivity. }
  destruct (Hc EmptyString) as [-> ->]. split; lia.
Qed.

(** The invocations of a run of content deltas: [onChunk] once for each,
    and no other callback. *)
Lemma chunk_calls_counts texts : forall acc,
  count is_chunk (chunk_calls acc texts) = List.length texts
  /\ count is_complete (chunk_calls acc texts) = 0
  /\ count is_error (chunk_calls acc texts) = 0.
Proof.
  induction texts as [|t texts IH]; intros acc; [repeat split|].
  destruct (IH (acc ++ t)%string) as (IH1 & IH2 & IH3).
  cbn [chunk_calls].
  change (OnChunk (JStr t) (acc ++ t) :: chunk_calls (acc ++ t) texts)
    with ([OnChunk (JStr t) (acc ++ t)] ++ chunk_calls (acc ++ t) texts).
  rewrite !count_app, !count_single, IH1, IH2, IH3. repeat split.
Qed.

(** C9. Malformed frame tolerance.  For every provider adapter and every
    chunking: a [data: ] line whose payload [JSON.parse] rejects is
    skipped in every state, without any callback, so that the lines of
    a chunk, whatever they carry, are handled as if the line were not
    among them.  So when such a line stands anywhere in a stream whose
    other lines carry content frames, or no frame at all (blank lines,
    comments, the end marker), up to the finish frame or the end of the
    stream, and in particular when it stands between two content
    frames, every content frame produces its [onChunk] invocation,
    [onError] is not invoked, and the session completes with
    [onComplete] on the whole content. *)
Theorem C9_malformed_line_is_skipped `{Engine}
  (p : ProviderKind) (cb : Callbacks) (req : Request) (chunks : list string)
  (before after : list string) (bad payload : string)
  (texts : list string) (fin : list JsVal) :
  valid (adapter_of p) req ->
  fst (feed EmptyString chunks) = before ++ bad :: after ->
  data_payload bad = Some payload -> JSON_parse payload = None ->
  Forall (fun text => text <> EmptyString) texts ->
  ending p fin ->
  (frames_of p before ++ frames_of p after = map (content_frame p) texts ++ fin
   \/ frames_of p before ++ frames_of p after = encode_stream p (map Content texts) ++ fin) ->
  (forall st, process_line (adapter_of p) cb bad st = (Next, st))
  /\ (forall lines1 lines2 st,
        process_lines (adapter_of p) cb (lines1 ++ bad :: lines2) st
        = process_lines (adapter_of p) cb (lines1 ++ lines2) st)
  /\ fst (sendStreamingMessage (adapter_of p) cb req (streaming chunks [])) = inl tt
  /\ trace (adapter_of p) cb req (streaming chunks [])
     = chunk_calls EmptyString texts ++ [OnComplete (join texts)]
  /\ count is_chunk (trace (adapter_of p) cb req (streaming chunks [])) = List.length texts
  /\ count is_error (trace (adapter_of p) cb req (streaming chunks [])) = 0.
Proof.
  intros Hv Hlines Hbad Hparse Hne Hfin Hs.
  assert (Hnone : frame_of p bad = None).
  { unfold frame_of. rewrite Hbad, Hparse.
    destruct p; [destruct (String.eqb payload "[DONE]")| |]; reflexivity. }
  assert (Hframes : stream_frames p chunks = frames_of p before ++ frames_of p after).
  { unfold stream_frames. rewrite Hlines, frames_of_app. f_equal.
    unfold frames_of. cbn [flat_map]. rewrite Hnone. reflexivity. }
  rewrite <- Hframes in Hs.
  assert (Hrun : fst (sendStreamingMessage (adapter_of p) cb req (streaming chunks [])) = inl tt
                 /\ trace (adapter_of p) cb req (streaming chunks [])
                    = chunk_calls EmptyString texts ++ [OnComplete (join texts)]).
  { destruct Hs as [Hs | Hs].
    - apply (@bare_content_session _ cb p req chunks texts fin Hv Hne Hfin Hs).
    - assert (Hall : all_content cb p (map Content texts))
        by (right; clear; induction texts; constructor; auto).
      destruct (@content_session _ cb p req chunks (map Content texts) fin Hv Hall Hfin Hs)
        as [Hexit Hc].
      rewrite (@delta_texts_content texts Hne) in Hc. split; assumption. }
  destruct Hrun as [Hexit Htrace].
  assert (Hskip : forall st, process_line (adapter_of p) cb bad st = (Next, st)).
  { intros st. rewrite process_line_frame, Hnone. reflexivity. }
  split; [exact Hskip | split; [|split; [exact Hexit | split; [exact Htrace|]]]].
  - intros lines1 lines2. induction lines1 as [|l lines1 IH]; intros st.
    + cbn [app process_lines]. rewrite Hskip. reflexivity.
    + cbn [app process_lines].
      destruct (process_line (adapter_of p) cb l st) as [[| |] st']; [apply IH | |]; reflexivity.
  - rewrite Htrace, !count_app, !count_single.
    destruct (chunk_calls_counts texts EmptyString) as (-> & _ & ->). split; simpl; lia.
Qed.

(** C10. Thinking text without a reasoning callback (Anthropic).  When
    the caller supplies no [onReasoningChunk]: a text delta that arrives
    while the open block is a thinking block is appended to the content
    buffer and delivered through [onChunk], and leaves the reasoning
    buffer as it is; and on a whole stream of thinking and text blocks,
    every non-empty delta, of either kind of block, is delivered through
    [onChunk] in order and is part of the text given to [onComplete]. *)
Theorem C10_thinking_text_without_reasoning_callback `{Engine}
  (cb : Callbacks) (req : Request) (chunks : list string)
  (frames : list Frame) (fin : list JsVal) :
  onReasoningChunk cb = false ->
  valid anthropic req ->
  ending AnthropicKind fin ->
  stream_frames AnthropicKind chunks = anthropic_stream None frames ++ fin ->
  (forall st text,
      currentBlockType st = JStr "thinking" -> text <> EmptyString ->
      let st' := snd (handle AnthropicKind cb (anthropic_text_delta text) st) in
      fullContent st' = (fullContent st ++ text)%string
      /\ fullReasoning st' = fullReasoning st
      /\ calls st' = calls st
                     ++ (if reasoning_pending cb st then [OnReasoningComplete] else [])
                     ++ [OnChunk (JStr text) (fullContent st ++ text)])
  /\ trace anthropic cb req (streaming chunks [])
     = chunk_calls EmptyString (delta_texts frames)
       ++ [OnComplete (join (delta_texts frames))].
Proof.
  intros Hno Hv Hfin Hs. split.
  - intros st text Hb Hne st'. subst st'.
    rewrite handle_anthropic_delta, Hb, Hno. cbn [snd is_string andb].
    replace (String.eqb "thinking" "thinking" && false) with false by reflexivity.
    destruct text as [|c text]; [congruence|].
    cbn [act_step is_empty]. unfold close_reasoning, bind, get, when.
    destruct (reasoning_pending cb st); cbn; rewrite <- ?app_assoc; repeat split.
  - apply (@content_session _ cb AnthropicKind req chunks frames fin Hv);
      [left | exact Hfin | exact Hs].
    split; [reflexivity | exact Hno].
Qed.

End ContentStreams.

(* ===================================================================== *)
(** * Ends of a session: end marker, error frames, cancellation *)
(* ===================================================================== *)

Module Paths.
Import Text Js Session Controller Decoder Frames Terminal DecoderFacts Run Acts Completion.
Open Scope js_scope.

(** A computation that never asks to return from the function. *)
Definition no_return (m : M Signal) : Prop :=
  forall st, fst (m st) <> inl Return.

Lemma no_return_bind A (m : M A) (k : A -> M Signal) :
  (forall a, no_return (k a)) -> no_return (bind m k).
Proof.
  intros Hk st. unfold bind. destruct (m st) as [[a|e] st1]; [apply Hk | discriminate].
Qed.

Lemma no_return_ret sg : sg <> Return -> no_return (ret sg).
Proof. intros Hs st. simpl. congruence. Qed.

Lemma no_return_throw e : no_return (throw e).
Proof. intros st. discriminate. Qed.

Ltac no_return_steps :=
  repeat first
    [ apply no_return_bind; intros ?
    | apply no_return_ret; discriminate
    | apply no_return_throw
    | match goal with
      | |- no_return (if ?b then _ else _) => destruct b
      end ].

Section Paths.
Context `{Engine}.

Lemma openai_no_return cb parsed : no_return (OpenAI.handle_frame cb parsed).
Proof. unfold OpenAI.handle_frame. no_return_steps. Qed.

Lemma gemini_no_return cb parsed : no_return (Gemini.handle_frame cb parsed).
Proof. unfold Gemini.handle_frame. no_return_steps. Qed.

(** The OpenAI and Gemini adapters never return from inside the loop. *)
Lemma line_never_returns p cb line st :
  p <> AnthropicKind -> fst (process_line (adapter_of p) cb line st) <> Return.
Proof.
  intros Hp. rewrite process_line_frame.
  destruct (frame_of p line) as [parsed|]; [|discriminate].
  unfold handle, try_frame. destruct p; [| congruence |].
  - pose proof (openai_no_return cb parsed st) as Hn.
    destruct (OpenAI.handle_frame cb parsed st) as [[sg|e] st1]; simpl in *; congruence.
  - pose proof (gemini_no_return cb parsed st) as Hn.
    destruct (Gemini.handle_frame cb parsed st) as [[sg|e] st1]; simpl in *; congruence.
Qed.

Section Loop.
Variable a : Adapter.
Variable cb : Callbacks.

(** The read loop over chunks and then over the rest of the script. *)
Lemma read_loop_app chunks : forall after buffer st,
  read_loop a cb (map ReadChunk chunks ++ after) buffer st
  = match read_loop a cb (map ReadChunk chunks) buffer st with
    | (inl Finished, st1) => read_loop a cb after (snd (feed buffer chunks)) st1
    | other => other
    end.
Proof.
  induction chunks as [|v rest IH]; intros after buffer st.
  - simpl. destruct (read_loop a cb after buffer st) as [[[|]|e] st1]; reflexivity.
  - cbn [map app read_loop feed].
    destruct (decode_chunk buffer v) as [lines b'].
    destruct (process_lines a cb lines st) as [[|] st1]; [reflexivity|].
    rewrite IH. destruct (feed b' rest) as [more final]. reflexivity.
Qed.

Hypothesis never_returns : forall line st, fst (process_line a cb line st) <> Return.

Lemma process_lines_never_return lines : forall st, fst (process_lines a cb lines st) = false.
Proof.
  induction lines as [|l lines IH]; intros st; [reflexivity|].
  cbn [process_lines]. pose proof (never_returns l st) as Hn.
  destruct (process_line a cb l st) as [[| |] st1]; simpl in *;
    [apply IH | reflexivity | congruence].
Qed.

Lemma read_loop_chunks_finish chunks : forall buffer st,
  exists st1, read_loop a cb (map ReadChunk chunks) buffer st = (inl Finished, st1).
Proof.
  induction chunks as [|v rest IH]; intros buffer st.
  - exists st. reflexivity.
  - cbn [map read_loop]. destruct (decode_chunk buffer v) as [lines b'].
    pose proof (process_lines_never_return lines st) as Hn.
    destruct (process_lines a cb lines st) as [[|] st1]; simpl in Hn; [discriminate|].
    apply IH.
Qed.

End Loop.

(** The session on a transport that answers 200 and streams. *)
Lemma streaming_session p cb req chunks after :
  valid (adapter_of p) req ->
  sendStreamingMessage (adapter_of p) cb req (streaming chunks after)
  = try_catch
      (exit <- read_loop (adapter_of p) cb (map ReadChunk chunks ++ after) EmptyString ;;
       match exit with
       | Returned => ret tt
       | Finished => finish cb
       end)
      (catch_block (adapter_of p) cb) initial.
Proof.
  intros (Hk & Hm & Hmsg & Hu).
  unfold sendStreamingMessage, try_catch, try_block, bind, validate.
  rewrite Hk, Hm. destruct (messages req) as [|m ms] eqn:Em; [congruence|].
  assert (Hbase : checks_baseUrl (adapter_of p) && is_empty (baseUrl req) = false).
  { destruct (checks_baseUrl (adapter_of p)); [rewrite Hu; reflexivity | reflexivity]. }
  rewrite Hbase. reflexivity.
Qed.

(** No exception leaves [sendStreamingMessage], whatever happens. *)
Lemma no_exception_escapes p cb req net :
  fst (sendStreamingMessage (adapter_of p) cb req net) = inl tt.
Proof. apply session_terminal. intros line. apply process_line_ok. Qed.

(** The state in which the read loop leaves a session that nothing ended
    before: nothing terminal was invoked. *)
Lemma loop_state_clean p cb steps buffer st1 :
  read_loop (adapter_of p) cb steps buffer initial = (inl Finished, st1) ->
  completeCalled st1 = false /\ count is_error (calls st1) = 0
  /\ count is_complete (calls st1) = 0.
Proof.
  intros Hl.
  destruct (@read_loop_ok (adapter_of p) cb (fun line => process_line_ok p cb line)
              steps buffer initial) as (H1 & H2 & H3).
  rewrite Hl in H1, H2, H3. simpl in H1, H2, H3.
  change (count is_complete []) with 0 in H2. change (count is_error []) with 0 in H3.
  repeat split; [exact H1 | lia | exact H2].
Qed.

(** OpenAI and Gemini: a session whose transport answers 200 and streams
    to the end never invokes [onError], whatever the frames. *)
Lemma stream_never_reports p cb req chunks :
  p <> AnthropicKind ->
  valid (adapter_of p) req ->
  count is_error (trace (adapter_of p) cb req (streaming chunks [])) = 0.
Proof.
  intros Hp Hv. unfold trace.
  rewrite (@streaming_session p cb req chunks [] Hv), app_nil_r.
  destruct (@read_loop_chunks_finish (adapter_of p) cb
              (fun l s => @line_never_returns p cb l s Hp) chunks EmptyString initial)
    as [st1 Hl].
  destruct (loop_state_clean p cb _ _ Hl) as (Hc & Hn & _).
  unfold try_catch, bind. rewrite Hl.
  destruct (@finish_run cb st1 Hc) as [Hf Hcalls].
  destruct (finish cb st1) as [r st2]. simpl in *. subst r. simpl.
  rewrite Hcalls, !count_app, Hn, !count_single.
  destruct (reasoning_pending cb st1); reflexivity.
Qed.

(** An Anthropic error frame is reported through [onError] and ends the
    session. *)
Lemma anthropic_error_frame_reports cb message st :
  message <> EmptyString ->
  handle AnthropicKind cb (anthropic_error message) st
  = (Return, snd (call (OnError message) st)).
Proof. intros Hm. destruct message; [congruence | reflexivity]. Qed.

(** A Gemini error frame: the exception thrown for it is caught by the
    handler of parse failures, and nothing is invoked. *)
Lemma gemini_error_frame_swallowed cb message st :
  handle GeminiKind cb (gemini_error message) st = (Next, st).
Proof. reflexivity. Qed.

End Paths.

(** C4 (amended). The end marker of the OpenAI protocol.  A line whose
    payload is the literal [[DONE]] is skipped: it invokes no callback,
    changes nothing in the session and the loop goes on with the next
    line (later lines are still handled).  It does not invoke
    [onComplete]: no [onComplete] is invoked inside the read loop at all,
    and on a stream that ends normally [onComplete] is the last
    invocation of the session, made after the loop has ended. *)
Theorem C4_done_marker_is_skipped `{Engine}
  (cb : Callbacks) (req : Request) (chunks : list string) (line : string) (st : State) :
  valid openai req ->
  data_payload line = Some "[DONE]" ->
  process_line openai cb line st = (Next, st)
  /\ (forall steps buffer st0,
        count is_complete (calls (snd (read_loop openai cb steps buffer st0)))
        = count is_complete (calls st0))
  /\ exists before text,
       trace openai cb req (streaming chunks []) = before ++ [OnComplete text]
       /\ count is_complete before = 0.
Proof.
  intros Hv Hline. split; [|split].
  - change openai with (adapter_of OpenAICompatible).
    rewrite process_line_frame. unfold frame_of. rewrite Hline. reflexivity.
  - intros steps buffer st0.
    apply (@read_loop_ok (adapter_of OpenAICompatible) cb
             (fun l => process_line_ok OpenAICompatible cb l) steps buffer st0).
  - unfold trace. change openai with (adapter_of OpenAICompatible).
    rewrite (@streaming_session _ OpenAICompatible cb req chunks [] Hv), app_nil_r.
    destruct (@read_loop_chunks_finish (adapter_of OpenAICompatible) cb
                (fun l s => @line_never_returns _ OpenAICompatible cb l s
                              ltac:(discriminate)) chunks EmptyString initial)
      as [st1 Hl].
    destruct (loop_state_clean OpenAICompatible cb _ _ Hl) as (Hc & _ & Hn).
    unfold try_catch, bind. rewrite Hl.
    destruct (@finish_run cb st1 Hc) as [Hf Hcalls].
    destruct (finish cb st1) as [r st2]. simpl in *. subst r. simpl.
    exists (calls st1 ++ (if reasoning_pending cb st1 then [OnReasoningComplete] else [])),
      (fullContent st1).
    split; [rewrite Hcalls, app_assoc; reflexivity|].
    rewrite count_app, Hn. destruct (reasoning_pending cb st1); reflexivity.
Qed.

(** C7 (amended). Cancellation mid-stream.  For every provider adapter,
    when the session is cancelled after some chunks and nothing ended it
    before, it ends by [onComplete] with the content accumulated so far
    and never by [onError].  When the cancellation surfaces as the
    rejection of the pending read with an AbortError, and reasoning text
    had accumulated without being marked complete, the adapter first
    invokes [onReasoningChunk] with an empty delta and the accumulated
    reasoning, then [onReasoningComplete] (each if supplied), then
    [onComplete].  When the cancellation is observed by the check of the
    abort flag, the session ends as a stream that ends normally:
    [onReasoningComplete] if reasoning is pending, then [onComplete]. *)
Theorem C7_cancellation_completes `{Engine}
  (p : ProviderKind) (cb : Callbacks) (req : Request) (chunks : list string)
  (rest : list Step) (e : JsError) (st1 : State) :
  valid (adapter_of p) req ->
  read_loop (adapter_of p) cb (map ReadChunk chunks) EmptyString initial = (inl Finished, st1) ->
  err_name e = "AbortError" ->
  trace (adapter_of p) cb req (streaming chunks (ReadRejects e :: rest))
  = calls st1
    ++ (if negb (is_empty (fullReasoning st1)) && negb (reasoningDone st1)
        then (if onReasoningChunk cb
              then [OnReasoningChunk (JStr EmptyString) (fullReasoning st1)] else [])
             ++ (if onReasoningComplete cb then [OnReasoningComplete] else [])
        else [])
    ++ [OnComplete (fullContent st1)]
  /\ trace (adapter_of p) cb req (streaming chunks (Aborted :: rest))
     = calls st1
       ++ (if reasoning_pending cb st1 then [OnReasoningComplete] else [])
       ++ [OnComplete (fullContent st1)]
  /\ count is_error (trace (adapter_of p) cb req (streaming chunks (ReadRejects e :: rest))) = 0
  /\ count is_error (trace (adapter_of p) cb req (streaming chunks (Aborted :: rest))) = 0.
Proof.
  intros Hv Hl He.
  destruct (loop_state_clean p cb _ _ Hl) as (Hc & Hn & _).
  assert (H1 : trace (adapter_of p) cb req (streaming chunks (ReadRejects e :: rest))
               = calls st1 ++ abort_calls cb st1).
  { unfold trace. rewrite (@streaming_session _ p cb req chunks _ Hv).
    unfold try_catch, bind. rewrite read_loop_app, Hl. cbn [read_loop throw].
    apply (@catch_abort_run (adapter_of p) cb e st1 He Hc). }
  assert (H2 : trace (adapter_of p) cb req (streaming chunks (Aborted :: rest))
               = calls st1
                 ++ (if reasoning_pending cb st1 then [OnReasoningComplete] else [])
                 ++ [OnComplete (fullContent st1)]).
  { unfold trace. rewrite (@streaming_session _ p cb req chunks _ Hv).
    unfold try_catch, bind. rewrite read_loop_app, Hl. cbn [read_loop ret].
    destruct (@finish_run cb st1 Hc) as [Hf Hcalls].
    destruct (finish cb st1) as [r st2]. simpl in *. subst r. exact Hcalls. }
  split; [exact H1 | split; [exact H2 | split]].
  - rewrite H1. unfold abort_calls. rewrite !count_app, Hn, !count_single.
    destruct (negb (is_empty (fullReasoning st1)) && negb (reasoningDone st1));
      destruct (onReasoningChunk cb); destruct (onReasoningComplete cb); reflexivity.
  - rewrite H2, !count_app, Hn, !count_single.
    destruct (reasoning_pending cb st1); reflexivity.
Qed.

End Paths.

(* ===================================================================== *)
(** * Reasoning before content *)
(* ===================================================================== *)

Module ReasoningOrder.
Import Text Js Session Controller Decoder Frames Terminal DecoderFacts Run Acts.
Import Completion ContentStreams.
Open Scope js_scope.










Section Order.
Context `{Engine}.
Variable cb : Callbacks.
Hypothesis has_complete : onReasoningComplete cb = true.





Hypothesis has_chunk : onReasoningChunk cb = true.





End Order.


End ReasoningOrder.

(* ===================================================================== *)
(** * Concrete runs of the theorems *)
(* ===================================================================== *)

Module Runs.
Import Text Js Session Controller Decoder Frames Examples ContentStreams.
Import Reference.

Lemma request_valid p : valid (adapter_of p) request.
Proof. repeat split; try discriminate. Qed.

Lemma C3_witness :
  trace (adapter_of OpenAICompatible) all_callbacks request (streaming hi_there [])
  = [OnChunk (JStr "Hi") "Hi"; OnChunk (JStr " there") "Hi there"; OnComplete "Hi there"]
  /\ count is_chunk
       (trace (adapter_of OpenAICompatible) all_callbacks request (streaming hi_there [])) = 2
  /\ count is_complete
       (trace (adapter_of OpenAICompatible) all_callbacks request (streaming hi_there [])) = 1.
Proof.
  apply (@C3_content_deltas_then_completion engine OpenAICompatible all_callbacks request
           hi_there ["Hi"; " there"] []).
  - apply request_valid.
  - repeat constructor; discriminate.
  - left; reflexivity.
  - left. vm_compute. reflexivity.
Defined.

Lemma C9_witness :
  (forall st,
      process_line (adapter_of OpenAICompatible) all_callbacks
        (dq "data: {'choices':[{'delta':") st = (Next, st))
  /\ (forall lines1 lines2 st,
        process_lines (adapter_of OpenAICompatible) all_callbacks
          (lines1 ++ dq "data: {'choices':[{'delta':" :: lines2) st
        = process_lines (adapter_of OpenAICompatible) all_callbacks (lines1 ++ lines2) st)
  /\ fst (sendStreamingMessage (adapter_of OpenAICompatible) all_callbacks request
            (streaming corrupt_line_framed [])) = inl tt
  /\ trace (adapter_of OpenAICompatible) all_callbacks request (streaming corrupt_line_framed [])
     = [OnChunk (JStr "Hi") "Hi"; OnChunk (JStr " there") "Hi there"; OnComplete "Hi there"]
  /\ count is_chunk
       (trace (adapter_of OpenAICompatible) all_callbacks request
          (streaming corrupt_line_framed [])) = 2
  /\ count is_error
       (trace (adapter_of OpenAICompatible) all_callbacks request
          (streaming corrupt_line_framed [])) = 0.
Proof.
  apply (@C9_malformed_line_is_skipped engine OpenAICompatible all_callbacks request
           corrupt_line_framed
           [dq "data: {'choices':[{'delta':{'content':'Hi'}}]}"; EmptyString]
           [EmptyString; dq "data: {'choices':[{'delta':{'content':' there'}}]}"; EmptyString;
            dq "data: {'choices':[{'delta':{},'finish_reason':'stop'}]}"; EmptyString;
            "data: [DONE]"; EmptyString]
           (dq "data: {'choices':[{'delta':")
           (dq "{'choices':[{'delta':")
           ["Hi"; " there"] [finish_frame OpenAICompatible]).
  - apply request_valid.
  - vm_compute. reflexivity.
  - vm_compute. reflexivity.
  - vm_compute. reflexivity.
  - repeat constructor; discriminate.
  - right; reflexivity.
  - left. vm_compute. reflexivity.
Defined.

Lemma C10_witness :
  trace anthropic no_reasoning_callbacks request (streaming anthropic_thinking [])
  = [OnChunk (JStr "Let me think") "Let me think";
     OnChunk (JStr "Answer") "Let me thinkAnswer";
     OnComplete "Let me thinkAnswer"].
Proof.
  apply (@C10_thinking_text_without_reasoning_callback engine no_reasoning_callbacks request
           anthropic_thinking [Reasoning "Let me think"; Content "Answer"]
           [finish_frame AnthropicKind]).
  - reflexivity.
  - apply (request_valid AnthropicKind).
  - right; reflexivity.
  - vm_compute. reflexivity.
Defined.

(** C4, the claim as stated fails: a line that follows the end marker is
    parsed and its content delivered, so the session is not the session
    of the stream cut at the marker. *)
Lemma C4_counterexample :
  trace openai all_callbacks request (streaming late_frame [])
  = [OnChunk (JStr "late") "late"; OnComplete "late"]
  /\ trace openai all_callbacks request (streaming late_frame [])
     <> trace openai all_callbacks request (streaming done_only []).
Proof. split; [vm_compute; reflexivity | vm_compute; discriminate]. Qed.

Lemma C4_witness :
  process_line openai all_callbacks (dq "data: [DONE]") initial = (Next, initial)
  /\ (forall steps buffer st0,
        count is_complete (calls (snd (read_loop openai all_callbacks steps buffer st0)))
        = count is_complete (calls st0))
  /\ exists before text,
       trace openai all_callbacks request (streaming late_frame [])
       = before ++ [OnComplete text]
       /\ count is_complete before = 0.
Proof.
  apply (@Paths.C4_done_marker_is_skipped engine all_callbacks request late_frame
           (dq "data: [DONE]") initial).
  - apply (request_valid OpenAICompatible).
  - vm_compute. reflexivity.
Defined.

(** C5, at the failing input: a Gemini stream that reports an error in
    band.  The frame is handled without any callback, for every state
    and message; no Gemini session whose transport answers 200 and
    streams to the end invokes [onError], whatever its frames; and the
    session on the stream that reports the error ends by [onComplete]
    with empty content. *)
Theorem C5_gemini_error_frame_is_swallowed :
  (forall (E : Engine) cb message st,
      handle GeminiKind cb (gemini_error message) st = (Next, st))
  /\ (forall (E : Engine) cb req chunks,
        valid gemini req ->
        count is_error (trace gemini cb req (streaming chunks [])) = 0)
  /\ trace gemini all_callbacks request (streaming gemini_error_stream [])
     = [OnComplete EmptyString].
Proof.
  split; [intros; reflexivity | split; [| vm_compute; reflexivity]].
  intros E cb req chunks Hv.
  apply (@Paths.stream_never_reports E GeminiKind cb req chunks); [discriminate | exact Hv].
Qed.

(** The same situation in the Anthropic adapter: the error is reported. *)
Lemma anthropic_error_stream_reports :
  trace anthropic all_callbacks request (streaming anthropic_error_stream [])
  = [OnError "Overloaded"].
Proof. vm_compute. reflexivity. Qed.

(** The Gemini adapter called with the reasoning callbacks. *)
Lemma gemini_adapter_with_callbacks :
  trace gemini all_callbacks request (streaming gemini_thought_stream [])
  = [OnReasoningChunk (JStr "Let me think") "Let me think"; OnReasoningComplete;
     OnChunk (JStr "Answer") "Answer"; OnComplete "Answer"].
Proof. vm_compute. reflexivity. Qed.

(** C6, at the failing input: a session routed to the Gemini provider by
    the chat client, with all the callbacks supplied by the caller.  The
    router passes no reasoning callback to the adapter, so a thought part
    is dropped, for every state and text, and the session invokes
    neither [onReasoningChunk] nor [onReasoningComplete]. *)
Theorem C6_routed_gemini_drops_thoughts :
  (forall (E : Engine) text st,
      handle GeminiKind Router.gemini_callbacks (reasoning_frame GeminiKind text) st
      = (Next, st))
  /\ calls (snd (Router.sendStreamingMessage (fun _ => None) "gemini" None
                   all_callbacks request (streaming gemini_thought_stream [])))
     = [OnChunk (JStr "Answer") "Answer"; OnComplete "Answer"].
Proof.
  split; [| vm_compute; reflexivity].
  intros E text st. rewrite Acts.handle_gemini_reasoning. reflexivity.
Qed.

(** C7, the claim as stated fails: a cancellation observed by the check of
    the abort flag, after a reasoning frame.  The reasoning is marked
    complete and the session completes, but [onReasoningChunk] is not
    invoked with an empty delta and the accumulated reasoning. *)
Lemma C7_counterexample :
  trace openai all_callbacks request (streaming reasoning_only [Aborted])
  = [OnReasoningChunk (JStr "Let me think") "Let me think";
     OnReasoningComplete; OnComplete EmptyString]
  /\ ~ In (OnReasoningChunk (JStr EmptyString) "Let me think")
         (trace openai all_callbacks request (streaming reasoning_only [Aborted])).
Proof.
  assert (E : trace openai all_callbacks request (streaming reasoning_only [Aborted])
              = [OnReasoningChunk (JStr "Let me think") "Let me think";
                 OnReasoningComplete; OnComplete EmptyString])
    by (vm_compute; reflexivity).
  split; [exact E|]. rewrite E. simpl. intros [F|[F|[F|[]]]]; discriminate.
Qed.

Lemma C7_witness :
  trace (adapter_of OpenAICompatible) all_callbacks request
    (streaming reasoning_only [ReadRejects AbortError])
  = [OnReasoningChunk (JStr "Let me think") "Let me think";
     OnReasoningChunk (JStr EmptyString) "Let me think";
     OnReasoningComplete; OnComplete EmptyString]
  /\ trace (adapter_of OpenAICompatible) all_callbacks request
       (streaming reasoning_only [Aborted])
     = [OnReasoningChunk (JStr "Let me think") "Let me think";
        OnReasoningComplete; OnComplete EmptyString]
  /\ count is_error (trace (adapter_of OpenAICompatible) all_callbacks request
                       (streaming reasoning_only [ReadRejects AbortError])) = 0
  /\ count is_error (trace (adapter_of OpenAICompatible) all_callbacks request
                       (streaming reasoning_only [Aborted])) = 0.
Proof.
  apply (@Paths.C7_cancellation_completes engine OpenAICompatible all_callbacks request
           reasoning_only [] AbortError
           {| fullContent := EmptyString; fullReasoning := "Let me think";
              reasoningDone := false; completeCalled := false; currentBlockType := JNull;
              calls := [OnReasoningChunk (JStr "Let me think") "Let me think"] |}).
  - apply (request_valid OpenAICompatible).
  - vm_compute. reflexivity.
  - reflexivity.
Defined.


(** The Anthropic thinking scenario of the specification. *)
Lemma anthropic_thinking_scenario :
  trace anthropic all_callbacks request (streaming anthropic_thinking [])
  = [OnReasoningChunk (JStr "Let me think") "Let me think"; OnReasoningComplete;
     OnChunk (JStr "Answer") "Answer"; OnComplete "Answer"].
Proof. vm_compute. reflexivity. Qed.

(** A finish frame of the OpenAI protocol leaves the loop over the lines
    of its chunk only: what follows it in the same chunk is not handled,
    what arrives in a later chunk is. *)
Lemma lines_after_finish_frame :
  trace openai all_callbacks request (streaming after_finish_one_chunk [])
  = [OnComplete EmptyString]
  /\ trace openai all_callbacks request (streaming after_finish_two_chunks [])
     = [OnChunk (JStr "more") "more"; OnComplete "more"].
Proof. split; vm_compute; reflexivity. Qed.

End Runs.

(* ===================================================================== *)
(** * Invariants of a session *)
(* ===================================================================== *)

(** A property of the session state that every step of a session keeps
    is proved once along the structure of the handlers. *)
Module Invariants.
Import Text Js Session Controller Decoder Frames Terminal DecoderFacts Completion Paths.
Open Scope js_scope.

(** A step that keeps the property [I] of the state. *)
Definition preserves {X} (I : State -> Prop) (f : State -> X * State) : Prop :=
  forall st, I st -> I (snd (f st)).

Section Rules.
Variable I : State -> Prop.

Lemma preserves_ret A (a : A) : preserves I (ret a).
Proof. intros st Hs. exact Hs. Qed.

Lemma preserves_throw A e : preserves I (@throw A e).
Proof. intros st Hs. exact Hs. Qed.

Lemma preserves_lift A (r : A + JsError) : preserves I (lift r).
Proof. intros st Hs. exact Hs. Qed.

Lemma preserves_get A (f : State -> A) : preserves I (get f).
Proof. intros st Hs. exact Hs. Qed.

Lemma preserves_bind A B (m : M A) (k : A -> M B) :
  preserves I m -> (forall a, preserves I (k a)) -> preserves I (bind m k).
Proof.
  intros Hm Hk st Hs. unfold bind. specialize (Hm st Hs).
  destruct (m st) as [[a|e] st1]; simpl in *; [apply Hk; exact Hm | exact Hm].
Qed.

Lemma preserves_when b (m : M unit) : (b = true -> preserves I m) -> preserves I (when b m).
Proof. intros Hm. destruct b; simpl; [apply Hm; reflexivity | apply preserves_ret]. Qed.

Lemma preserves_for_each A (l : list A) (body : A -> M unit) :
  (forall x, preserves I (body x)) -> preserves I (for_each l body).
Proof.
  intros Hb. induction l as [|x l IH]; simpl; [apply preserves_ret|].
  apply preserves_bind; [apply Hb | intros _; exact IH].
Qed.

Lemma preserves_try_frame (m : M Signal) : preserves I m -> preserves I (try_frame m).
Proof.
  intros Hm st Hs. unfold try_frame. specialize (Hm st Hs).
  destruct (m st) as [[sg|e] st1]; exact Hm.
Qed.

End Rules.

Ltac split_tests :=
  repeat match goal with
         | T : _ && _ = true |- _ => apply andb_prop in T; destruct T
         end.

Section Handlers.
Context `{Engine}.
Variable I : State -> Prop.
Variable cb : Callbacks.

(** What the handlers do to the state: a content delta is delivered (its
    value is truthy), a reasoning delta is delivered (its value is
    truthy and [onReasoningChunk] was supplied), the reasoning is marked
    complete, the type of the open block is set, an error is reported. *)
Hypothesis I_content : forall v, truthy v = true -> preserves I (deliver_content v).
Hypothesis I_reasoning : forall v,
  truthy v = true -> onReasoningChunk cb = true -> preserves I (deliver_reasoning v).
Hypothesis I_close : preserves I (close_reasoning cb).
Hypothesis I_block : forall v, preserves I (set_currentBlockType v).
Hypothesis I_error : forall message, preserves I (call (OnError message)).

(** Applies the rules along the structure of a handler, keeping the
    tests passed on the way. *)
Ltac handler_steps :=
  repeat first
    [ apply I_close | apply I_block | apply I_error
    | apply I_content; split_tests; first [assumption | reflexivity]
    | apply I_reasoning; split_tests; assumption
    | apply preserves_bind; [| intros ?]
    | apply preserves_ret | apply preserves_throw | apply preserves_lift | apply preserves_get
    | apply preserves_for_each; intros ?
    | apply preserves_when; intros ?
    | match goal with
      | |- preserves _ (if ?b then _ else _) => destruct b eqn:?
      | |- preserves _ (match ?x with _ => _ end) => destruct x eqn:?
      end ].

Lemma openai_preserves parsed : preserves I (OpenAI.handle_frame cb parsed).
Proof.
  unfold OpenAI.handle_frame, OpenAI.reasoning_text, OpenAI.content_images,
    OpenAI.generated_images.
  handler_steps.
Qed.

Lemma anthropic_preserves parsed : preserves I (Anthropic.handle_frame cb parsed).
Proof.
  unfold Anthropic.handle_frame, Anthropic.content_block_delta, Anthropic.content_block_stop.
  handler_steps.
Qed.

Lemma gemini_preserves parsed : preserves I (Gemini.handle_frame cb parsed).
Proof.
  unfold Gemini.handle_frame, Gemini.handle_candidates, Gemini.handle_part.
  handler_steps.
Qed.

Lemma process_line_preserves p line : preserves I (process_line (adapter_of p) cb line).
Proof.
  intros st Hs. rewrite process_line_frame.
  destruct (frame_of p line) as [parsed|]; [|exact Hs].
  unfold handle. apply preserves_try_frame; [|exact Hs].
  destruct p; [apply openai_preserves | apply anthropic_preserves | apply gemini_preserves].
Qed.

Lemma process_lines_preserves p lines :
  preserves I (process_lines (adapter_of p) cb lines).
Proof.
  induction lines as [|l lines IH]; intros st Hs; [exact Hs|].
  cbn [process_lines]. pose proof (process_line_preserves p l Hs) as H1.
  destruct (process_line (adapter_of p) cb l st) as [[| |] st1]; simpl in *;
    [apply IH; exact H1 | exact H1 | exact H1].
Qed.

Lemma read_loop_preserves p steps : forall buffer,
  preserves I (read_loop (adapter_of p) cb steps buffer).
Proof.
  induction steps as [|s steps IH]; intros buffer st Hs; [exact Hs|].
  destruct s as [value|e|]; [|exact Hs|exact Hs].
  cbn [read_loop]. destruct (decode_chunk buffer value) as [lines b'].
  pose proof (process_lines_preserves p lines Hs) as H1.
  destruct (process_lines (adapter_of p) cb lines st) as [[|] st1]; simpl in *;
    [exact H1 | apply IH; exact H1].
Qed.

End Handlers.

End Invariants.

(* ===================================================================== *)
(** * How a session ends *)
(* ===================================================================== *)

Module Endings.
Import Text Js Session Controller Decoder Frames Terminal DecoderFacts Completion Paths.
Import Invariants.
Open Scope js_scope.

(** The last invocations of a session, from the state [st1] in which the
    read loop left it (the initial state, when the loop was not
    reached): an error is reported; the stream ended or the abort flag
    was seen; a pending call was rejected with an AbortError. *)
Inductive Ending (cb : Callbacks) (st1 : State) : list Event -> Prop :=
| Reported message : Ending cb st1 [OnError message]
| Ended :
    Ending cb st1 ((if reasoning_pending cb st1 then [OnReasoningComplete] else [])
                   ++ [OnComplete (fullContent st1)])
| Cancelled : Ending cb st1 (abort_calls cb st1).

(** A line handler that asks to return only after it has reported an
    error. *)
Definition return_reported (f : State -> Signal * State) : Prop :=
  forall st, fst (f st) = Return ->
    exists pre message, calls (snd (f st)) = pre ++ [OnError message].

Definition reports_then_returns (m : M Signal) : Prop :=
  forall st, fst (m st) = inl Return ->
    exists pre message, calls (snd (m st)) = pre ++ [OnError message].

Lemma reports_bind A (m : M A) (k : A -> M Signal) :
  (forall x, reports_then_returns (k x)) -> reports_then_returns (bind m k).
Proof.
  intros Hk st. unfold bind. destruct (m st) as [[x|e] st1]; [apply Hk | discriminate].
Qed.

Lemma reports_ret sg : sg <> Return -> reports_then_returns (ret sg).
Proof. intros Hs st. simpl. congruence. Qed.

Lemma reports_report message : reports_then_returns (call (OnError message) ;; ret Return).
Proof. intros st _. exists (calls st), message. reflexivity. Qed.

Section Lines.
Context `{Engine}.

Lemma anthropic_reports cb parsed : reports_then_returns (Anthropic.handle_frame cb parsed).
Proof.
  unfold Anthropic.handle_frame.
  apply reports_bind; intros ty.
  repeat match goal with
         | |- reports_then_returns (if ?b then _ else _) => destruct b
         end;
    first [ apply reports_report
          | apply reports_ret; discriminate
          | apply reports_bind; intros ?; apply reports_ret; discriminate ].
Qed.

Lemma process_line_reports p cb line : return_reported (process_line (adapter_of p) cb line).
Proof.
  intros st Hr.
  destruct p;
    [ exfalso; apply (@line_never_returns _ OpenAICompatible cb line st); [discriminate | exact Hr]
    | | exfalso; apply (@line_never_returns _ GeminiKind cb line st); [discriminate | exact Hr] ].
  rewrite process_line_frame in *.
  destruct (frame_of AnthropicKind line) as [parsed|]; [|discriminate].
  unfold handle, try_frame in *.
  pose proof (@anthropic_reports cb parsed st) as Ha.
  destruct (Anthropic.handle_frame cb parsed st) as [[sg|e] st1]; simpl in *; [|discriminate].
  apply Ha. congruence.
Qed.

End Lines.

Section Generic.
Variable a : Adapter.
Variable cb : Callbacks.
Hypothesis lines_ok : forall line, line_ok (process_line a cb line).
Hypothesis lines_report : forall line, return_reported (process_line a cb line).

Lemma process_lines_report lines : forall st,
  fst (process_lines a cb lines st) = true ->
  exists pre message, calls (snd (process_lines a cb lines st)) = pre ++ [OnError message].
Proof.
  induction lines as [|l lines IH]; intros st; [discriminate|].
  cbn [process_lines]. pose proof (lines_report l st) as Hl.
  destruct (process_line a cb l st) as [[| |] st1]; simpl in *;
    [apply IH | discriminate | intros _; apply Hl; reflexivity].
Qed.

Lemma read_loop_reports steps : forall buffer st st1,
  read_loop a cb steps buffer st = (inl Returned, st1) ->
  exists pre message, calls st1 = pre ++ [OnError message].
Proof.
  induction steps as [|s steps IH]; intros buffer st st1; [discriminate|].
  destruct s as [value|e|]; [|discriminate|discriminate].
  cbn [read_loop]. destruct (decode_chunk buffer value) as [lines b'].
  pose proof (process_lines_report lines st) as Hl.
  destruct (process_lines a cb lines st) as [[|] st2]; simpl in *.
  - intros E. injection E as <-. apply Hl. reflexivity.
  - apply IH.
Qed.

(** The [catch] block ends the session. *)
Lemma catch_block_ends e st :
  completeCalled st = false ->
  exists suffix, calls (snd (catch_block a cb e st)) = calls st ++ suffix
                 /\ Ending cb st suffix.
Proof.
  intros Hc. destruct (String.eqb (err_name e) "AbortError") eqn:Hn.
  - apply String.eqb_eq in Hn.
    destruct (@catch_abort_run a cb e st Hn Hc) as [_ H2].
    exists (abort_calls cb st). split; [exact H2 | constructor].
  - destruct (@catch_error_run a cb e st Hn) as [message ->].
    exists [OnError message]. split; [reflexivity | constructor].
Qed.

(** A session either returns from inside the read loop, after having
    reported an error, or runs the loop (if it reaches it) without any
    terminal callback and then ends. *)
Lemma session_cases req net :
  (exists st1 suffix,
      trace a cb req net = calls st1 ++ suffix /\ Ending cb st1 suffix
      /\ (exists steps, st1 = snd (read_loop a cb steps EmptyString initial))
      /\ count is_complete (calls st1) = 0 /\ count is_error (calls st1) = 0)
  \/ (exists steps st1 pre message,
        read_loop a cb steps EmptyString initial = (inl Returned, st1)
        /\ trace a cb req net = calls st1
        /\ calls st1 = pre ++ [OnError message]
        /\ count is_complete pre = 0 /\ count is_error pre = 0).
Proof.
  assert (Hcatch : forall e,
             calls (snd (catch_block a cb e initial)) = trace a cb req net ->
             exists st1 suffix,
               trace a cb req net = calls st1 ++ suffix /\ Ending cb st1 suffix
               /\ (exists steps, st1 = snd (read_loop a cb steps EmptyString initial))
               /\ count is_complete (calls st1) = 0 /\ count is_error (calls st1) = 0).
  { intros e He. destruct (@catch_block_ends e initial eq_refl) as (suffix & Hs & Hend).
    exists initial, suffix. rewrite <- He, Hs.
    repeat split; [exact Hend | exists []; reflexivity]. }
  unfold trace, sendStreamingMessage, try_catch in *.
  unfold try_block, bind in *.
  pose proof (@validate_state a req initial) as Hv.
  destruct (validate a req initial) as [[[]|e] st0]; simpl in Hv; subst st0;
    [| left; apply (Hcatch e); reflexivity].
  destruct net as [e|response]; [left; apply (Hcatch e); reflexivity|].
  destruct (ok response).
  - simpl in *. destruct (body response) as [steps|];
      [| left; apply (Hcatch TypeError_no_body); reflexivity].
    destruct (@read_loop_ok a cb lines_ok steps EmptyString initial) as (H1 & H2 & H3).
    change (calls initial) with (@nil Event) in H2, H3.
    change (count is_complete []) with 0 in H2. change (count is_error []) with 0 in H3.
    pose proof (@read_loop_reports steps EmptyString initial) as Hrep.
    destruct (read_loop a cb steps EmptyString initial) as [[[|]|e] st1] eqn:Hl; simpl in *.
    + left. destruct (@finish_run cb st1 H1) as [Hf Hcalls].
      destruct (finish cb st1) as [r st2]; simpl in *. subst r. simpl.
      exists st1, ((if reasoning_pending cb st1 then [OnReasoningComplete] else [])
                   ++ [OnComplete (fullContent st1)]).
      repeat split; [exact Hcalls | constructor | | exact H2 | lia].
      exists steps. rewrite Hl. reflexivity.
    + right. destruct (Hrep st1 eq_refl) as (pre & message & Hp).
      exists steps, st1, pre, message.
      rewrite Hp, !count_app, !count_single in H2, H3. simpl in H2, H3.
      repeat split; [exact Hl | exact Hp | lia | lia].
    + left. destruct (@catch_block_ends e st1 H1) as (suffix & Hs & Hend).
      exists st1, suffix. repeat split; [exact Hs | exact Hend | | exact H2 | lia].
      exists steps. rewrite Hl. reflexivity.
  - simpl in *. pose proof (@http_error_message_state response initial) as Hs.
    destruct (http_error_message response initial) as [[message|e] st0]; simpl in Hs; subst st0.
    + left. exists initial, [OnError message].
      repeat split; [constructor | exists []; reflexivity].
    + left. apply (Hcatch e). reflexivity.
Qed.

End Generic.

Section Adapters.
Context `{Engine}.

Lemma session_cases_of p cb req net :
  (exists st1 suffix,
      trace (adapter_of p) cb req net = calls st1 ++ suffix /\ Ending cb st1 suffix
      /\ (exists steps, st1 = snd (read_loop (adapter_of p) cb steps EmptyString initial))
      /\ count is_complete (calls st1) = 0 /\ count is_error (calls st1) = 0)
  \/ (exists steps st1 pre message,
        read_loop (adapter_of p) cb steps EmptyString initial = (inl Returned, st1)
        /\ trace (adapter_of p) cb req net = calls st1
        /\ calls st1 = pre ++ [OnError message]
        /\ count is_complete pre = 0 /\ count is_error pre = 0).
Proof.
  apply session_cases;
    [intros line; apply process_line_ok | intros line; apply process_line_reports].
Qed.

End Adapters.

End Endings.

(* ===================================================================== *)
(** * What every session guarantees to its callbacks *)
(* ===================================================================== *)

Module Guarantees.
Import Text Js Session Controller Decoder Frames Terminal DecoderFacts Completion Paths.
Import Invariants Endings.
Open Scope js_scope.

(** The text delivered through [onChunk] by a list of invocations, and
    the text delivered through [onReasoningChunk]. *)
Fixpoint delivered (l : list Event) : string :=
  match l with
  | [] => EmptyString
  | OnChunk v _ :: rest => (ToString v ++ delivered rest)%string
  | _ :: rest => delivered rest
  end.

Fixpoint reasoned (l : list Event) : string :=
  match l with
  | [] => EmptyString
  | OnReasoningChunk v _ :: rest => (ToString v ++ reasoned rest)%string
  | _ :: rest => reasoned rest
  end.

(** Every invocation of a trace satisfies [ok], given the invocations
    made before it. *)
Definition each_after (ok : list Event -> Event -> Prop) (l : list Event) : Prop :=
  forall pre e post, l = pre ++ e :: post -> ok pre e.

Lemma each_after_nil ok : each_after ok [].
Proof. intros pre e post E. destruct pre; discriminate. Qed.

Lemma each_after_snoc ok l e : each_after ok l -> ok l e -> each_after ok (l ++ [e]).
Proof.
  intros Hl He pre x post E.
  destruct (exists_last (l:=x :: post)) as (post' & y & Ey); [discriminate|].
  destruct post' as [|x' post'].
  - simpl in Ey. injection Ey as -> ->.
    apply app_inj_tail in E. destruct E as [-> ->]. exact He.
  - simpl in Ey. injection Ey as -> ->.
    rewrite app_comm_cons, app_assoc in E. apply app_inj_tail in E.
    destruct E as [-> ->]. eapply Hl. reflexivity.
Qed.

Lemma delivered_app l l' : delivered (l ++ l') = (delivered l ++ delivered l')%string.
Proof.
  induction l as [|e l IH]; [reflexivity|].
  destruct e; simpl; rewrite IH; try reflexivity. symmetry. apply string_app_assoc.
Qed.

Lemma reasoned_app l l' : reasoned (l ++ l') = (reasoned l ++ reasoned l')%string.
Proof.
  induction l as [|e l IH]; [reflexivity|].
  destruct e; simpl; rewrite IH; try reflexivity. symmetry. apply string_app_assoc.
Qed.

Section Sessions.
Context `{Engine}.

(** A property [P] of the trace holds for every session when a property
    [I] of the state holds initially, is kept by what the handlers do,
    and gives [P] however the session ends. *)
Lemma session_invariant p cb (I : State -> Prop) (P : list Event -> Prop) :
  I initial ->
  (forall v, truthy v = true -> preserves I (deliver_content v)) ->
  (forall v, truthy v = true -> onReasoningChunk cb = true ->
             preserves I (deliver_reasoning v)) ->
  preserves I (close_reasoning cb) ->
  (forall v, preserves I (set_currentBlockType v)) ->
  (forall message, preserves I (call (OnError message))) ->
  (forall st suffix, I st -> Ending cb st suffix -> P (calls st ++ suffix)) ->
  (forall st, I st -> P (calls st)) ->
  forall req net, P (trace (adapter_of p) cb req net).
Proof.
  intros H0 Hc Hr Hcl Hb He Hend Hret req net.
  assert (Hloop : forall steps,
             I (snd (read_loop (adapter_of p) cb steps EmptyString initial))).
  { intros steps. apply (@read_loop_preserves _ I cb Hc Hr Hcl Hb He p steps EmptyString).
    exact H0. }
  destruct (session_cases_of p cb req net)
    as [(st1 & suffix & -> & Hs & (steps & ->) & _)
       |(steps & st1 & pre & message & Hl & -> & _)].
  - apply Hend; [apply Hloop | exact Hs].
  - apply Hret. specialize (Hloop steps). rewrite Hl in Hloop. exact Hloop.
Qed.

End Sessions.

(** Unfolds a step of the handlers on a state given by its fields. *)
Ltac run_step st :=
  destruct st as [content reasoning done called blockType invoked];
  unfold deliver_content, deliver_reasoning, close_reasoning, reasoning_pending,
    set_currentBlockType, set_reasoningDone, call, bind, get, when, ret,
    append_content, append_reasoning;
  cbn [fullContent fullReasoning reasoningDone completeCalled currentBlockType calls
       fst snd] in *.

(** ** The accumulated content *)

Definition content_ok (pre : list Event) (e : Event) : Prop :=
  match e with
  | OnChunk v acc => acc = (delivered pre ++ ToString v)%string
  | OnComplete text => text = delivered pre
  | _ => True
  end.

Definition content_inv (st : State) : Prop :=
  fullContent st = delivered (calls st) /\ each_after content_ok (calls st).

Lemma content_inv_quiet st e :
  content_inv st -> is_chunk e = false -> is_complete e = false ->
  content_inv (snd (call e st)).
Proof.
  intros [Hf Hw] Hc Hd. split; simpl.
  - rewrite delivered_app, Hf. destruct e; try discriminate; simpl;
      now rewrite string_app_nil_r.
  - apply each_after_snoc; [exact Hw|]. destruct e; try discriminate; exact I.
Qed.

Lemma delivered_quiet l e :
  is_chunk e = false -> delivered (l ++ [e]) = delivered l.
Proof.
  intros Hc. rewrite delivered_app. destruct e; try discriminate; simpl;
    apply string_app_nil_r.
Qed.

Lemma content_ending cb st suffix :
  content_inv st -> Ending cb st suffix -> each_after content_ok (calls st ++ suffix).
Proof.
  intros [Hf Hw] Hend. destruct Hend as [message| |].
  - apply each_after_snoc; [exact Hw | exact I].
  - destruct (reasoning_pending cb st); simpl.
    + change (calls st ++ [OnReasoningComplete; OnComplete (fullContent st)])
        with (calls st ++ [OnReasoningComplete] ++ [OnComplete (fullContent st)]).
      rewrite app_assoc. apply each_after_snoc.
      * apply each_after_snoc; [exact Hw | exact I].
      * simpl. rewrite delivered_quiet by reflexivity. exact Hf.
    + apply each_after_snoc; [exact Hw | exact Hf].
  - unfold abort_calls.
    destruct (negb (is_empty (fullReasoning st)) && negb (reasoningDone st));
      destruct (onReasoningChunk cb); destruct (onReasoningComplete cb); simpl;
      repeat match goal with
             | |- each_after _ (?l ++ [?e]) => apply each_after_snoc
             | |- each_after _ (?l ++ ?e :: ?rest) =>
                 change (l ++ e :: rest) with (l ++ [e] ++ rest); rewrite (app_assoc l [e] rest)
             | |- each_after _ (calls st) => exact Hw
             | |- content_ok _ _ => simpl; rewrite ?delivered_quiet by reflexivity;
                                    first [exact I | exact Hf]
             end.
Qed.

Section Content.
Context `{Engine}.

Lemma trace_content_ok p cb req net :
  each_after content_ok (trace (adapter_of p) cb req net).
Proof.
  apply (@session_invariant _ p cb content_inv (each_after content_ok)).
  - split; [reflexivity | apply each_after_nil].
  - intros v _ st [Hf Hw]. run_step st. split; simpl.
    + rewrite delivered_app, Hf. simpl. now rewrite string_app_nil_r.
    + apply each_after_snoc; [exact Hw|]. simpl. now rewrite Hf.
  - intros v _ _ st [Hf Hw]. run_step st. split; simpl.
    + rewrite delivered_quiet by reflexivity. exact Hf.
    + apply each_after_snoc; [exact Hw | exact I].
  - intros st [Hf Hw]. run_step st.
    destruct (negb (is_empty reasoning) && negb done && onReasoningComplete cb); simpl.
    + split; simpl.
      * rewrite delivered_quiet by reflexivity. exact Hf.
      * apply each_after_snoc; [exact Hw | exact I].
    + split; assumption.
  - intros v st [Hf Hw]. split; assumption.
  - intros message st Hs. apply content_inv_quiet; [exact Hs | reflexivity | reflexivity].
  - intros st suffix Hs Hend. eapply content_ending; eauto.
  - intros st [_ Hw]. exact Hw.
Qed.

(** X1. The accumulated text handed to [onChunk] is always the
    concatenation of the deltas delivered so far, this one included, and
    the text handed to [onComplete] is the concatenation of all the
    deltas delivered: for every adapter, callbacks, request and
    behaviour of the transport, whatever the frames. *)
Theorem X1_accumulated_content_is_what_was_delivered
  (p : ProviderKind) (cb : Callbacks) (req : Request) (net : Fetch)
  (pre post : list Event) :
  (forall v acc,
      trace (adapter_of p) cb req net = pre ++ OnChunk v acc :: post ->
      acc = (delivered pre ++ ToString v)%string)
  /\ (forall text,
        trace (adapter_of p) cb req net = pre ++ OnComplete text :: post ->
        text = delivered pre).
Proof.
  split; intros; exact (@trace_content_ok p cb req net pre _ post ltac:(eassumption)).
Qed.

End Content.

(** ** The accumulated reasoning *)

Definition reasoning_ok (pre : list Event) (e : Event) : Prop :=
  match e with
  | OnReasoningChunk v acc => acc = (reasoned pre ++ ToString v)%string
  | _ => True
  end.

Definition reasoning_inv (st : State) : Prop :=
  fullReasoning st = reasoned (calls st) /\ each_after reasoning_ok (calls st).

Lemma reasoned_quiet l e :
  is_reasoning_chunk e = false -> reasoned (l ++ [e]) = reasoned l.
Proof.
  intros Hc. rewrite reasoned_app. destruct e; try discriminate; simpl;
    apply string_app_nil_r.
Qed.

(** Appends to a trace that satisfies [each_after ok] the invocations of
    a suffix given explicitly. *)
Ltac extend_trace Hw :=
  repeat match goal with
         | |- each_after _ (?l ++ [?e]) => apply each_after_snoc
         | |- each_after _ (?l ++ ?e :: ?rest) =>
             change (l ++ e :: rest) with (l ++ [e] ++ rest); rewrite (app_assoc l [e] rest)
         | |- each_after _ (?l ++ []) => rewrite (app_nil_r l)
         | |- each_after _ _ => exact Hw
         end.

Lemma reasoning_ending cb st suffix :
  reasoning_inv st -> Ending cb st suffix -> each_after reasoning_ok (calls st ++ suffix).
Proof.
  intros [Hf Hw] Hend. destruct Hend as [message| |].
  - extend_trace Hw. exact I.
  - destruct (reasoning_pending cb st); simpl; extend_trace Hw; exact I.
  - unfold abort_calls.
    destruct (negb (is_empty (fullReasoning st)) && negb (reasoningDone st));
      destruct (onReasoningChunk cb); destruct (onReasoningComplete cb); simpl;
      extend_trace Hw; try exact I;
      simpl; rewrite string_app_nil_r; exact Hf.
Qed.

Section Reasoning.
Context `{Engine}.

Lemma trace_reasoning_ok p cb req net :
  each_after reasoning_ok (trace (adapter_of p) cb req net).
Proof.
  apply (@session_invariant _ p cb reasoning_inv (each_after reasoning_ok)).
  - split; [reflexivity | apply each_after_nil].
  - intros v _ st [Hf Hw]. run_step st. split; simpl.
    + rewrite reasoned_quiet by reflexivity. exact Hf.
    + apply each_after_snoc; [exact Hw | exact I].
  - intros v _ _ st [Hf Hw]. run_step st. split; simpl.
    + rewrite reasoned_app, Hf. simpl. now rewrite string_app_nil_r.
    + apply each_after_snoc; [exact Hw|]. simpl. now rewrite Hf.
  - intros st [Hf Hw]. run_step st.
    destruct (negb (is_empty reasoning) && negb done && onReasoningComplete cb); simpl.
    + split; simpl.
      * rewrite reasoned_quiet by reflexivity. exact Hf.
      * apply each_after_snoc; [exact Hw | exact I].
    + split; assumption.
  - intros v st [Hf Hw]. split; assumption.
  - intros message st [Hf Hw]. split; simpl.
    + rewrite reasoned_quiet by reflexivity. exact Hf.
    + apply each_after_snoc; [exact Hw | exact I].
  - intros st suffix Hs Hend. eapply reasoning_ending; eauto.
  - intros st [_ Hw]. exact Hw.
Qed.

(** X2. The accumulated reasoning handed to [onReasoningChunk] is always
    the concatenation of the reasoning deltas delivered so far, this one
    included (the empty delta sent on cancellation adds nothing). *)
Theorem X2_accumulated_reasoning_is_what_was_delivered
  (p : ProviderKind) (cb : Callbacks) (req : Request) (net : Fetch)
  (pre post : list Event) (v : JsVal) (acc : string) :
  trace (adapter_of p) cb req net = pre ++ OnReasoningChunk v acc :: post ->
  acc = (reasoned pre ++ ToString v)%string.
Proof.
  intros E. exact (@trace_reasoning_ok p cb req net pre _ post E).
Qed.

End Reasoning.

(** ** The reasoning is marked complete at most once *)

Definition closed_after_reasoning (pre : list Event) (e : Event) : Prop :=
  e = OnReasoningComplete -> 1 <= count is_reasoning_chunk pre.

Definition closing_inv (st : State) : Prop :=
  (reasoningDone st = false -> count is_reasoning_complete (calls st) = 0)
  /\ count is_reasoning_complete (calls st) <= 1
  /\ (is_empty (fullReasoning st) = false -> 1 <= count is_reasoning_chunk (calls st))
  /\ each_after closed_after_reasoning (calls st).

Definition closing_ok (l : list Event) : Prop :=
  count is_reasoning_complete l <= 1 /\ each_after closed_after_reasoning l.

Lemma closing_quiet st e :
  closing_inv st -> is_reasoning_complete e = false -> is_reasoning_chunk e = false ->
  closing_inv (snd (call e st)).
Proof.
  intros (H1 & H2 & H3 & H4) Hc Hr. unfold closing_inv. simpl.
  rewrite !count_app, !count_single, Hc, Hr, !Nat.add_0_r.
  repeat split; try assumption.
  apply each_after_snoc; [exact H4|]. intros ->. discriminate.
Qed.

Lemma closing_ok_quiet l e :
  closing_ok l -> is_reasoning_complete e = false -> closing_ok (l ++ [e]).
Proof.
  intros [H1 H2] Hc. split.
  - rewrite count_app, count_single, Hc. lia.
  - apply each_after_snoc; [exact H2|]. intros ->. discriminate.
Qed.

Lemma closing_ok_close l :
  count is_reasoning_complete l = 0 -> 1 <= count is_reasoning_chunk l ->
  each_after closed_after_reasoning l ->
  closing_ok (l ++ [OnReasoningComplete]).
Proof.
  intros H0 H1 Hw. split.
  - rewrite count_app, count_single. simpl. lia.
  - apply each_after_snoc; [exact Hw|]. intros _. exact H1.
Qed.

Lemma negb_is_empty_true s : negb (is_empty s) = true -> is_empty s = false.
Proof. destruct s; [discriminate | reflexivity]. Qed.

Lemma closing_ending cb st suffix :
  closing_inv st -> Ending cb st suffix -> closing_ok (calls st ++ suffix).
Proof.
  intros (H1 & H2 & H3 & H4) Hend.
  assert (Hbase : closing_ok (calls st)) by (split; assumption).
  destruct Hend as [message| |].
  - apply closing_ok_quiet; [exact Hbase | reflexivity].
  - unfold reasoning_pending.
    destruct (negb (is_empty (fullReasoning st))) eqn:Er;
      destruct (reasoningDone st) eqn:Ed; destruct (onReasoningComplete cb); simpl;
      try (apply closing_ok_quiet; [exact Hbase | reflexivity]).
    change (calls st ++ [OnReasoningComplete; OnComplete (fullContent st)])
      with (calls st ++ [OnReasoningComplete] ++ [OnComplete (fullContent st)]).
    rewrite app_assoc. apply closing_ok_quiet; [|reflexivity].
    apply closing_ok_close; [apply H1; reflexivity | | exact H4].
    apply H3. apply negb_is_empty_true. exact Er.
  - unfold abort_calls.
    destruct (negb (is_empty (fullReasoning st))) eqn:Er;
      destruct (reasoningDone st) eqn:Ed; simpl;
      try (apply closing_ok_quiet; [exact Hbase | reflexivity]).
    assert (Hn : 1 <= count is_reasoning_chunk (calls st))
      by (apply H3; apply negb_is_empty_true; exact Er).
    assert (Hz : count is_reasoning_complete (calls st) = 0) by (apply H1; reflexivity).
    destruct (onReasoningChunk cb); destruct (onReasoningComplete cb); simpl;
      repeat match goal with
             | |- closing_ok (?l ++ ?e :: ?x :: ?rest) =>
                 change (l ++ e :: x :: rest) with (l ++ [e] ++ x :: rest);
                 rewrite (app_assoc l [e] (x :: rest))
             end;
      repeat first
        [ apply closing_ok_quiet; [|reflexivity]
        | apply closing_ok_close;
          [ rewrite ?count_app, ?count_single; simpl; lia
          | rewrite ?count_app, ?count_single; simpl; lia
          | repeat (apply each_after_snoc; [| intros F; discriminate F]); exact H4 ]
        | exact Hbase ].
Qed.

Section Closing.
Context `{Engine}.

Lemma trace_closing_ok p cb req net : closing_ok (trace (adapter_of p) cb req net).
Proof.
  apply (@session_invariant _ p cb closing_inv closing_ok).
  - repeat split; try (intros; reflexivity); [cbn; lia | discriminate | apply each_after_nil].
  - intros v _ st Hs. run_step st.
    destruct Hs as (H1 & H2 & H3 & H4). unfold closing_inv in *. simpl in *.
    rewrite !count_app, !count_single. simpl. rewrite !Nat.add_0_r.
    repeat split; try assumption.
    apply each_after_snoc; [exact H4 | intros F; discriminate F].
  - intros v _ _ st Hs. run_step st.
    destruct Hs as (H1 & H2 & H3 & H4). unfold closing_inv in *. simpl in *.
    rewrite !count_app, !count_single. simpl. rewrite !Nat.add_0_r.
    repeat split; try assumption; [intros _; lia|].
    apply each_after_snoc; [exact H4 | intros F; discriminate F].
  - intros st Hs. run_step st.
    destruct Hs as (H1 & H2 & H3 & H4). unfold closing_inv in *. simpl in *.
    destruct (negb (is_empty reasoning)) eqn:Er; destruct done eqn:Ed;
      destruct (onReasoningComplete cb); simpl;
      try (repeat split; assumption).
    assert (Hn : 1 <= count is_reasoning_chunk invoked)
      by (apply H3; apply negb_is_empty_true; exact Er).
    rewrite !count_app, !count_single. simpl. rewrite (H1 eq_refl).
    repeat split; try discriminate; try lia.
    apply each_after_snoc; [exact H4 | intros _; exact Hn].
  - intros v st Hs. exact Hs.
  - intros message st Hs. apply closing_quiet; [exact Hs | reflexivity | reflexivity].
  - intros st suffix Hs Hend. eapply closing_ending; eauto.
  - intros st (H1 & H2 & H3 & H4). split; assumption.
Qed.

(** X3. In every session [onReasoningComplete] is invoked at most once,
    and never before at least one [onReasoningChunk]. *)
Theorem X3_reasoning_is_completed_at_most_once
  (p : ProviderKind) (cb : Callbacks) (req : Request) (net : Fetch) :
  count is_reasoning_complete (trace (adapter_of p) cb req net) <= 1
  /\ forall pre post,
       trace (adapter_of p) cb req net = pre ++ OnReasoningComplete :: post ->
       1 <= count is_reasoning_chunk pre.
Proof.
  destruct (trace_closing_ok p cb req net) as [H1 H2].
  split; [exact H1|]. intros pre post E. exact (H2 pre _ post E eq_refl).
Qed.

End Closing.

(** ** Callbacks that were not supplied *)

Definition no_reasoning (l : list Event) : Prop :=
  count is_reasoning_chunk l = 0 /\ count is_reasoning_complete l = 0.

Definition silent_inv (st : State) : Prop :=
  is_empty (fullReasoning st) = true /\ no_reasoning (calls st).

Lemma no_reasoning_quiet l e :
  no_reasoning l -> is_reasoning_chunk e = false -> is_reasoning_complete e = false ->
  no_reasoning (l ++ [e]).
Proof.
  intros [H1 H2] Hc Hd. unfold no_reasoning.
  rewrite !count_app, !count_single, Hc, Hd. lia.
Qed.

Section Silent.
Context `{Engine}.

Lemma without_onReasoningChunk p cb req net :
  onReasoningChunk cb = false -> no_reasoning (trace (adapter_of p) cb req net).
Proof.
  intros Hcb.
  apply (@session_invariant _ p cb silent_inv no_reasoning).
  - repeat split.
  - intros v _ st [Hf Hn]. run_step st. split; [exact Hf|].
    apply no_reasoning_quiet; [exact Hn | reflexivity | reflexivity].
  - intros v _ Hyes. congruence.
  - intros st [Hf Hn]. run_step st. rewrite Hf. simpl. split; assumption.
  - intros v st Hs. exact Hs.
  - intros message st [Hf Hn]. split; [exact Hf|].
    apply no_reasoning_quiet; [exact Hn | reflexivity | reflexivity].
  - intros st suffix [Hf Hn] Hend. destruct Hend as [message| |].
    + apply no_reasoning_quiet; [exact Hn | reflexivity | reflexivity].
    + unfold reasoning_pending. rewrite Hf. simpl.
      apply no_reasoning_quiet; [exact Hn | reflexivity | reflexivity].
    + unfold abort_calls. rewrite Hf. simpl.
      apply no_reasoning_quiet; [exact Hn | reflexivity | reflexivity].
  - intros st [_ Hn]. exact Hn.
Qed.

Lemma without_onReasoningComplete p cb req net :
  onReasoningComplete cb = false ->
  count is_reasoning_complete (trace (adapter_of p) cb req net) = 0.
Proof.
  intros Hcb.
  apply (@session_invariant _ p cb
           (fun st => count is_reasoning_complete (calls st) = 0)
           (fun l => count is_reasoning_complete l = 0)).
  - reflexivity.
  - intros v _ st Hs. run_step st. rewrite count_app, count_single, Hs. reflexivity.
  - intros v _ _ st Hs. run_step st. rewrite count_app, count_single, Hs. reflexivity.
  - intros st Hs. run_step st. rewrite Hcb, andb_false_r. exact Hs.
  - intros v st Hs. exact Hs.
  - intros message st Hs. simpl. rewrite count_app, count_single, Hs. reflexivity.
  - intros st suffix Hs Hend. destruct Hend as [message| |].
    + rewrite count_app, count_single, Hs. reflexivity.
    + unfold reasoning_pending. rewrite Hcb, andb_false_r. simpl.
      rewrite count_app, count_single, Hs. reflexivity.
    + unfold abort_calls. rewrite Hcb.
      destruct (negb (is_empty (fullReasoning st)) && negb (reasoningDone st));
        destruct (onReasoningChunk cb); simpl;
        rewrite ?count_app, ?count_single, ?Hs; reflexivity.
  - intros st Hs. exact Hs.
Qed.

(** X4. A reasoning callback that the caller did not supply is never
    invoked, and without [onReasoningChunk] no reasoning is accumulated,
    so that [onReasoningComplete] is not invoked either, even when it
    was supplied. *)
Theorem X4_absent_reasoning_callbacks_are_not_invoked
  (p : ProviderKind) (cb : Callbacks) (req : Request) (net : Fetch) :
  (onReasoningChunk cb = false ->
   count is_reasoning_chunk (trace (adapter_of p) cb req net) = 0
   /\ count is_reasoning_complete (trace (adapter_of p) cb req net) = 0)
  /\ (onReasoningComplete cb = false ->
      count is_reasoning_complete (trace (adapter_of p) cb req net) = 0).
Proof.
  split; [apply without_onReasoningChunk | apply without_onReasoningComplete].
Qed.

End Silent.

(** ** Deltas are never empty *)

Definition delta_ok (e : Event) : Prop :=
  match e with
  | OnChunk v _ => truthy v = true
  | OnReasoningChunk v _ => truthy v = true \/ v = JStr EmptyString
  | _ => True
  end.

Lemma Forall_snoc A (P : A -> Prop) l x : Forall P l -> P x -> Forall P (l ++ [x]).
Proof. intros Hl Hx. apply Forall_app. split; [exact Hl | constructor; [exact Hx | constructor]]. Qed.

Section Deltas.
Context `{Engine}.

Lemma trace_deltas_ok p cb req net : Forall delta_ok (trace (adapter_of p) cb req net).
Proof.
  apply (@session_invariant _ p cb (fun st => Forall delta_ok (calls st)) (Forall delta_ok)).
  - constructor.
  - intros v Hv st Hs. run_step st. apply Forall_snoc; [exact Hs | exact Hv].
  - intros v Hv _ st Hs. run_step st. apply Forall_snoc; [exact Hs | left; exact Hv].
  - intros st Hs. run_step st.
    destruct (negb (is_empty reasoning) && negb done && onReasoningComplete cb); simpl;
      [apply Forall_snoc; [exact Hs | exact I] | exact Hs].
  - intros v st Hs. exact Hs.
  - intros message st Hs. simpl. apply Forall_snoc; [exact Hs | exact I].
  - intros st suffix Hs Hend. apply Forall_app. split; [exact Hs|].
    destruct Hend as [message| |].
    + repeat constructor.
    + destruct (reasoning_pending cb st); repeat constructor.
    + unfold abort_calls.
      destruct (negb (is_empty (fullReasoning st)) && negb (reasoningDone st));
        destruct (onReasoningChunk cb); destruct (onReasoningComplete cb); simpl;
        repeat first [right; reflexivity | constructor | exact I].
  - intros st Hs. exact Hs.
Qed.

(** X5. No empty delta is delivered: the value handed to [onChunk] is
    always truthy (never the empty string, [null] or [undefined]), and so
    is the value handed to [onReasoningChunk], except for the empty delta
    sent on cancellation. *)
Theorem X5_deltas_are_never_empty
  (p : ProviderKind) (cb : Callbacks) (req : Request) (net : Fetch)
  (v : JsVal) (acc : string) :
  (In (OnChunk v acc) (trace (adapter_of p) cb req net) -> truthy v = true)
  /\ (In (OnReasoningChunk v acc) (trace (adapter_of p) cb req net) ->
      truthy v = true \/ v = JStr EmptyString).
Proof.
  pose proof (trace_deltas_ok p cb req net) as Hall.
  rewrite Forall_forall in Hall.
  split; intros Hin; exact (Hall _ Hin).
Qed.

End Deltas.

(** ** The terminal callback comes last *)

Section Last.
Context `{Engine}.

Lemma session_ends p cb req net :
  exists before last,
    trace (adapter_of p) cb req net = before ++ [last]
    /\ is_complete last || is_error last = true
    /\ count is_complete before = 0 /\ count is_error before = 0.
Proof.
  destruct (session_cases_of p cb req net)
    as [(st1 & suffix & -> & Hs & _ & Hc & He)
       |(steps & st1 & pre & message & _ & -> & -> & Hc & He)].
  - destruct Hs as [message| |].
    + exists (calls st1), (OnError message). repeat split; assumption.
    + exists (calls st1 ++ (if reasoning_pending cb st1 then [OnReasoningComplete] else [])),
        (OnComplete (fullContent st1)).
      rewrite <- app_assoc, !count_app, Hc, He.
      destruct (reasoning_pending cb st1); repeat split.
    + unfold abort_calls. rewrite app_assoc.
      eexists _, (OnComplete (fullContent st1)). split; [reflexivity|].
      rewrite !count_app, Hc, He.
      destruct (negb (is_empty (fullReasoning st1)) && negb (reasoningDone st1));
        destruct (onReasoningChunk cb); destruct (onReasoningComplete cb); repeat split.
  - exists pre, (OnError message). repeat split; assumption.
Qed.

(** X6. The terminal callback is the last invocation of every session:
    nothing is delivered after [onComplete] or [onError], and no terminal
    callback is invoked before. *)
Theorem X6_terminal_callback_is_last
  (p : ProviderKind) (cb : Callbacks) (req : Request) (net : Fetch) :
  exists before last,
    trace (adapter_of p) cb req net = before ++ [last]
    /\ is_complete last || is_error last = true
    /\ count is_complete before = 0 /\ count is_error before = 0.
Proof. apply session_ends. Qed.

End Last.

End Guarantees.

(* ===================================================================== *)
(** * Reasoning is marked complete before content is delivered *)
(* ===================================================================== *)

(** The handlers mark the reasoning complete before they deliver a
    content delta; the one delivery that does not is that of an image
    marker by the OpenAI-compatible adapter.  The property is kept along
    the structure of the handlers, with two conditions on the state: the
    one that holds between frames, and the one that holds once the
    handler has marked the reasoning complete. *)
Module Ordering.
Import Text Js Session Controller Decoder Frames Terminal DecoderFacts Completion Paths.
Import ContentStreams Invariants Endings Guarantees.
Open Scope js_scope.


Section Rules.
Variable I : State -> Prop.










End Rules.






Section Steps.
Variable p : ProviderKind.
Variable cb : Callbacks.
Hypothesis has_complete : onReasoningComplete cb = true.





End Steps.

Section Handlers.
Context `{Engine}.
Variable cb : Callbacks.
Hypothesis has_complete : onReasoningComplete cb = true.















End Handlers.


End Ordering.

(* ===================================================================== *)
(** * Facts about the text operations *)
(* ===================================================================== *)

Module TextFacts.
Import Text DecoderFacts.

Lemma string_length_app (a b : string) :
  String.length (a ++ b) = String.length a + String.length b.
Proof. induction a as [|c a IH]; simpl; [reflexivity | rewrite IH; reflexivity]. Qed.

Lemma string_app_assoc_r (a b c : string) : ((a ++ b) ++ c)%string = (a ++ b ++ c)%string.
Proof. apply string_app_assoc. Qed.

(** ** [trim] *)

(** A text made of white space only. *)
Definition blank (s : string) : Prop :=
  Forall (fun c => is_space c = true) (list_ascii_of_string s).

Lemma trim_end_space s c : is_space c = true -> trim_end (s ++ String c EmptyString) = trim_end s.
Proof.
  intros Hc. induction s as [|x s IH]; simpl; [rewrite Hc; reflexivity|].
  rewrite IH. reflexivity.
Qed.

Lemma trim_space s c : is_space c = true -> trim (s ++ String c EmptyString) = trim s.
Proof.
  intros Hc. unfold trim. induction s as [|x s IH]; simpl.
  - rewrite Hc. reflexivity.
  - destruct (is_space x); [exact IH|].
    change (String x (s ++ String c EmptyString)) with (String x s ++ String c EmptyString)%string.
    apply trim_end_space. exact Hc.
Qed.

Lemma trim_start_blank ws s : blank ws -> trim_start (ws ++ s) = trim_start s.
Proof.
  induction ws as [|c ws IH]; intros Hb; [reflexivity|].
  inversion Hb as [|? ? Hc Hrest]; subst. simpl. rewrite Hc. apply IH. exact Hrest.
Qed.

Lemma trim_end_blank ws : blank ws -> forall s, trim_end (s ++ ws) = trim_end s.
Proof.
  induction ws as [|c ws IH]; intros Hb s; [rewrite string_app_nil_r; reflexivity|].
  inversion Hb as [|? ? Hc Hrest]; subst.
  change (String c ws) with (String c EmptyString ++ ws)%string.
  rewrite <- string_app_assoc, (IH Hrest). apply trim_end_space. exact Hc.
Qed.

Lemma trim_end_keeps s c :
  is_space c = false -> trim_end (s ++ String c EmptyString) = (s ++ String c EmptyString)%string.
Proof.
  intros Hc. induction s as [|x s IH]; simpl; [rewrite Hc; reflexivity|].
  rewrite IH. destruct s; reflexivity.
Qed.

Lemma trim_start_length s : String.length (trim_start s) <= String.length s.
Proof.
  induction s as [|c s IH]; simpl; [lia|]. destruct (is_space c); simpl; lia.
Qed.

Lemma trim_end_length s : String.length (trim_end s) <= String.length s.
Proof.
  induction s as [|c s IH]; simpl; [lia|].
  destruct (trim_end s); [destruct (is_space c)|]; simpl in *; lia.
Qed.

(** A text that [trim] leaves as it is does not start with white
    space. *)
Lemma trimmed_start c s : trim (String c s) = String c s -> is_space c = false.
Proof.
  intros E. destruct (is_space c) eqn:Hc; [|reflexivity].
  unfold trim in E. simpl in E. rewrite Hc in E.
  apply (f_equal String.length) in E. simpl in E.
  pose proof (trim_end_length (trim_start s)). pose proof (trim_start_length s). lia.
Qed.

(** ** The clean-up of a base URL *)

Fixpoint slashes (n : nat) : string :=
  match n with
  | O => EmptyString
  | S m => String "/"%char (slashes m)
  end.

Lemma slashes_snoc n : slashes (S n) = (slashes n ++ "/")%string.
Proof. induction n as [|n IH]; [reflexivity|]. simpl in *. rewrite <- IH. reflexivity. Qed.

Lemma strip_slashes_snoc s :
  strip_trailing_slashes (s ++ "/") = strip_trailing_slashes s.
Proof. induction s as [|x s IH]; simpl; [reflexivity | rewrite IH; reflexivity]. Qed.

Lemma strip_slashes_many n : forall s,
  strip_trailing_slashes (s ++ slashes n) = strip_trailing_slashes s.
Proof.
  induction n as [|n IH]; intros s; [rewrite string_app_nil_r; reflexivity|].
  rewrite slashes_snoc, <- string_app_assoc, strip_slashes_snoc. apply IH.
Qed.

Lemma strip_slashes_keeps s c :
  Ascii.eqb c "/"%char = false ->
  strip_trailing_slashes (s ++ String c EmptyString) = (s ++ String c EmptyString)%string.
Proof.
  intros Hc. induction s as [|x s IH]; simpl; [rewrite Hc; reflexivity|].
  rewrite IH. destruct s; reflexivity.
Qed.

Lemma strip_suffix_eq suffix s :
  strip_suffix suffix s
  = if String.eqb s suffix then EmptyString
    else match s with
         | EmptyString => EmptyString
         | String c rest => String c (strip_suffix suffix rest)
         end.
Proof. destruct s; reflexivity. Qed.

Lemma strip_suffix_app suffix base : strip_suffix suffix (base ++ suffix) = base.
Proof.
  induction base as [|c base IH].
  - simpl. rewrite strip_suffix_eq, String.eqb_refl. reflexivity.
  - change (String c base ++ suffix)%string with (String c (base ++ suffix)).
    rewrite strip_suffix_eq, IH.
    destruct (String.eqb (String c (base ++ suffix)) suffix) eqn:E; [|reflexivity].
    apply String.eqb_eq in E. apply (f_equal String.length) in E.
    simpl in E. rewrite string_length_app in E. lia.
Qed.

(** ** [includes] and [toLowerCase] *)

Lemma includes_prefix s p : String.prefix p s = true -> includes s p = true.
Proof.
  intros Hp. unfold includes. destruct s as [|c s].
  - destruct p; [reflexivity | discriminate].
  - cbn [String.index]. rewrite Hp. reflexivity.
Qed.

Lemma prefix_app p s : String.prefix p (p ++ s) = true.
Proof.
  induction p as [|c p IH]; [destruct s; reflexivity|].
  simpl. destruct (ascii_dec c c); [exact IH | congruence].
Qed.

Lemma toLowerCase_app a b : toLowerCase (a ++ b) = (toLowerCase a ++ toLowerCase b)%string.
Proof. induction a as [|c a IH]; simpl; [reflexivity | rewrite IH; reflexivity]. Qed.

End TextFacts.

(* ===================================================================== *)
(** * Lines, chunks and the read loop *)
(* ===================================================================== *)

Module Lines.
Import Text Js Session Controller Decoder Frames Terminal DecoderFacts Completion Paths.
Open Scope js_scope.

(** A text without line feed. *)
Definition one_line (s : string) : Prop := ~ In newline (list_ascii_of_string s).

Definition line_feed : string := String newline EmptyString.

Lemma one_line_cons c s : one_line (String c s) <-> c <> newline /\ one_line s.
Proof.
  unfold one_line. simpl. split.
  - intros Hn. split; [intros ->; apply Hn; left; reflexivity | intros Hi; apply Hn; right; exact Hi].
  - intros [Hc Hs] [E|Hi]; [apply Hc; exact E | apply Hs; exact Hi].
Qed.

Lemma eqb_newline c : c <> newline -> Ascii.eqb c newline = false.
Proof. intros Hc. apply Ascii.eqb_neq. exact Hc. Qed.

Lemma split_one_line s : one_line s -> split_newline s = [s].
Proof.
  induction s as [|c s IH]; intros Hs; [reflexivity|].
  apply one_line_cons in Hs. destruct Hs as [Hc Hs].
  simpl. rewrite (eqb_newline Hc), (IH Hs). reflexivity.
Qed.

Lemma one_line_of_split s : split_newline s = [s] -> one_line s.
Proof.
  induction s as [|c s IH]; intros E; [intros []|].
  simpl in E. destruct (Ascii.eqb c newline) eqn:Hc; [discriminate|].
  pose proof (split_newline_nonempty s) as Hne.
  destruct (split_newline s) as [|x xs] eqn:Es; [congruence|].
  injection E as E1 E2. subst. apply one_line_cons. split.
  - apply Ascii.eqb_neq. exact Hc.
  - apply IH. reflexivity.
Qed.

(** The test that a text is a line. *)
Lemma one_line_check s :
  forallb (fun c => negb (Ascii.eqb c newline)) (list_ascii_of_string s) = true -> one_line s.
Proof.
  intros Hall Hin. rewrite forallb_forall in Hall. specialize (Hall _ Hin).
  rewrite Ascii.eqb_refl in Hall. discriminate.
Qed.

Lemma one_line_app a b : one_line a -> one_line b -> one_line (a ++ b).
Proof.
  induction a as [|c a IH]; intros Ha Hb; [exact Hb|].
  apply one_line_cons in Ha. destruct Ha as [Hc Ha].
  simpl. apply one_line_cons. split; [exact Hc | apply IH; assumption].
Qed.

(** Every piece of a split is a line. *)
Lemma split_pieces s : Forall one_line (split_newline s).
Proof.
  induction s as [|c s IH]; simpl; [repeat constructor; intros []|].
  destruct (Ascii.eqb c newline) eqn:Hc.
  - constructor; [intros [] | exact IH].
  - pose proof (split_newline_nonempty s) as Hne.
    destruct (split_newline s) as [|x xs]; [congruence|].
    inversion IH as [|? ? Hx Hxs]; subst. constructor; [|exact Hxs].
    apply one_line_cons. split; [apply Ascii.eqb_neq; exact Hc | exact Hx].
Qed.

(** Splitting a line followed by a line feed and more text. *)
Lemma split_line l rest :
  one_line l -> split_newline (l ++ String newline rest) = l :: split_newline rest.
Proof.
  induction l as [|c l IH]; intros Hl.
  - reflexivity.
  - apply one_line_cons in Hl. destruct Hl as [Hc Hl].
    simpl. rewrite (eqb_newline Hc), (IH Hl). reflexivity.
Qed.

(** Joining the pieces of a split with line feeds gives the text back. *)
Lemma join_split s : String.concat line_feed (split_newline s) = s.
Proof.
  induction s as [|c s IH]; [reflexivity|].
  simpl split_newline. pose proof (split_newline_nonempty s) as Hne.
  destruct (Ascii.eqb c newline) eqn:Hc.
  - apply Ascii.eqb_eq in Hc. subst c.
    destruct (split_newline s) as [|x xs] eqn:Es; [congruence|].
    change (String.concat line_feed (EmptyString :: x :: xs))
      with (EmptyString ++ line_feed ++ String.concat line_feed (x :: xs))%string.
    rewrite IH. reflexivity.
  - destruct (split_newline s) as [|x xs] eqn:Es; [congruence|].
    destruct xs as [|y ys].
    + simpl in *. congruence.
    + change (String.concat line_feed (String c x :: y :: ys))
        with (String c (x ++ line_feed ++ String.concat line_feed (y :: ys)))%string.
      change (String.concat line_feed (x :: y :: ys))
        with (x ++ line_feed ++ String.concat line_feed (y :: ys))%string in IH.
      rewrite IH. reflexivity.
Qed.

Lemma removelast_last (A : Type) (l : list A) d : l <> [] -> removelast l ++ [last l d] = l.
Proof. intros Hl. symmetry. apply app_removelast_last. exact Hl. Qed.

(** The fragment left in the buffer is a line. *)
Lemma buffer_one_line chunks : forall b, one_line b -> one_line (snd (feed b chunks)).
Proof.
  intros b Hb. rewrite (feed_from_buffer chunks (split_one_line Hb)).
  unfold decode_chunk. cbn [snd append].
  apply one_line_of_split. apply split_newline_last.
Qed.

(** X7. Nothing is lost and nothing is invented by the frame decoder:
    the complete lines it emits, followed by the fragment left in its
    buffer, joined by line feeds, are the text received; and no line
    holds a line feed. *)
Theorem X7_decoder_output_joins_to_its_input (chunks : list string) :
  String.concat line_feed (fst (feed EmptyString chunks) ++ [snd (feed EmptyString chunks)])
  = String.concat EmptyString chunks
  /\ Forall one_line (fst (feed EmptyString chunks) ++ [snd (feed EmptyString chunks)]).
Proof.
  rewrite feed_concat. unfold decode_chunk. cbn [fst snd append].
  rewrite removelast_last by apply split_newline_nonempty.
  split; [apply join_split | apply split_pieces].
Qed.

Section Loop.
Variable a : Adapter.
Variable cb : Callbacks.

(** Sessions that run the same read loop are the same. *)
Lemma streaming_congruence req chunks after chunks' after' :
  read_loop a cb (map ReadChunk chunks ++ after) EmptyString initial
  = read_loop a cb (map ReadChunk chunks' ++ after') EmptyString initial ->
  sendStreamingMessage a cb req (streaming chunks after)
  = sendStreamingMessage a cb req (streaming chunks' after').
Proof.
  intros E. unfold sendStreamingMessage, try_catch, try_block, bind.
  pose proof (@validate_state a req initial) as Hv.
  destruct (validate a req initial) as [[[]|e] st0]; simpl in Hv; subst st0; [|reflexivity].
  cbn. rewrite E. reflexivity.
Qed.

(** A last chunk without line feed adds no line. *)
Lemma read_loop_fragment chunks tail : forall st,
  one_line tail ->
  read_loop a cb (map ReadChunk (chunks ++ [tail])) EmptyString st
  = read_loop a cb (map ReadChunk chunks) EmptyString st.
Proof.
  intros st Ht. rewrite map_app. cbn [map].
  rewrite (@read_loop_app a cb chunks [ReadChunk tail] EmptyString st).
  destruct (read_loop a cb (map ReadChunk chunks) EmptyString st) as [[[|]|e] st1];
    try reflexivity.
  cbn [read_loop]. unfold decode_chunk.
  assert (Hb : one_line (snd (feed EmptyString chunks)))
    by (apply buffer_one_line; intros []).
  rewrite (split_one_line (one_line_app Hb Ht)). reflexivity.
Qed.

End Loop.

Section Sessions.
Context `{Engine}.

(** X8. A last line that is not ended by a line feed is never handled:
    when the stream ends, what is left in the buffer is dropped. *)
Theorem X8_unterminated_last_line_is_dropped
  (p : ProviderKind) (cb : Callbacks) (req : Request) (chunks : list string) (tail : string) :
  one_line tail ->
  trace (adapter_of p) cb req (streaming (chunks ++ [tail]) [])
  = trace (adapter_of p) cb req (streaming chunks []).
Proof.
  intros Ht. unfold trace. f_equal. f_equal.
  apply streaming_congruence. rewrite !app_nil_r. apply read_loop_fragment. exact Ht.
Qed.

End Sessions.

End Lines.

Module Boundaries.
Import Text Js Session Controller Decoder Frames Terminal DecoderFacts Completion Paths.
Import TextFacts Lines.
Open Scope js_scope.

(** ** Carriage returns *)

Definition cr : string := String "013"%char EmptyString.

Section CarriageReturn.
Context `{Engine}.

Lemma frame_of_cr p line : frame_of p (line ++ cr) = frame_of p line.
Proof.
  unfold frame_of, data_payload, cr. rewrite trim_space by reflexivity. reflexivity.
Qed.

(** X9. Lines ended by a carriage return and a line feed are handled as
    lines ended by a line feed: the carriage return left at the end of a
    line by the split is ignored. *)
Theorem X9_carriage_return_is_ignored
  (p : ProviderKind) (cb : Callbacks) (lines : list string) (st : State) :
  process_lines (adapter_of p) cb (map (fun l => l ++ cr)%string lines) st
  = process_lines (adapter_of p) cb lines st.
Proof.
  revert st. induction lines as [|l lines IH]; intros st; [reflexivity|].
  cbn [map process_lines]. rewrite !process_line_frame, frame_of_cr.
  destruct (frame_of p l) as [parsed|].
  - destruct (handle p cb parsed st) as [[| |] st1]; [apply IH | reflexivity | reflexivity].
  - apply IH.
Qed.

End CarriageReturn.

(** ** Chunk boundaries *)

(** A computation that never asks to leave the loop over the lines of
    the chunk. *)
Definition no_break (m : M Signal) : Prop :=
  forall st, fst (m st) <> inl Break.

Lemma no_break_bind A (m : M A) (k : A -> M Signal) :
  (forall x, no_break (k x)) -> no_break (bind m k).
Proof.
  intros Hk st. unfold bind. destruct (m st) as [[x|e] st1]; [apply Hk | discriminate].
Qed.

Lemma no_break_ret sg : sg <> Break -> no_break (ret sg).
Proof. intros Hs st. simpl. congruence. Qed.

Lemma no_break_throw e : no_break (throw e).
Proof. intros st. discriminate. Qed.

Ltac no_break_steps :=
  repeat first
    [ apply no_break_ret; discriminate
    | apply no_break_throw
    | apply no_break_bind; intros ?
    | match goal with
      | |- no_break (if ?b then _ else _) => destruct b
      end ].

Section Breaks.
Context `{Engine}.

Lemma anthropic_no_break cb parsed : no_break (Anthropic.handle_frame cb parsed).
Proof. unfold Anthropic.handle_frame. no_break_steps. Qed.

Lemma gemini_no_break cb parsed : no_break (Gemini.handle_frame cb parsed).
Proof. unfold Gemini.handle_frame. no_break_steps. Qed.

(** The Anthropic and Gemini adapters never leave the loop over the
    lines of a chunk before its last line, unless they return. *)
Lemma line_never_breaks p cb line st :
  p <> OpenAICompatible -> fst (process_line (adapter_of p) cb line st) <> Break.
Proof.
  intros Hp. rewrite process_line_frame.
  destruct (frame_of p line) as [parsed|]; [|discriminate].
  unfold handle, try_frame. destruct p; [congruence | |].
  - pose proof (anthropic_no_break cb parsed st) as Hn.
    destruct (Anthropic.handle_frame cb parsed st) as [[sg|e] st1]; simpl in *; congruence.
  - pose proof (gemini_no_break cb parsed st) as Hn.
    destruct (Gemini.handle_frame cb parsed st) as [[sg|e] st1]; simpl in *; congruence.
Qed.

End Breaks.

Section Loop.
Variable a : Adapter.
Variable cb : Callbacks.
Hypothesis never_breaks : forall line st, fst (process_line a cb line st) <> Break.

Lemma process_lines_app l1 l2 : forall st,
  process_lines a cb (l1 ++ l2) st
  = match process_lines a cb l1 st with
    | (true, st1) => (true, st1)
    | (false, st1) => process_lines a cb l2 st1
    end.
Proof.
  induction l1 as [|l l1 IH]; intros st; [reflexivity|].
  cbn [app process_lines]. pose proof (never_breaks l st) as Hn.
  destruct (process_line a cb l st) as [[| |] st1]; simpl in *;
    [apply IH | congruence | reflexivity].
Qed.

(** The read loop over chunks is the loop over all their lines. *)
Lemma read_loop_lines chunks : forall after buffer st,
  read_loop a cb (map ReadChunk chunks ++ after) buffer st
  = match process_lines a cb (fst (feed buffer chunks)) st with
    | (true, st1) => (inl Returned, st1)
    | (false, st1) => read_loop a cb after (snd (feed buffer chunks)) st1
    end.
Proof.
  induction chunks as [|v rest IH]; intros after buffer st; [reflexivity|].
  cbn [map app read_loop feed].
  destruct (decode_chunk buffer v) as [lines b'].
  specialize (IH after b'). destruct (feed b' rest) as [more final]. cbn [fst snd] in *.
  rewrite process_lines_app.
  destruct (process_lines a cb lines st) as [[|] st1]; [reflexivity | apply IH].
Qed.

End Loop.

Section Sessions.
Context `{Engine}.

(** X10. The Anthropic and Gemini sessions do not depend on how the
    transport cuts the stream into chunks: two sequences of chunks with
    the same text give the same invocations, whatever follows them. *)
Theorem X10_session_ignores_chunk_boundaries
  (p : ProviderKind) (cb : Callbacks) (req : Request)
  (chunks chunks' : list string) (after : list Step) :
  p <> OpenAICompatible ->
  String.concat EmptyString chunks = String.concat EmptyString chunks' ->
  trace (adapter_of p) cb req (streaming chunks after)
  = trace (adapter_of p) cb req (streaming chunks' after).
Proof.
  intros Hp E. unfold trace. f_equal. f_equal. apply streaming_congruence.
  rewrite !(@read_loop_lines (adapter_of p) cb
              (fun l s => @line_never_breaks _ p cb l s Hp)).
  rewrite !feed_concat, E. reflexivity.
Qed.

(** X11. The OpenAI-compatible session does depend on them: a frame
    with a finish reason makes the adapter skip the lines that follow it
    in the same chunk, while the same lines arriving in a later chunk are
    handled. *)
Theorem X11_finish_reason_skips_the_rest_of_the_chunk
  (cb : Callbacks) (req : Request) (l1 l2 text : string) :
  valid openai req ->
  one_line l1 -> one_line l2 ->
  frame_of OpenAICompatible l1 = Some (finish_frame OpenAICompatible) ->
  frame_of OpenAICompatible l2 = Some (content_frame OpenAICompatible text) ->
  text <> EmptyString ->
  trace openai cb req (streaming [(l1 ++ line_feed ++ l2 ++ line_feed)%string] [])
  = [OnComplete EmptyString]
  /\ trace openai cb req (streaming [(l1 ++ line_feed)%string; (l2 ++ line_feed)%string] [])
     = [OnChunk (JStr text) text; OnComplete text].
Proof.
  intros Hv H1 H2 F1 F2 Ht.
  change openai with (adapter_of OpenAICompatible) in *.
  assert (Hcontent : forall st,
             process_lines (adapter_of OpenAICompatible) cb [l2] st
             = (false, Acts.act_step cb (Acts.Emit (Content text)) st)).
  { intros st. cbn [process_lines].
    rewrite process_line_frame, F2, Acts.handle_openai_content. reflexivity. }
  assert (Hfinish : forall rest st,
             process_lines (adapter_of OpenAICompatible) cb (l1 :: rest) st = (false, st)).
  { intros rest st. cbn [process_lines].
    rewrite process_line_frame, F1, Acts.handle_openai_finish. reflexivity. }
  unfold trace. rewrite !(@streaming_session _ OpenAICompatible cb req _ [] Hv).
  unfold try_catch, bind. cbn [map app read_loop]. unfold decode_chunk, line_feed.
  cbn [append]. rewrite !(split_line _ H1), !(split_line _ H2).
  cbn [split_newline removelast last].
  rewrite !Hfinish. cbn [read_loop]. unfold decode_chunk.
  cbn [append]. rewrite (split_line _ H2).
  cbn [split_newline removelast last]. rewrite Hcontent.
  destruct text as [|c text]; [congruence|].
  split; reflexivity.
Qed.



End Sessions.

End Boundaries.

(* ===================================================================== *)
(** * Sessions that fail before the stream *)
(* ===================================================================== *)

Module Failures.
Import Text Js Session Controller Decoder Frames Terminal DecoderFacts Completion Paths.
Import Examples.
Open Scope js_scope.

Lemma validate_valid a req st : valid a req -> validate a req st = (inl tt, st).
Proof.
  intros (Hk & Hm & Hmsg & Hu). unfold validate. rewrite Hk, Hm.
  destruct (messages req) as [|m ms]; [congruence|].
  destruct (checks_baseUrl a); [rewrite Hu; reflexivity | reflexivity].
Qed.

(** The session of a request that passes the validation. *)
Lemma session_after_validation a cb req net :
  valid a req ->
  sendStreamingMessage a cb req net
  = try_catch
      (match net with
       | FetchRejects e => throw e
       | FetchResolves response =>
           if negb (ok response) then
             errorMessage <- http_error_message response ;;
             call (OnError errorMessage)
           else
             match body response with
             | None => throw (TypeError_no_body)
             | Some steps =>
                 exit <- read_loop a cb steps EmptyString ;;
                 match exit with
                 | Returned => ret tt
                 | Finished => finish cb
                 end
             end
       end)
      (catch_block a cb) initial.
Proof.
  intros Hv. unfold sendStreamingMessage, try_catch, try_block, bind.
  rewrite (validate_valid initial Hv). reflexivity.
Qed.

Section Failures.
Context `{Engine}.

(** X13. A request without API key, model, messages or (for the
    OpenAI-compatible adapter) base URL is reported through [onError]
    with the message of the first check that fails, and nothing else
    happens: the transport is not used. *)
Theorem X13_invalid_request_is_reported
  (p : ProviderKind) (cb : Callbacks) (req : Request) (net : Fetch) :
  (is_empty (apiKey req) = true ->
   trace (adapter_of p) cb req net = [OnError "Invalid API key"])
  /\ (is_empty (apiKey req) = false -> is_empty (model req) = true ->
      trace (adapter_of p) cb req net = [OnError "Invalid model"])
  /\ (is_empty (apiKey req) = false -> is_empty (model req) = false -> messages req = [] ->
      trace (adapter_of p) cb req net = [OnError "Messages must be a non-empty array"])
  /\ (is_empty (apiKey req) = false -> is_empty (model req) = false -> messages req <> [] ->
      p = OpenAICompatible -> is_empty (baseUrl req) = true ->
      trace (adapter_of p) cb req net = [OnError "Invalid base URL"]).
Proof.
  unfold trace, sendStreamingMessage, try_catch, try_block, bind, validate.
  repeat split.
  - intros ->. reflexivity.
  - intros -> ->. reflexivity.
  - intros -> -> ->. reflexivity.
  - intros -> -> Hm -> ->. destruct (messages req); [congruence | reflexivity].
Qed.

(** The message of the [catch] block for an error that is not an
    abort. *)
Lemma catch_reports a cb e st :
  String.eqb (err_name e) "AbortError" = false ->
  calls (snd (catch_block a cb e st))
  = calls st
    ++ [OnError (if String.eqb (err_name e) "TypeError" && includes (err_message e) "fetch"
                 then network_error a
                 else if String.eqb (err_name e) "SyntaxError" then invalid_response a
                 else if is_empty (err_message e)
                      then "An unexpected error occurred. Please try again."
                 else err_message e)].
Proof. intros Hn. unfold catch_block. rewrite Hn. reflexivity. Qed.


(** X15. When [fetch] itself is rejected: a cancellation completes the
    session with empty content; a TypeError that mentions fetch is
    reported as the network error of the adapter; in every case exactly
    one callback is invoked. *)
Theorem X15_rejected_fetch_ends_the_session
  (p : ProviderKind) (cb : Callbacks) (req : Request) (e : JsError) :
  valid (adapter_of p) req ->
  (exists invocation, trace (adapter_of p) cb req (FetchRejects e) = [invocation])
  /\ (err_name e = "AbortError" ->
      trace (adapter_of p) cb req (FetchRejects e) = [OnComplete EmptyString])
  /\ (err_name e = "TypeError" -> includes (err_message e) "fetch" = true ->
      trace (adapter_of p) cb req (FetchRejects e) = [OnError (network_error (adapter_of p))]).
Proof.
  intros Hv. unfold trace. rewrite (session_after_validation cb _ Hv).
  unfold try_catch, throw. cbn [fst snd].
  assert (Habort : err_name e = "AbortError" ->
                   calls (snd (catch_block (adapter_of p) cb e initial))
                   = [OnComplete EmptyString]).
  { intros Hn.
    destruct (@catch_abort_run (adapter_of p) cb e initial Hn eq_refl) as [_ Hc].
    rewrite Hc. reflexivity. }
  split; [|split].
  - destruct (String.eqb (err_name e) "AbortError") eqn:Hn.
    + apply String.eqb_eq in Hn. rewrite (Habort Hn). eexists. reflexivity.
    + rewrite (catch_reports _ cb e initial Hn). eexists. reflexivity.
  - exact Habort.
  - intros Hn Hf. rewrite catch_reports by (rewrite Hn; reflexivity).
    rewrite Hn, Hf. reflexivity.
Qed.

End Failures.

End Failures.

(* ===================================================================== *)
(** * The router *)
(* ===================================================================== *)

Module Routing.
Import Text Js Session Controller Decoder Frames Terminal DecoderFacts Completion Paths.
Import Guarantees Failures TextFacts.
Open Scope js_scope.

Section Routing.
Context `{Engine}.
Variable getProviderById : string -> option Router.ProviderConfig.

(** What the [switch] of the router does: it runs one adapter, or it
    reports an unknown provider. *)
Lemma dispatch_cases providerId config cb req net st :
  (exists p cb' req',
      Router.dispatch getProviderById providerId config cb req net st
      = Controller.sendStreamingMessage (adapter_of p) cb' req' net)
  \/ Router.dispatch getProviderById providerId config cb req net st
     = call (OnError ("Unknown provider: " ++ providerId
                      ++ ". Please check your provider configuration.")%string) initial.
Proof.
  unfold Router.dispatch.
  destruct (String.eqb providerId "openai");
    [left; exists OpenAICompatible; eexists; eexists; reflexivity|].
  destruct (String.eqb providerId "openrouter");
    [left; exists OpenAICompatible; eexists; eexists; reflexivity|].
  destruct (String.eqb providerId "gemini");
    [left; exists GeminiKind; eexists; eexists; reflexivity|].
  destruct (String.eqb providerId "anthropic");
    [left; exists AnthropicKind; eexists; eexists; reflexivity|].
  destruct config as [c|]; [destruct (is_empty (Router.apiBaseUrl c))|];
    try (left; exists OpenAICompatible; eexists; eexists; reflexivity);
    (destruct (getProviderById providerId) as [c'|];
     [destruct (is_empty (Router.apiBaseUrl c'))|]);
    first [ left; exists OpenAICompatible; eexists; eexists; reflexivity
          | right; reflexivity ].
Qed.

(** X16. Every session started through the chat client ends by exactly
    one terminal callback, which is its last invocation, and no
    exception reaches the caller: the adapters never throw, so the
    [switch] of the router never throws and its [catch] block is never
    entered (the callbacks return normally, and the base URL of a
    configuration is a text). *)
Theorem X16_routed_session_ends_once
  (providerId : string) (config : option Router.ProviderConfig)
  (cb : Callbacks) (req : Request) (net : Fetch) :
  fst (Router.sendStreamingMessage getProviderById providerId config cb req net) = inl tt
  /\ fst (Router.dispatch getProviderById providerId config cb req net initial) = inl tt
  /\ exists before last,
       calls (snd (Router.sendStreamingMessage getProviderById providerId config cb req net))
       = before ++ [last]
       /\ is_complete last || is_error last = true
       /\ count is_complete before = 0 /\ count is_error before = 0.
Proof.
  assert (Hd : fst (Router.dispatch getProviderById providerId config cb req net initial)
               = inl tt
               /\ exists before last,
                    calls (snd (Router.dispatch getProviderById providerId config cb req net
                                  initial)) = before ++ [last]
                    /\ is_complete last || is_error last = true
                    /\ count is_complete before = 0 /\ count is_error before = 0).
  { destruct (dispatch_cases providerId config cb req net initial)
      as [(p & cb' & req' & ->) | ->].
    - split; [apply no_exception_escapes | apply (session_ends p cb' req' net)].
    - split; [reflexivity|]. exists [], (OnError ("Unknown provider: " ++ providerId
                      ++ ". Please check your provider configuration.")%string).
      repeat split. }
  destruct Hd as [Hf Hl].
  assert (Hreport : forall message,
             fst (call (OnError message) initial) = inl tt
             /\ exists before last,
                  calls (snd (call (OnError message) initial)) = before ++ [last]
                  /\ is_complete last || is_error last = true
                  /\ count is_complete before = 0 /\ count is_error before = 0).
  { intros message. split; [reflexivity|]. exists [], (OnError message). repeat split. }
  split; [|split; [exact Hf|]]; unfold Router.sendStreamingMessage;
    (destruct (is_empty (apiKey req)); [apply Hreport|]);
    (destruct (is_empty (model req)); [apply Hreport|]);
    (destruct (messages req) as [|m ms] eqn:Em; [apply Hreport|]);
    unfold try_catch;
    destruct (Router.dispatch getProviderById providerId config cb req net initial)
      as [[[]|e] st1]; simpl in *; try discriminate; first [reflexivity | exact Hl].
Qed.

(** A request that the router accepts. *)
Definition accepted (req : Request) : Prop :=
  is_empty (apiKey req) = false /\ is_empty (model req) = false /\ messages req <> [].

(** A provider that is none of the four built-in ones. *)
Definition custom (providerId : string) : Prop :=
  providerId <> "openai" /\ providerId <> "openrouter"
  /\ providerId <> "gemini" /\ providerId <> "anthropic".

Lemma routed_accepted providerId config cb req net :
  accepted req ->
  Router.sendStreamingMessage getProviderById providerId config cb req net
  = try_catch (Router.dispatch getProviderById providerId config cb req net)
      Router.catch_block initial.
Proof.
  intros (Hk & Hm & Hmsg). unfold Router.sendStreamingMessage. rewrite Hk, Hm.
  destruct (messages req); [congruence | reflexivity].
Qed.

(** X17. A custom provider whose base URL is reduced to nothing by the
    clean-up (it holds only white space and slashes, or only the path
    [/chat/completions]) is started all the same, and the session fails
    in the adapter with the message for a missing base URL. *)
Theorem X17_blank_base_url_is_reported
  (providerId : string) (config : Router.ProviderConfig)
  (cb : Callbacks) (req : Request) (net : Fetch) :
  accepted req -> custom providerId ->
  is_empty (Router.apiBaseUrl config) = false ->
  Router.clean_base_url (Router.apiBaseUrl config) = EmptyString ->
  calls (snd (Router.sendStreamingMessage getProviderById providerId (Some config) cb req net))
  = [OnError "Invalid base URL"].
Proof.
  intros Hc (H1 & H2 & H3 & H4) Hu Hclean.
  rewrite (routed_accepted providerId (Some config) cb net Hc).
  destruct Hc as (Hk & Hm & Hmsg).
  unfold Router.dispatch, try_catch.
  apply String.eqb_neq in H1, H2, H3, H4. rewrite H1, H2, H3, H4, Hu, Hclean.
  unfold Controller.sendStreamingMessage, try_catch, try_block, bind, validate.
  cbn [apiKey model messages baseUrl Router.with_baseUrl]. rewrite Hk, Hm.
  destruct (messages req); [congruence | reflexivity].
Qed.

End Routing.

(** ** The router over the catalogue as shipped *)

Section Catalogue.
Context `{Engine}.

Lemma catalogue_has_no_custom_provider providerId :
  custom providerId -> Providers.config_by_id providerId = None.
Proof.
  intros (H1 & H2 & H3 & _).
  unfold Providers.config_by_id, Providers.getProviderById, Providers.PROVIDERS. cbn [find Providers.id].
  rewrite (String.eqb_sym "openrouter"), (String.eqb_sym "openai"), (String.eqb_sym "gemini").
  apply String.eqb_neq in H1, H2, H3. rewrite H1, H2, H3. reflexivity.
Qed.

(** X18. With the catalogue as shipped, a provider that is none of the
    four built-in ones is not in the catalogue: the catalogue has no
    entry and no model for it, and the look-up of the router finds
    nothing.  When such a provider comes without a configuration holding
    a base URL, it is reported as unknown and no adapter is started. *)
Theorem X18_unknown_provider_is_reported
  (providerId : string) (config : option Router.ProviderConfig)
  (cb : Callbacks) (req : Request) (net : Fetch) :
  accepted req -> custom providerId ->
  match config with
  | Some c => is_empty (Router.apiBaseUrl c) = true
  | None => True
  end ->
  Providers.getProviderById providerId = None
  /\ Providers.getAllModels providerId = []
  /\ Providers.getFallbackModels providerId = []
  /\ (forall modelId, Providers.getModelById providerId modelId = None)
  /\ calls (snd (ChatClient.sendStreamingMessage providerId config cb req net))
     = [OnError ("Unknown provider: " ++ providerId
                 ++ ". Please check your provider configuration.")%string].
Proof.
  intros Hc Hp Hcfg. pose proof (catalogue_has_no_custom_provider Hp) as Hl.
  assert (Hg : Providers.getProviderById providerId = None).
  { unfold Providers.config_by_id in Hl.
    destruct (Providers.getProviderById providerId); [discriminate | reflexivity]. }
  split; [exact Hg|].
  split; [unfold Providers.getAllModels; rewrite Hg; reflexivity|].
  split; [unfold Providers.getFallbackModels; rewrite Hg; reflexivity|].
  split; [intros modelId; unfold Providers.getModelById; rewrite Hg; reflexivity|].
  unfold ChatClient.sendStreamingMessage.
  rewrite (routed_accepted Providers.config_by_id providerId config cb net Hc).
  destruct Hp as (H1 & H2 & H3 & H4).
  unfold Router.dispatch, try_catch.
  apply String.eqb_neq in H1, H2, H3, H4. rewrite H1, H2, H3, H4, Hl.
  destruct config as [c|]; [rewrite Hcfg|]; reflexivity.
Qed.

End Catalogue.

(** ** The clean-up of the base URL of a custom provider *)

(** The trimmed text of a base URL given with the path of the endpoint
    and trailing slashes. *)
Lemma trim_pasted base ws1 ws2 n :
  trim base = base -> blank ws1 -> blank ws2 ->
  trim (ws1 ++ base ++ "/chat/completions" ++ slashes n ++ ws2)
  = (base ++ "/chat/completions" ++ slashes n)%string.
Proof.
  intros Hb H1 H2. unfold trim. rewrite (trim_start_blank _ H1).
  assert (Hstart : trim_start (base ++ "/chat/completions" ++ slashes n ++ ws2)
                   = (base ++ "/chat/completions" ++ slashes n ++ ws2)%string).
  { destruct base as [|c base]; [reflexivity|].
    simpl. rewrite (trimmed_start Hb). reflexivity. }
  rewrite Hstart.
  replace (base ++ "/chat/completions" ++ slashes n ++ ws2)%string
    with ((base ++ "/chat/completions" ++ slashes n) ++ ws2)%string
    by (rewrite !string_app_assoc; reflexivity).
  rewrite (trim_end_blank H2).
  destruct n as [|n].
  - replace (base ++ "/chat/completions" ++ slashes 0)%string
      with ((base ++ "/chat/completion") ++ "s")%string
      by (rewrite !string_app_assoc; reflexivity).
    apply trim_end_keeps. reflexivity.
  - rewrite slashes_snoc.
    replace (base ++ "/chat/completions" ++ slashes n ++ "/")%string
      with ((base ++ "/chat/completions" ++ slashes n) ++ "/")%string
      by (rewrite !string_app_assoc; reflexivity).
    apply trim_end_keeps. reflexivity.
Qed.

(** X19. A base URL given with the path [/chat/completions], with
    slashes after it and with white space around it, is reduced to the
    base itself, so that the adapter calls the endpoint once, at
    [base/chat/completions]. *)
Theorem X19_pasted_endpoint_is_reduced_to_its_base (base ws1 ws2 : string) (n : nat) :
  trim base = base -> blank ws1 -> blank ws2 ->
  Router.clean_base_url (ws1 ++ base ++ "/chat/completions" ++ slashes n ++ ws2) = base
  /\ Requests.OpenAI.endpoint
       (Router.clean_base_url (ws1 ++ base ++ "/chat/completions" ++ slashes n ++ ws2))
     = (base ++ "/chat/completions")%string.
Proof.
  intros Hb H1 H2.
  assert (E : Router.clean_base_url
                (ws1 ++ base ++ "/chat/completions" ++ slashes n ++ ws2) = base).
  { unfold Router.clean_base_url. rewrite (trim_pasted n Hb H1 H2).
    replace (base ++ "/chat/completions" ++ slashes n)%string
      with ((base ++ "/chat/completions") ++ slashes n)%string
      by (rewrite !string_app_assoc; reflexivity).
    rewrite strip_slashes_many.
    replace (base ++ "/chat/completions")%string
      with ((base ++ "/chat/completion") ++ "s")%string
      by (rewrite !string_app_assoc; reflexivity).
    rewrite strip_slashes_keeps by reflexivity.
    replace ((base ++ "/chat/completion") ++ "s")%string
      with (base ++ "/chat/completions")%string
      by (rewrite !string_app_assoc; reflexivity).
    apply strip_suffix_app. }
  split; [exact E | rewrite E; reflexivity].
Qed.

End Routing.

(* ===================================================================== *)
(** * From the error of a session to the alert shown *)
(* ===================================================================== *)

(** The error handed to [onError] by a session reaches
    [handleStreamingError], which classifies it by its message. *)
Module Classification.
Import Text Js Session Controller Decoder Frames Terminal DecoderFacts Completion Paths.
Import Failures TextFacts Routing ErrorHandlers.
Open Scope js_scope.

Definition is_other (t : ErrorType) : bool :=
  match t with OTHER => true | _ => false end.

(** The statuses 500 to 599. *)
Definition server_statuses : list N := map N.of_nat (seq 500 100).

Lemma server_status_listed s : (500 <= s)%N -> (s <= 599)%N -> In s server_statuses.
Proof.
  intros Hl Hu. unfold server_statuses.
  replace s with (N.of_nat (N.to_nat s)) by apply N2Nat.id.
  apply in_map. apply in_seq. lia.
Qed.

Lemma server_errors_are_other :
  forallb (fun s => is_other (detectErrorType
                                (Error ("Server error (" ++ decimal s
                                        ++ "). Please try again later."))))
          server_statuses = true.
Proof. vm_compute. reflexivity. Qed.

Lemma default_server_error r :
  (500 <= status r)%N ->
  http_error_default r
  = ("Server error (" ++ decimal (status r) ++ "). Please try again later.")%string.
Proof.
  intros Hs. unfold http_error_default.
  replace (N.eqb (status r) 401) with false by (symmetry; apply N.eqb_neq; lia).
  replace (N.eqb (status r) 403) with false by (symmetry; apply N.eqb_neq; lia).
  replace (N.eqb (status r) 404) with false by (symmetry; apply N.eqb_neq; lia).
  replace (N.leb 500 (status r)) with true by (symmetry; apply N.leb_le; lia).
  reflexivity.
Qed.

Lemma not_ok r : (300 <= status r)%N -> ok r = false.
Proof.
  intros Hs. unfold ok.
  replace (N.leb (status r) 299) with false by (symmetry; apply N.leb_gt; lia).
  apply andb_false_r.
Qed.

Lemma detect_by_phrase message :
  is_empty message = false ->
  includes (toLowerCase message) "rate limit" = true ->
  detectErrorType (Error message) = RATE_LIMIT.
Proof.
  intros Hm Hl. unfold detectErrorType. cbn [err_message Error].
  rewrite Hm, Hl, orb_true_r. reflexivity.
Qed.

Lemma detect_rate_limit wait :
  detectErrorType (Error ("Rate limit exceeded." ++ wait)) = RATE_LIMIT.
Proof.
  apply detect_by_phrase; [reflexivity|].
  apply includes_prefix. reflexivity.
Qed.

Section Classification.
Context `{Engine}.

(** X20. A response with status 429 is reported with a message that
    carries the delay asked by the server in [retry-after], and is
    classified as a rate limit whatever that delay and whatever the
    body; the alert raised shows a fixed text, without the delay. *)
Theorem X20_rate_limit_raises_the_fixed_alert
  (p : ProviderKind) (cb : Callbacks) (req : Request) (r : Response) (providerName : string) :
  valid (adapter_of p) req ->
  status r = 429%N ->
  exists message,
    trace (adapter_of p) cb req (FetchResolves r) = [OnError message]
    /\ (forall seconds, retry_after r = Some seconds -> is_empty seconds = false ->
        message = ("Rate limit exceeded. Please wait " ++ seconds ++ " seconds.")%string)
    /\ detectErrorType (Error message) = RATE_LIMIT
    /\ handleStreamingError (Error message) providerName
       = showFetchErrorAlert providerName
           "Rate limit exceeded. Please wait a moment and try again.".
Proof.
  intros Hv Hs.
  assert (Hok : ok r = false) by (apply not_ok; rewrite Hs; lia).
  unfold trace. rewrite (session_after_validation cb _ Hv).
  unfold try_catch, bind. rewrite Hok. cbn [negb].
  unfold http_error_message. rewrite Hs. cbn [N.eqb Pos.eqb].
  eexists. split; [reflexivity|]. split; [|split].
  - intros seconds -> ->. reflexivity.
  - apply detect_rate_limit.
  - unfold handleStreamingError. rewrite detect_rate_limit. reflexivity.
Qed.

(** X21. A response with an error status and no message of the server
    (its body is not JSON) is classified by the message chosen for the
    status: 401 raises the alert for an invalid API key; 403, 404 and the
    statuses 500 to 599 raise the general alert with that message. *)
Theorem X21_status_messages_are_classified
  (p : ProviderKind) (cb : Callbacks) (req : Request) (r : Response) (providerName : string) :
  valid (adapter_of p) req ->
  json r = None ->
  (status r = 401%N ->
   trace (adapter_of p) cb req (FetchResolves r)
   = [OnError "Invalid API key or unauthorized access."]
   /\ handleStreamingError (Error "Invalid API key or unauthorized access.") providerName
      = showInvalidApiKeyAlert providerName "Invalid API key or unauthorized access.")
  /\ (status r = 403%N \/ status r = 404%N \/ (500 <= status r /\ status r <= 599)%N ->
      trace (adapter_of p) cb req (FetchResolves r) = [OnError (http_error_default r)]
      /\ handleStreamingError (Error (http_error_default r)) providerName
         = showFetchErrorAlert providerName (http_error_default r)).
Proof.
  intros Hv Hj.
  assert (Hsession : (300 <= status r)%N -> N.eqb (status r) 429 = false ->
                     trace (adapter_of p) cb req (FetchResolves r)
                     = [OnError (http_error_default r)]).
  { intros Hs H429. unfold trace. rewrite (session_after_validation cb _ Hv).
    unfold try_catch, bind. rewrite (not_ok r Hs). cbn [negb].
    unfold http_error_message. rewrite H429, Hj. reflexivity. }
  split.
  - intros Hs. split.
    + rewrite Hsession; [| rewrite Hs; lia | rewrite Hs; reflexivity].
      unfold http_error_default. rewrite Hs. reflexivity.
    + vm_compute. reflexivity.
  - intros Hs. split.
    + apply Hsession; [lia | apply N.eqb_neq; lia].
    + destruct Hs as [Hs | [Hs | [Hl Hu]]].
      * unfold http_error_default. rewrite Hs. vm_compute. reflexivity.
      * unfold http_error_default. rewrite Hs. vm_compute. reflexivity.
      * rewrite (default_server_error r Hl).
        pose proof server_errors_are_other as Hall. rewrite forallb_forall in Hall.
        specialize (Hall _ (server_status_listed Hl Hu)).
        unfold handleStreamingError.
        destruct (detectErrorType
                    (Error ("Server error (" ++ decimal (status r)
                            ++ "). Please try again later."))); try discriminate.
        reflexivity.
Qed.

(** X22. A network failure ([fetch] rejected with a TypeError that
    mentions fetch) is reported with the network message of the adapter
    and raises the general alert with that message: the classification
    has no test for it, and never answers [NETWORK], whatever the
    error. *)
Theorem X22_network_failure_raises_the_general_alert
  (p : ProviderKind) (cb : Callbacks) (req : Request) (e : JsError) (providerName : string) :
  valid (adapter_of p) req ->
  err_name e = "TypeError" -> includes (err_message e) "fetch" = true ->
  trace (adapter_of p) cb req (FetchRejects e) = [OnError (network_error (adapter_of p))]
  /\ handleStreamingError (Error (network_error (adapter_of p))) providerName
     = showFetchErrorAlert providerName (network_error (adapter_of p))
  /\ forall error,
       detectErrorType error = RATE_LIMIT \/ detectErrorType error = INVALID_API_KEY
       \/ detectErrorType error = MISSING_API_KEY \/ detectErrorType error = OTHER.
Proof.
  intros Hv Hn Hf. split; [|split].
  - unfold trace. rewrite (session_after_validation cb _ Hv).
    unfold try_catch, throw. cbn [fst snd].
    rewrite catch_reports by (rewrite Hn; reflexivity).
    rewrite Hn, Hf. reflexivity.
  - destruct p; vm_compute; reflexivity.
  - intros error. unfold detectErrorType.
    repeat match goal with |- context [if ?b then _ else _] => destruct b end; tauto.
Qed.

(** X23. A request without API key never raises the alert for a missing
    API key: rejected by an adapter, it is reported as an invalid key and
    raises the alert for an invalid key; rejected by the chat client, it
    is reported with the message of the client and raises the general
    alert. *)
Theorem X23_missing_key_raises_other_alerts
  (p : ProviderKind) (cb : Callbacks) (req : Request) (net : Fetch)
  (getProviderById : string -> option Router.ProviderConfig)
  (providerId : string) (config : option Router.ProviderConfig) (providerName : string) :
  is_empty (apiKey req) = true ->
  (trace (adapter_of p) cb req net = [OnError "Invalid API key"]
   /\ handleStreamingError (Error "Invalid API key") providerName
      = showInvalidApiKeyAlert providerName "Invalid API key")
  /\ (calls (snd (Router.sendStreamingMessage getProviderById providerId config cb req net))
      = [OnError "API key is required"]
      /\ handleStreamingError (Error "API key is required") providerName
         = showFetchErrorAlert providerName "API key is required").
Proof.
  intros Hk. split; (split; [|vm_compute; reflexivity]).
  - unfold trace, sendStreamingMessage, try_catch, try_block, bind, validate.
    rewrite Hk. reflexivity.
  - unfold Router.sendStreamingMessage. rewrite Hk. reflexivity.
Qed.

End Classification.

End Classification.

(* ===================================================================== *)
(** * The messages sent to the providers *)
(* ===================================================================== *)

Module Conversions.
Import Text Js Requests TextFacts.

Lemma eta_message (m : ApiMessage) : {| role := role m; content := content m |} = m.
Proof. destruct m; reflexivity. Qed.

Lemma last_cons (A : Type) (l : list A) (x d : A) : last (x :: l) d = last l x.
Proof.
  revert x d. induction l as [|y l IH]; intros x d; [reflexivity|].
  change (last (x :: y :: l) d) with (last (y :: l) d). rewrite !IH. reflexivity.
Qed.

(** The conversion loop of the Anthropic adapter, from any value of its
    two variables. *)
Lemma anthropic_loop messages : forall acc,
  fold_left Anthropic.convert_step messages acc
  = (last (map content (filter is_system messages)) (fst acc),
     snd acc ++ filter (fun m => negb (is_system m)) messages).
Proof.
  induction messages as [|m messages IH]; intros [systemMessage kept].
  - simpl. rewrite app_nil_r. reflexivity.
  - cbn [fold_left filter]. rewrite IH. unfold Anthropic.convert_step.
    destruct (is_system m) eqn:Hs; cbn [fst snd negb map].
    + f_equal. symmetry. apply last_cons.
    + rewrite eta_message, <- app_assoc. reflexivity.
Qed.

(** X24. The Anthropic adapter sends the messages that are not system
    messages, unchanged and in their order, and sends as [system] the
    content of the last system message of the conversation; when that
    content is empty (or there is no system message) the request has no
    [system] field, even if an earlier system message had a content. *)
Theorem X24_anthropic_request_carries_the_last_system_message
  (model : string) (messages : list ApiMessage) (o : Anthropic.Options) :
  snd (Anthropic.convert messages) = filter (fun m => negb (is_system m)) messages
  /\ fst (Anthropic.convert messages) = last (map content (filter is_system messages)) JNull
  /\ lookup "messages" (Anthropic.requestBody model messages o)
     = JArr (map message_object (filter (fun m => negb (is_system m)) messages))
  /\ lookup "system" (Anthropic.requestBody model messages o)
     = (if truthy (last (map content (filter is_system messages)) JNull)
        then last (map content (filter is_system messages)) JNull
        else JUndefined).
Proof.
  unfold Anthropic.requestBody, Anthropic.convert. rewrite anthropic_loop.
  cbn [fst snd app]. repeat split.
  unfold lookup.
  destruct (not_null (Anthropic.topP o)); destruct (not_null (Anthropic.topK o));
    destruct (truthy (last (map content (filter is_system messages)) JNull));
    reflexivity.
Qed.

(** The element of [contents] made from a message. *)
Definition gemini_role (m : ApiMessage) : string :=
  if is_string (role m) "assistant" then "model" else "user".

Lemma converted_roles messages :
  map Gemini.content_role (Gemini.converted messages)
  = map gemini_role (filter (fun m => negb (is_system m)) messages).
Proof. unfold Gemini.converted. rewrite map_map. reflexivity. Qed.

Lemma converted_texts messages :
  map Gemini.text (Gemini.converted messages)
  = map content (filter (fun m => negb (is_system m)) messages).
Proof. unfold Gemini.converted. rewrite map_map. reflexivity. Qed.

(** X25. The Gemini adapter sends one element per message that is not a
    system message, in order, with the role [model] for an assistant
    message and [user] for any other, and with the content of the message
    as text.  Only the first element can differ: when the conversation
    has a system message and its first other message is not from the
    assistant, the content of the first system message and an empty line
    are put in front of its text; when that first message is from the
    assistant, the system message is not sent at all. *)
Theorem X25_gemini_request_carries_the_first_system_message
  (messages : list ApiMessage) :
  map Gemini.content_role (Gemini.contents messages)
  = map gemini_role (filter (fun m => negb (is_system m)) messages)
  /\ tl (map Gemini.text (Gemini.contents messages))
     = tl (map content (filter (fun m => negb (is_system m)) messages))
  /\ (forall systemMessage first rest,
        find is_system messages = Some systemMessage ->
        filter (fun m => negb (is_system m)) messages = first :: rest ->
        hd JUndefined (map Gemini.text (Gemini.contents messages))
        = if is_string (role first) "assistant" then content first
          else JStr (ToString (content systemMessage) ++ Gemini.separator
                     ++ ToString (content first)))
  /\ (find is_system messages = None -> Gemini.contents messages = Gemini.converted messages).
Proof.
  pose proof (converted_roles messages) as Hr.
  pose proof (converted_texts messages) as Ht.
  unfold Gemini.contents.
  destruct (find is_system messages) as [s|] eqn:Hs.
  - destruct (Gemini.converted messages) as [|c cs] eqn:Hc.
    + split; [exact Hr | split; [rewrite Ht; reflexivity | split; [|discriminate]]].
      intros s' first rest _ Hf. rewrite Hf in Ht. discriminate.
    + destruct (String.eqb (Gemini.content_role c) "user") eqn:Hu.
      * cbn [map Gemini.content_role Gemini.text tl hd] in *.
        split; [exact Hr | split; [rewrite <- Ht; reflexivity | split; [|discriminate]]].
        intros s' first rest Es Hf. injection Es as <-.
        rewrite Hf in Hr, Ht. cbn [map] in Hr, Ht.
        injection Hr as Hr _. injection Ht as Ht _.
        unfold gemini_role in Hr. apply String.eqb_eq in Hu.
        destruct (is_string (role first) "assistant"); [congruence|].
        rewrite Ht. reflexivity.
      * split; [exact Hr | split; [rewrite Ht; reflexivity | split; [|discriminate]]].
        intros s' first rest Es Hf.
        rewrite Hf in Hr, Ht. cbn [map hd] in *.
        injection Hr as Hr _. injection Ht as Ht _.
        unfold gemini_role in Hr.
        destruct (is_string (role first) "assistant"); [exact Ht|].
        rewrite Hr in Hu. discriminate.
  - split; [|split; [|split]].
    + destruct (Gemini.converted messages); exact Hr.
    + destruct (Gemini.converted messages); rewrite Ht; reflexivity.
    + discriminate.
    + destruct (Gemini.converted messages); reflexivity.
Qed.

(** X26. The Gemini adapter names the model in the URL with the prefix
    [models/]: a model identifier that has the prefix is used as it is,
    and one that does not is given it.  So the name sent always has the
    prefix, naming a name changes nothing, and the two spellings of a
    model reach the same URL: the [streamGenerateContent] endpoint of
    the model, with the API key as a query parameter. *)
Theorem X26_gemini_model_name_is_normalised
  (apiKey model : string) (messages : list ApiMessage) (o : Gemini.Options) :
  (startsWith model "models/" = true -> Gemini.modelName model = model)
  /\ (startsWith model "models/" = false ->
      Gemini.modelName model = ("models/" ++ model)%string)
  /\ startsWith (Gemini.modelName model) "models/" = true
  /\ Gemini.modelName (Gemini.modelName model) = Gemini.modelName model
  /\ Gemini.modelName ("models/" ++ model) = ("models/" ++ model)%string
  /\ url (Gemini.fetch_call apiKey model messages o)
     = ("https://generativelanguage.googleapis.com/v1beta/" ++ Gemini.modelName model
        ++ ":streamGenerateContent?key=" ++ apiKey ++ "&alt=sse")%string
  /\ (startsWith model "models/" = false ->
      url (Gemini.fetch_call apiKey ("models/" ++ model) messages o)
      = url (Gemini.fetch_call apiKey model messages o)
      /\ url (Gemini.fetch_call apiKey model messages o)
         = ("https://generativelanguage.googleapis.com/v1beta/models/" ++ model
            ++ ":streamGenerateContent?key=" ++ apiKey ++ "&alt=sse")%string).
Proof.
  assert (Hyes : startsWith model "models/" = true -> Gemini.modelName model = model).
  { intros E. unfold Gemini.modelName. rewrite E. reflexivity. }
  assert (Hno : startsWith model "models/" = false ->
                Gemini.modelName model = ("models/" ++ model)%string).
  { intros E. unfold Gemini.modelName. rewrite E. reflexivity. }
  assert (Hq : Gemini.modelName ("models/" ++ model) = ("models/" ++ model)%string).
  { unfold Gemini.modelName.
    replace (startsWith ("models/" ++ model) "models/") with true; [reflexivity|].
    symmetry. apply prefix_app. }
  assert (Hp : startsWith (Gemini.modelName model) "models/" = true).
  { destruct (startsWith model "models/") eqn:E.
    - rewrite (Hyes eq_refl). exact E.
    - rewrite (Hno eq_refl). apply prefix_app. }
  assert (Hi : Gemini.modelName (Gemini.modelName model) = Gemini.modelName model).
  { unfold Gemini.modelName at 1. rewrite Hp. reflexivity. }
  split; [exact Hyes | split; [exact Hno | split; [exact Hp | split; [exact Hi |
    split; [exact Hq | split; [reflexivity|]]]]]].
  intros E. unfold Gemini.fetch_call. cbn [url]. rewrite Hq, (Hno E). split; reflexivity.
Qed.

End Conversions.

(* ===================================================================== *)
(** * Model capabilities and message formatting *)
(* ===================================================================== *)

Module Helpers.
Import Text Js Requests MessageFormatters ModelHelpers TextFacts.

(** X27. [getReasoningConfig] never asks for reasoning: it calls
    [isThinkingModel] without the list of models, which then searches the
    empty list and finds nothing, whatever the model; [isThinkingModel]
    answers yes only for a model of the list given, marked as supporting
    reasoning. *)
Theorem X27_reasoning_config_is_never_set (modelId : string) (availableModels : list ModelData) :
  getReasoningConfig modelId = None
  /\ isThinkingModel modelId [] = false
  /\ (isThinkingModel modelId availableModels = true ->
      exists m, In m availableModels /\ id m = modelId /\ supportsReasoning m = true).
Proof.
  assert (H0 : isThinkingModel modelId [] = false).
  { unfold isThinkingModel. destruct (is_empty modelId); reflexivity. }
  split; [unfold getReasoningConfig; rewrite H0; reflexivity | split; [exact H0|]].
  unfold isThinkingModel, modelData. destruct (is_empty modelId); [discriminate|].
  destruct (find (fun m => String.eqb (id m) modelId) availableModels) as [m|] eqn:Ef;
    [|discriminate].
  intros Hs. apply find_some in Ef. destruct Ef as [Hin He].
  exists m. repeat split; [exact Hin | apply String.eqb_eq; exact He | exact Hs].
Qed.

(** X28. The two tests for image generation agree on every model
    identifier that is not empty: a model is an image generation model
    exactly when its modalities are [image] and [text].  For the empty
    identifier the first answers no without looking, while the second
    looks it up. *)
Theorem X28_image_generation_tests_agree (modelId : string) (availableModels : list ModelData) :
  is_empty modelId = false ->
  (isImageGenerationModel modelId availableModels = true
   <-> getModalitiesForModel modelId availableModels = Some ["image"; "text"])
  /\ (isImageGenerationModel modelId availableModels = false
      <-> getModalitiesForModel modelId availableModels = None).
Proof.
  intros Hm. unfold isImageGenerationModel, getModalitiesForModel. rewrite Hm.
  destruct (outputs_image (modelData modelId availableModels));
    repeat split; intros; congruence.
Qed.

(** X29. A message with attachments is sent with a list of parts as its
    content: first a part carrying its text, when the text is not blank
    (a blank text gives no part), then one part per attachment, in their
    order: an image gives a part with its data URL, another file a part
    of text that names the file, its type and its size.  The role of the
    message is kept, [user] standing for a missing one.  A history is
    formatted message by message, in order; a message without
    attachments keeps its role and has its text as content. *)
Theorem X29_attachments_become_parts
  (message_role : JsVal) (message_content : string) (first : Attachment)
  (others : list Attachment) (before after : list StoredMessage) (m : StoredMessage) :
  content (formatMessageForAPI message_role message_content (first :: others))
  = JArr ((if is_empty (trim message_content) then []
           else [JObj [("type", JStr "text"); ("text", JStr message_content)]])
          ++ map attachment_part (first :: others))
  /\ role (formatMessageForAPI message_role message_content (first :: others))
     = (if truthy message_role then message_role else JStr "user")
  /\ (forall a, isImage a = true ->
        attachment_part a
        = JObj [("type", JStr "image_url");
                ("image_url", JObj [("url", JStr (data a)); ("detail", JStr "auto")])])
  /\ (forall a, isImage a = false ->
        attachment_part a
        = JObj [("type", JStr "text");
                ("text", JStr ("[Attached file: " ++ attachment_name a ++ " ("
                               ++ attachment_type a ++ ", "
                               ++ formatFileSize (size a) ++ ")]"))])
  /\ formatMessagesForAPI (before ++ m :: after)
     = formatMessagesForAPI before
       ++ match attachments m with
          | Some (x :: rest) =>
              formatMessageForAPI (stored_role m) (stored_content m) (x :: rest)
          | _ => {| role := stored_role m; content := JStr (stored_content m) |}
          end :: formatMessagesForAPI after.
Proof.
  assert (Htext : negb (is_empty message_content) && negb (is_empty (trim message_content))
                  = negb (is_empty (trim message_content))).
  { destruct message_content; reflexivity. }
  split; [|split; [|split; [|split]]].
  - cbn [formatMessageForAPI content]. rewrite Htext.
    destruct (is_empty (trim message_content)); reflexivity.
  - reflexivity.
  - intros a Himg. unfold attachment_part. rewrite Himg. reflexivity.
  - intros a Himg. unfold attachment_part. rewrite Himg. reflexivity.
  - unfold formatMessagesForAPI. rewrite map_app. reflexivity.
Qed.

(** The number of tenths shown for a size in kilobytes. *)
Definition tenths_of_kilobytes (bytes : N) : N := ((20 * bytes + 1024) / 2048)%N.

(** X30. A size between one kilobyte and one megabyte is shown in
    kilobytes with one decimal, rounded to the nearest tenth; the figure
    lies between 1.0 and 1024.0, and the sizes of the last 51 bytes below
    one megabyte are shown as 1024.0 KB. *)
Theorem X30_kilobytes_are_rounded_to_a_tenth (bytes : N) :
  (1024 <= bytes)%N -> (bytes < 1024 * 1024)%N ->
  formatFileSize bytes
  = (decimal (tenths_of_kilobytes bytes / 10) ++ "."
     ++ decimal (tenths_of_kilobytes bytes mod 10) ++ " KB")%string
  /\ (10 <= tenths_of_kilobytes bytes <= 10240)%N
  /\ (2048 * tenths_of_kilobytes bytes <= 20 * bytes + 1024
      < 2048 * (tenths_of_kilobytes bytes + 1))%N
  /\ ((1048525 <= bytes)%N -> formatFileSize bytes = "1024.0 KB").
Proof.
  intros Hl Hu.
  assert (Hf : formatFileSize bytes
               = (decimal (tenths_of_kilobytes bytes / 10) ++ "."
                  ++ decimal (tenths_of_kilobytes bytes mod 10) ++ " KB")%string).
  { unfold formatFileSize, toFixed1, tenths_of_kilobytes.
    replace (N.ltb bytes 1024) with false by (symmetry; apply N.ltb_ge; exact Hl).
    replace (N.ltb bytes (1024 * 1024)) with true by (symmetry; apply N.ltb_lt; exact Hu).
    change (2 * 1024)%N with 2048%N.
    rewrite !string_app_assoc_r. reflexivity. }
  assert (Hdiv : (2048 * tenths_of_kilobytes bytes <= 20 * bytes + 1024
                  < 2048 * (tenths_of_kilobytes bytes + 1))%N).
  { unfold tenths_of_kilobytes.
    pose proof (N.Div0.mul_div_le (20 * bytes + 1024) 2048) as Hd.
    pose proof (N.mul_succ_div_gt (20 * bytes + 1024) 2048 ltac:(discriminate)) as Hm.
    rewrite <- N.add_1_r in Hm. split; [exact Hd | exact Hm]. }
  split; [exact Hf | split; [|split; [exact Hdiv|]]].
  - lia.
  - intros Hb. rewrite Hf.
    assert (Ht : tenths_of_kilobytes bytes = 10240%N) by lia.
    rewrite Ht. reflexivity.
Qed.

End Helpers.

(* ===================================================================== *)
(** * Concrete instances *)
(* ===================================================================== *)

(** The properties above that hold under hypotheses, each at an input
    that satisfies them, with the reference engine. *)
Module Instances.
Import Text Js Session Controller Decoder Frames Examples.
Import Guarantees Lines Boundaries Failures Routing Classification Conversions Helpers.
Import TextFacts ErrorHandlers.
Import Reference.

Lemma example_request_valid p : valid (adapter_of p) request.
Proof. repeat split; try discriminate. Qed.

Lemma request_accepted : accepted request.
Proof. repeat split; discriminate. Qed.

(** ** Reasoning, then content *)

Definition cat_marker : string := OpenAI.image_marker (JStr "https://example.com/cat.png").

(** An image that arrives while the reasoning is open is delivered
    through [onChunk] before [onReasoningComplete]: the reasoning is
    marked complete by the content delta that follows. *)
Lemma image_marker_before_reasoning_complete :
  trace openai all_callbacks request (streaming reasoning_image_content [])
  = [OnReasoningChunk (JStr "Let me think") "Let me think";
     OnChunk (JStr cat_marker) cat_marker;
     OnReasoningComplete;
     OnChunk (JStr "Answer") (cat_marker ++ "Answer");
     OnComplete (cat_marker ++ "Answer")].
Proof. vm_compute. reflexivity. Qed.


(** ** Streams *)

Definition hi_line : string := dq "data: {'choices':[{'delta':{'content':'Hi'}}]}".
Definition there_line : string := dq "data: {'choices':[{'delta':{'content':' there'}}]}".
Definition finish_line : string :=
  dq "data: {'choices':[{'delta':{},'finish_reason':'stop'}]}".

Definition gemini_hi : string :=
  line "data: {'candidates':[{'content':{'parts':[{'text':'Hi'}]}}]}".
Definition gemini_there : string :=
  line "data: {'candidates':[{'content':{'parts':[{'text':' there'}]}}]}".


Lemma X8_witness :
  trace (adapter_of OpenAICompatible) all_callbacks request
    (streaming ([(hi_line ++ line_feed)%string] ++ [there_line]) [])
  = trace (adapter_of OpenAICompatible) all_callbacks request
      (streaming [(hi_line ++ line_feed)%string] []).
Proof.
  apply (@X8_unterminated_last_line_is_dropped engine OpenAICompatible all_callbacks request
           [(hi_line ++ line_feed)%string] there_line).
  apply one_line_check. vm_compute. reflexivity.
Defined.

Lemma X10_witness :
  trace (adapter_of GeminiKind) all_callbacks request (streaming [gemini_hi; gemini_there] [])
  = trace (adapter_of GeminiKind) all_callbacks request
      (streaming [(gemini_hi ++ gemini_there)%string] []).
Proof.
  apply (@X10_session_ignores_chunk_boundaries engine GeminiKind all_callbacks request
           [gemini_hi; gemini_there] [(gemini_hi ++ gemini_there)%string] []).
  - discriminate.
  - vm_compute. reflexivity.
Defined.

Lemma X11_witness :
  trace openai all_callbacks request
    (streaming [(finish_line ++ line_feed ++ there_line ++ line_feed)%string] [])
  = [OnComplete EmptyString]
  /\ trace openai all_callbacks request
       (streaming [(finish_line ++ line_feed)%string; (there_line ++ line_feed)%string] [])
     = [OnChunk (JStr " there") " there"; OnComplete " there"].
Proof.
  apply (@X11_finish_reason_skips_the_rest_of_the_chunk engine all_callbacks request
           finish_line there_line " there").
  - apply (example_request_valid OpenAICompatible).
  - apply one_line_check. vm_compute. reflexivity.
  - apply one_line_check. vm_compute. reflexivity.
  - vm_compute. reflexivity.
  - vm_compute. reflexivity.
  - discriminate.
Defined.


(** ** Guarantees *)

Lemma X1_witness :
  "Hi there" = (delivered [OnChunk (JStr "Hi") "Hi"] ++ ToString (JStr " there"))%string
  /\ "Hi there" = delivered [OnChunk (JStr "Hi") "Hi"; OnChunk (JStr " there") "Hi there"].
Proof.
  split.
  - apply (proj1 (@X1_accumulated_content_is_what_was_delivered engine OpenAICompatible
                    all_callbacks request (streaming hi_there [])
                    [OnChunk (JStr "Hi") "Hi"] [OnComplete "Hi there"])
             (JStr " there") "Hi there").
    vm_compute. reflexivity.
  - apply (proj2 (@X1_accumulated_content_is_what_was_delivered engine OpenAICompatible
                    all_callbacks request (streaming hi_there [])
                    [OnChunk (JStr "Hi") "Hi"; OnChunk (JStr " there") "Hi there"] [])
             "Hi there").
    vm_compute. reflexivity.
Defined.

Lemma X2_witness :
  "Let me think" = (reasoned [] ++ ToString (JStr "Let me think"))%string.
Proof.
  apply (@X2_accumulated_reasoning_is_what_was_delivered engine OpenAICompatible all_callbacks
           request (streaming reasoning_first []) []
           [OnReasoningComplete; OnChunk (JStr "Answer") "Answer"; OnComplete "Answer"]
           (JStr "Let me think") "Let me think").
  vm_compute. reflexivity.
Defined.

Lemma X3_witness :
  count is_reasoning_complete
    (trace (adapter_of OpenAICompatible) all_callbacks request (streaming reasoning_first []))
  <= 1
  /\ 1 <= count is_reasoning_chunk [OnReasoningChunk (JStr "Let me think") "Let me think"].
Proof.
  split.
  - apply (proj1 (@X3_reasoning_is_completed_at_most_once engine OpenAICompatible all_callbacks
                    request (streaming reasoning_first []))).
  - apply (proj2 (@X3_reasoning_is_completed_at_most_once engine OpenAICompatible all_callbacks
                    request (streaming reasoning_first []))
             [OnReasoningChunk (JStr "Let me think") "Let me think"]
             [OnChunk (JStr "Answer") "Answer"; OnComplete "Answer"]).
    vm_compute. reflexivity.
Defined.

Lemma X4_witness :
  (count is_reasoning_chunk
     (trace (adapter_of OpenAICompatible) no_reasoning_callbacks request
        (streaming reasoning_first [])) = 0
   /\ count is_reasoning_complete
        (trace (adapter_of OpenAICompatible) no_reasoning_callbacks request
           (streaming reasoning_first [])) = 0)
  /\ count is_reasoning_complete
       (trace (adapter_of OpenAICompatible) no_reasoning_callbacks request
          (streaming reasoning_first [])) = 0.
Proof.
  split.
  - apply (proj1 (@X4_absent_reasoning_callbacks_are_not_invoked engine OpenAICompatible
                    no_reasoning_callbacks request (streaming reasoning_first []))).
    reflexivity.
  - apply (proj2 (@X4_absent_reasoning_callbacks_are_not_invoked engine OpenAICompatible
                    no_reasoning_callbacks request (streaming reasoning_first []))).
    reflexivity.
Defined.

Lemma X5_witness :
  truthy (JStr "Answer") = true
  /\ (truthy (JStr EmptyString) = true \/ JStr EmptyString = JStr EmptyString).
Proof.
  split.
  - apply (proj1 (@X5_deltas_are_never_empty engine OpenAICompatible all_callbacks request
                    (streaming reasoning_first []) (JStr "Answer") "Answer")).
    vm_compute. tauto.
  - apply (proj2 (@X5_deltas_are_never_empty engine OpenAICompatible all_callbacks request
                    (streaming reasoning_only [ReadRejects AbortError])
                    (JStr EmptyString) "Let me think")).
    vm_compute. tauto.
Defined.

(** ** Failures *)

Definition no_key : Request :=
  {| apiKey := EmptyString; baseUrl := "https://api.example.com/v1"; model := "model-1";
     messages := [ {| role := "user"; content := "Hi" |} ] |}.
Definition no_model : Request :=
  {| apiKey := "sk-test"; baseUrl := "https://api.example.com/v1"; model := EmptyString;
     messages := [ {| role := "user"; content := "Hi" |} ] |}.
Definition no_messages : Request :=
  {| apiKey := "sk-test"; baseUrl := "https://api.example.com/v1"; model := "model-1";
     messages := [] |}.
Definition no_base_url : Request :=
  {| apiKey := "sk-test"; baseUrl := EmptyString; model := "model-1";
     messages := [ {| role := "user"; content := "Hi" |} ] |}.

Definition failed_to_fetch : JsError :=
  {| err_name := "TypeError"; err_message := "Failed to fetch" |}.

Definition answers (code : N) (reason : string) (retryAfter : option string)
           (data : option JsVal) : Response :=
  {| status := code; statusText := reason; retry_after := retryAfter; json := data;
     body := None |}.

Lemma X13_witness :
  trace (adapter_of OpenAICompatible) all_callbacks no_key (FetchRejects failed_to_fetch)
  = [OnError "Invalid API key"]
  /\ trace (adapter_of OpenAICompatible) all_callbacks no_model (FetchRejects failed_to_fetch)
     = [OnError "Invalid model"]
  /\ trace (adapter_of OpenAICompatible) all_callbacks no_messages
       (FetchRejects failed_to_fetch)
     = [OnError "Messages must be a non-empty array"]
  /\ trace (adapter_of OpenAICompatible) all_callbacks no_base_url
       (FetchRejects failed_to_fetch)
     = [OnError "Invalid base URL"].
Proof.
  split; [|split; [|split]].
  - apply (proj1 (@X13_invalid_request_is_reported engine OpenAICompatible all_callbacks no_key
                    (FetchRejects failed_to_fetch))).
    reflexivity.
  - apply (proj1 (proj2 (@X13_invalid_request_is_reported engine OpenAICompatible all_callbacks
                           no_model (FetchRejects failed_to_fetch))));
      reflexivity.
  - apply (proj1 (proj2 (proj2 (@X13_invalid_request_is_reported engine OpenAICompatible
                                  all_callbacks no_messages (FetchRejects failed_to_fetch)))));
      reflexivity.
  - apply (proj2 (proj2 (proj2 (@X13_invalid_request_is_reported engine OpenAICompatible
                                  all_callbacks no_base_url (FetchRejects failed_to_fetch)))));
      first [reflexivity | discriminate].
Defined.


Lemma X15_witness :
  trace (adapter_of GeminiKind) all_callbacks request (FetchRejects AbortError)
  = [OnComplete EmptyString]
  /\ trace (adapter_of GeminiKind) all_callbacks request (FetchRejects failed_to_fetch)
     = [OnError "Network error: Unable to connect to Gemini API. Please check your internet connection."].
Proof.
  split.
  - apply (proj1 (proj2 (@X15_rejected_fetch_ends_the_session engine GeminiKind all_callbacks
                           request AbortError (example_request_valid GeminiKind)))).
    reflexivity.
  - apply (proj2 (proj2 (@X15_rejected_fetch_ends_the_session engine GeminiKind all_callbacks
                           request failed_to_fetch (example_request_valid GeminiKind))));
      reflexivity.
Defined.

(** ** The router *)

Definition slash_only : Router.ProviderConfig := {| Router.apiBaseUrl := " / " |}.

Lemma custom_provider : custom "my-provider".
Proof. repeat split; discriminate. Qed.

Lemma X17_witness :
  calls (snd (Router.sendStreamingMessage (fun _ => None) "my-provider" (Some slash_only)
                all_callbacks request (FetchRejects failed_to_fetch)))
  = [OnError "Invalid base URL"].
Proof.
  apply (@X17_blank_base_url_is_reported engine (fun _ => None) "my-provider" slash_only
           all_callbacks request (FetchRejects failed_to_fetch)).
  - apply request_accepted.
  - apply custom_provider.
  - reflexivity.
  - vm_compute. reflexivity.
Defined.

Lemma X18_witness :
  Providers.getProviderById "my-provider" = None
  /\ Providers.getAllModels "my-provider" = []
  /\ Providers.getFallbackModels "my-provider" = []
  /\ (forall modelId, Providers.getModelById "my-provider" modelId = None)
  /\ calls (snd (ChatClient.sendStreamingMessage "my-provider" None all_callbacks request
                   (FetchRejects failed_to_fetch)))
     = [OnError "Unknown provider: my-provider. Please check your provider configuration."].
Proof.
  apply (@X18_unknown_provider_is_reported engine "my-provider" None all_callbacks request
           (FetchRejects failed_to_fetch)).
  - apply request_accepted.
  - apply custom_provider.
  - exact I.
Defined.

Lemma X19_witness :
  Router.clean_base_url
    (" " ++ "https://api.example.com/v1" ++ "/chat/completions" ++ slashes 2 ++ " ")
  = "https://api.example.com/v1"
  /\ Requests.OpenAI.endpoint
       (Router.clean_base_url
          (" " ++ "https://api.example.com/v1" ++ "/chat/completions" ++ slashes 2 ++ " "))
     = ("https://api.example.com/v1" ++ "/chat/completions")%string.
Proof.
  apply (@X19_pasted_endpoint_is_reduced_to_its_base "https://api.example.com/v1" " " " " 2).
  - vm_compute. reflexivity.
  - repeat constructor.
  - repeat constructor.
Defined.

(** ** Alerts *)

Lemma X20_witness :
  exists message,
    trace (adapter_of OpenAICompatible) all_callbacks request
      (FetchResolves (answers 429 "Too Many Requests" (Some "30") None))
    = [OnError message]
    /\ (forall seconds,
          retry_after (answers 429 "Too Many Requests" (Some "30") None) = Some seconds ->
          is_empty seconds = false ->
          message = ("Rate limit exceeded. Please wait " ++ seconds ++ " seconds.")%string)
    /\ detectErrorType (Error message) = RATE_LIMIT
    /\ handleStreamingError (Error message) "OpenAI"
       = showFetchErrorAlert "OpenAI"
           "Rate limit exceeded. Please wait a moment and try again.".
Proof.
  apply (@X20_rate_limit_raises_the_fixed_alert engine OpenAICompatible all_callbacks request
           (answers 429 "Too Many Requests" (Some "30") None) "OpenAI").
  - apply (example_request_valid OpenAICompatible).
  - reflexivity.
Defined.

Lemma X21_witness :
  (trace (adapter_of OpenAICompatible) all_callbacks request
     (FetchResolves (answers 401 "Unauthorized" None None))
   = [OnError "Invalid API key or unauthorized access."]
   /\ handleStreamingError (Error "Invalid API key or unauthorized access.") "OpenAI"
      = showInvalidApiKeyAlert "OpenAI" "Invalid API key or unauthorized access.")
  /\ (trace (adapter_of OpenAICompatible) all_callbacks request
        (FetchResolves (answers 503 "Service Unavailable" None None))
      = [OnError (http_error_default (answers 503 "Service Unavailable" None None))]
      /\ handleStreamingError
           (Error (http_error_default (answers 503 "Service Unavailable" None None))) "OpenAI"
         = showFetchErrorAlert "OpenAI"
             (http_error_default (answers 503 "Service Unavailable" None None))).
Proof.
  split.
  - apply (proj1 (@X21_status_messages_are_classified engine OpenAICompatible all_callbacks
                    request (answers 401 "Unauthorized" None None) "OpenAI"
                    (example_request_valid OpenAICompatible) eq_refl)).
    reflexivity.
  - apply (proj2 (@X21_status_messages_are_classified engine OpenAICompatible all_callbacks
                    request (answers 503 "Service Unavailable" None None) "OpenAI"
                    (example_request_valid OpenAICompatible) eq_refl)).
    right. right. cbn. lia.
Defined.

Lemma X22_witness :
  trace (adapter_of AnthropicKind) all_callbacks request (FetchRejects failed_to_fetch)
  = [OnError (network_error (adapter_of AnthropicKind))]
  /\ handleStreamingError (Error (network_error (adapter_of AnthropicKind))) "Anthropic"
     = showFetchErrorAlert "Anthropic" (network_error (adapter_of AnthropicKind))
  /\ forall error,
       detectErrorType error = RATE_LIMIT \/ detectErrorType error = INVALID_API_KEY
       \/ detectErrorType error = MISSING_API_KEY \/ detectErrorType error = OTHER.
Proof.
  apply (@X22_network_failure_raises_the_general_alert engine AnthropicKind all_callbacks request
           failed_to_fetch "Anthropic").
  - apply (example_request_valid AnthropicKind).
  - reflexivity.
  - reflexivity.
Defined.

Lemma X23_witness :
  (trace (adapter_of GeminiKind) all_callbacks no_key (FetchRejects failed_to_fetch)
   = [OnError "Invalid API key"]
   /\ handleStreamingError (Error "Invalid API key") "Google Gemini"
      = showInvalidApiKeyAlert "Google Gemini" "Invalid API key")
  /\ (calls (snd (Router.sendStreamingMessage (fun _ => None) "gemini" None all_callbacks
                    no_key (FetchRejects failed_to_fetch)))
      = [OnError "API key is required"]
      /\ handleStreamingError (Error "API key is required") "Google Gemini"
         = showFetchErrorAlert "Google Gemini" "API key is required").
Proof.
  apply (@X23_missing_key_raises_other_alerts engine GeminiKind all_callbacks no_key
           (FetchRejects failed_to_fetch) (fun _ => None) "gemini" None "Google Gemini").
  reflexivity.
Defined.

(** ** Messages and models *)

Definition system_prompt : Requests.ApiMessage :=
  {| Requests.role := JStr "system"; Requests.content := JStr "Be brief." |}.
Definition question : Requests.ApiMessage :=
  {| Requests.role := JStr "user"; Requests.content := JStr "Hi" |}.
Definition answer : Requests.ApiMessage :=
  {| Requests.role := JStr "assistant"; Requests.content := JStr "Hello" |}.

Lemma X25_witness :
  hd JUndefined (map Requests.Gemini.text
                   (Requests.Gemini.contents [system_prompt; question; answer]))
  = JStr (ToString (JStr "Be brief.") ++ Requests.Gemini.separator ++ ToString (JStr "Hi")).
Proof.
  apply (proj1 (proj2 (proj2 (@X25_gemini_request_carries_the_first_system_message
                                [system_prompt; question; answer])))
           system_prompt question [answer]).
  - reflexivity.
  - reflexivity.
Defined.

Definition thinker : ModelHelpers.ModelData :=
  {| ModelHelpers.id := "deepseek/deepseek-r1"; ModelHelpers.supportsReasoning := true;
     ModelHelpers.outputModalities := Some ["text"] |}.
Definition painter : ModelHelpers.ModelData :=
  {| ModelHelpers.id := "google/gemini-2.5-flash-image";
     ModelHelpers.supportsReasoning := false;
     ModelHelpers.outputModalities := Some ["image"; "text"] |}.

Lemma X27_witness :
  ModelHelpers.getReasoningConfig "deepseek/deepseek-r1" = None
  /\ ModelHelpers.isThinkingModel "deepseek/deepseek-r1" [] = false
  /\ exists m, In m [thinker; painter] /\ ModelHelpers.id m = "deepseek/deepseek-r1"
               /\ ModelHelpers.supportsReasoning m = true.
Proof.
  destruct (@X27_reasoning_config_is_never_set "deepseek/deepseek-r1" [thinker; painter])
    as (H1 & H2 & H3).
  split; [exact H1 | split; [exact H2 | apply H3; reflexivity]].
Defined.

Lemma X28_witness :
  (ModelHelpers.isImageGenerationModel "google/gemini-2.5-flash-image" [thinker; painter] = true
   <-> ModelHelpers.getModalitiesForModel "google/gemini-2.5-flash-image" [thinker; painter]
       = Some ["image"; "text"])
  /\ (ModelHelpers.isImageGenerationModel "google/gemini-2.5-flash-image" [thinker; painter]
      = false
      <-> ModelHelpers.getModalitiesForModel "google/gemini-2.5-flash-image" [thinker; painter]
          = None).
Proof.
  apply (@X28_image_generation_tests_agree "google/gemini-2.5-flash-image" [thinker; painter]).
  reflexivity.
Defined.

Definition pasted_image : MessageFormatters.Attachment :=
  {| MessageFormatters.isImage := true; MessageFormatters.data := "data:image/png;base64,AAAA";
     MessageFormatters.attachment_name := "pasted-1.png";
     MessageFormatters.attachment_type := "image/png"; MessageFormatters.size := 3 |}.

Lemma X30_witness :
  MessageFormatters.formatFileSize 1048575
  = (decimal (tenths_of_kilobytes 1048575 / 10) ++ "."
     ++ decimal (tenths_of_kilobytes 1048575 mod 10) ++ " KB")%string
  /\ (10 <= tenths_of_kilobytes 1048575 <= 10240)%N
  /\ (2048 * tenths_of_kilobytes 1048575 <= 20 * 1048575 + 1024
      < 2048 * (tenths_of_kilobytes 1048575 + 1))%N
  /\ MessageFormatters.formatFileSize 1048575 = "1024.0 KB".
Proof.
  destruct (@X30_kilobytes_are_rounded_to_a_tenth 1048575 ltac:(lia) eq_refl)
    as (H1 & H2 & H3 & H4).
  split; [exact H1 | split; [exact H2 | split; [exact H3 | apply H4; lia]]].
Defined.

Definition attached_file : MessageFormatters.Attachment :=
  {| MessageFormatters.isImage := false; MessageFormatters.data := "data:text/plain;base64,AAAA";
     MessageFormatters.attachment_name := "notes.txt";
     MessageFormatters.attachment_type := "text/plain"; MessageFormatters.size := 2048 |}.

Lemma X29_witness :
  Requests.content
    (MessageFormatters.formatMessageForAPI JUndefined "Look at these"
       [pasted_image; attached_file])
  = JArr [JObj [("type", JStr "text"); ("text", JStr "Look at these")];
          JObj [("type", JStr "image_url");
                ("image_url", JObj [("url", JStr "data:image/png;base64,AAAA");
                                    ("detail", JStr "auto")])];
          JObj [("type", JStr "text");
                ("text", JStr "[Attached file: notes.txt (text/plain, 2.0 KB)]")]]
  /\ Requests.role
       (MessageFormatters.formatMessageForAPI JUndefined "Look at these"
          [pasted_image; attached_file])
     = JStr "user"
  /\ MessageFormatters.attachment_part attached_file
     = JObj [("type", JStr "text");
             ("text", JStr "[Attached file: notes.txt (text/plain, 2.0 KB)]")].
Proof.
  destruct (@X29_attachments_become_parts JUndefined "Look at these" pasted_image
              [attached_file] [] []
              {| MessageFormatters.stored_role := JStr "user";
                 MessageFormatters.stored_content := "Hi";
                 MessageFormatters.attachments := None |})
    as (H1 & H2 & _ & H4 & _).
  split; [exact H1 | split; [exact H2 | exact (H4 attached_file eq_refl)]].
Defined.

Lemma X26_witness :
  Requests.Gemini.modelName "gemini-1.5-pro" = "models/gemini-1.5-pro"
  /\ Requests.url (Requests.Gemini.fetch_call "key" "models/gemini-1.5-pro" []
                     Requests.Gemini.defaults)
     = Requests.url (Requests.Gemini.fetch_call "key" "gemini-1.5-pro" []
                       Requests.Gemini.defaults)
  /\ Requests.url (Requests.Gemini.fetch_call "key" "gemini-1.5-pro" []
                     Requests.Gemini.defaults)
     = "https://generativelanguage.googleapis.com/v1beta/models/gemini-1.5-pro:streamGenerateContent?key=key&alt=sse".
Proof.
  destruct (@X26_gemini_model_name_is_normalised "key" "gemini-1.5-pro" []
              Requests.Gemini.defaults)
    as (_ & H2 & _ & _ & _ & _ & H7).
  split; [exact (H2 eq_refl) | exact (H7 eq_refl)].
Defined.

End Instances.
